(** * ydb-go-sdk: a shallow embedding of the result scanner, the credentials
    chain, the lazy coordination client and the context endpoint carrier.

    Go values are modelled as the code has them: interfaces as sums over
    their dynamic types (with [None] for the nil interface), pointers as
    optional locations into an explicit store, [panic] as an outcome of
    its own, and [fmt.Errorf] as a constructor that keeps its format and
    its operands. *)

From Stdlib Require Import Ascii ZArith Lia.
From stdpp Require Import base numbers list strings.

#[local] Set Warnings "-register-all".

(** ** Go errors *)

(** Transport error codes and operation status codes of
    [internal/errors], as enumerated by [retry_test.go]. *)
Inductive TransportErrorCode :=
  | TransportErrorUnknownCode | TransportErrorCanceled | TransportErrorUnknown
  | TransportErrorInvalidArgument | TransportErrorDeadlineExceeded
  | TransportErrorNotFound | TransportErrorAlreadyExists
  | TransportErrorPermissionDenied | TransportErrorResourceExhausted
  | TransportErrorFailedPrecondition | TransportErrorAborted
  | TransportErrorOutOfRange | TransportErrorUnimplemented
  | TransportErrorInternal | TransportErrorUnavailable
  | TransportErrorDataLoss | TransportErrorUnauthenticated.

Inductive StatusCode :=
  | StatusUnknownStatus | StatusBadRequest | StatusUnauthorized
  | StatusInternalError | StatusAborted | StatusUnavailable
  | StatusOverloaded | StatusSchemeError | StatusGenericError
  | StatusTimeout | StatusBadSession | StatusPreconditionFailed
  | StatusAlreadyExists | StatusNotFound | StatusSessionExpired
  | StatusCancelled | StatusUndetermined | StatusUnsupported
  | StatusSessionBusy.

(** Operands handed to [fmt.Errorf]; [T] is the type of the operands that
    are not errors (the scanner passes wire types, Go types and numbers). *)
Inductive error (T : Type) :=
  | ErrorsNew (msg : string)
  | Errorf (format : string) (args : list (fmtarg T))
  | NewTransportError (code : TransportErrorCode)
  | NewOpError (status : StatusCode)
  | ContextCanceled
  | ContextDeadlineExceeded
with fmtarg (T : Type) :=
  | ArgErr (e : error T)
  | ArgStr (s : string)
  | ArgVal (v : T).

Arguments ErrorsNew {T} msg.
Arguments Errorf {T} format args.
Arguments NewTransportError {T} code.
Arguments NewOpError {T} status.
Arguments ContextCanceled {T}.
Arguments ContextDeadlineExceeded {T}.
Arguments ArgErr {T} e.
Arguments ArgStr {T} s.
Arguments ArgVal {T} v.

(** Position, among the verbs of a format, of the first [%w]; [%%] is a
    literal percent sign and takes no operand. *)
Fixpoint wrap_verb_index (f : string) (n : nat) : option nat :=
  match f with
  | String "%"%char (String c rest) =>
      if Ascii.eqb c "w"%char then Some n
      else if Ascii.eqb c "%"%char then wrap_verb_index rest n
      else wrap_verb_index rest (S n)
  | String _ rest => wrap_verb_index rest n
  | EmptyString => None
  end.

(** [errors.Unwrap]: only an error built by [fmt.Errorf] with a [%w] verb
    over an error operand wraps anything. *)
Definition Unwrap {T} (e : error T) : option (error T) :=
  match e with
  | Errorf f args =>
      match wrap_verb_index f 0 with
      | Some i =>
          match args !! i with
          | Some (ArgErr inner) => Some inner
          | _ => None
          end
      | None => None
      end
  | _ => None
  end.

(** [errors.Is err target]: [target] is met along the unwrap chain. *)
Inductive errors_Is {T} : error T -> error T -> Prop :=
  | Is_here e : errors_Is e e
  | Is_inner e e' t : Unwrap e = Some e' -> errors_Is e' t -> errors_Is e t.

(** ** package cluster: context.go *)

Module cluster.

(** An implementation of the [Endpoint] interface, known by its address. *)
Record endpoint := { Address : string }.

(** A value of interface type [Endpoint]; [None] is the nil interface. *)
Definition Endpoint := option endpoint.

(** Context keys are compared as interface values: by dynamic type and
    value. [ctxEndpointKey{}] is the one value of its type. *)
Inductive key :=
  | ctxEndpointKey
  | otherKey (id : nat).

Definition key_eqb (a b : key) : bool :=
  match a, b with
  | ctxEndpointKey, ctxEndpointKey => true
  | otherKey i, otherKey j => Nat.eqb i j
  | _, _ => false
  end.

(** Values a context carries ([interface{}]). *)
Inductive any :=
  | anyNil
  | anyEndpoint (e : endpoint)
  | anyOther (tag : nat).

(** Conversion of an [Endpoint] to [interface{}]: the nil interface
    stays nil. *)
Definition to_any (e : Endpoint) : any :=
  match e with
  | Some x => anyEndpoint x
  | None => anyNil
  end.

(** [context.Context]: the background context, a value binding, or a
    derivation (cancel, deadline, timeout) that leaves values alone. *)
Inductive Context :=
  | Background
  | WithValue (parent : Context) (k : key) (v : any)
  | Derived (parent : Context).

Fixpoint Value (ctx : Context) (k : key) : any :=
  match ctx with
  | Background => anyNil
  | WithValue parent k' v => if key_eqb k' k then v else Value parent k
  | Derived parent => Value parent k
  end.

Definition WithEndpoint (ctx : Context) (e : Endpoint) : Context :=
  WithValue ctx ctxEndpointKey (to_any e).

(** The type assertion [x.(Endpoint)] with its [ok] result. *)
Definition assert_Endpoint (x : any) : Endpoint * bool :=
  match x with
  | anyEndpoint e => (Some e, true)
  | _ => (None, false)
  end.

Definition ContextEndpoint (ctx : Context) : Endpoint * bool :=
  let '(e, ok) := assert_Endpoint (Value ctx ctxEndpointKey) in
  if ok then (e, true) else (None, false).

Definition is_endpoint (x : any) : bool :=
  match x with anyEndpoint _ => true | _ => false end.

(** No endpoint was attached: nowhere in the chain is [ctxEndpointKey]
    bound to an endpoint. *)
Fixpoint never_attached (ctx : Context) : bool :=
  match ctx with
  | Background => true
  | WithValue parent k v =>
      negb (key_eqb k ctxEndpointKey && is_endpoint v) && never_attached parent
  | Derived parent => never_attached parent
  end.

(** What may be laid over a context without touching the endpoint: a
    value under another key, or a derivation. *)
Inductive layer :=
  | layer_value (id : nat) (v : any)
  | layer_derived.

Definition lay (l : layer) (ctx : Context) : Context :=
  match l with
  | layer_value id v => WithValue ctx (otherKey id) v
  | layer_derived => Derived ctx
  end.

End cluster.

(** ** package ydb: coordiantion.go *)

Module ydb.
Section lazy.

(** The database handle and the constructor [internal.New] of the
    coordination client are outside this file. *)
Context {DB : Type} {E : Type}.

(** [internal.Client]: what [Close] answers, and an identity to tell in
    the call log which client was invoked. *)
Record Client := { client_id : nat; client_Close : cluster.Context -> option (error E) }.

Variable New : DB -> Client.

(** The mutex [m] serialises the methods; calls are modelled one at a
    time, so it leaves no trace in the state. *)
Record lazyCoordination := { db : DB; client : option Client }.

(** Calls that reach the underlying client. *)
Inductive call := CallClose (id : nat) (ctx : cluster.Context).

(** [Close]: the result, the state left behind (the deferred function has
    run) and the calls made on the underlying client. *)
Definition Close (c : lazyCoordination) (ctx : cluster.Context)
  : option (error E) * lazyCoordination * list call :=
  match client c with
  | None => (None, c, [])
  | Some cl =>
      (client_Close cl ctx,
       {| db := db c; client := None |},
       [CallClose (client_id cl) ctx])
  end.

Definition init (c : lazyCoordination) : lazyCoordination :=
  match client c with
  | None => {| db := db c; client := Some (New (db c)) |}
  | Some _ => c
  end.

End lazy.
End ydb.

(** ** package credentials *)

Module credentials.
Section creds.

Context {E : Type}.

Definition ErrCredentialsNoCredentials : error E :=
  ErrorsNew "ydb: credentials: no credentials".

(** The implementations of the [Credentials] interface in the package;
    [multiCredentials] is the pointer type [*multiCredentials]. *)
Inductive Credentials :=
  | Func (f : cluster.Context -> string * option (error E))
  | AccessTokenCredentials (AccessToken sourceInfo : string)
  | anonymousCredentials (sourceInfo : string)
  | multiCredentials (cs : list Credentials).

Section loop.
Variable tok : Credentials -> string * option (error E).

(** The [for] loop of [multiCredentials.Token] over the providers left,
    with the named results [token], [err] as they stand and the
    providers consulted so far; the check after the loop is its last
    case. *)
Fixpoint Token_loop (cs : list Credentials) (token : string)
    (err : option (error E)) (consulted : list Credentials)
  : string * option (error E) * list Credentials :=
  match cs with
  | [] =>
      match err with
      | None => (token, Some ErrCredentialsNoCredentials, consulted)
      | Some _ => (token, err, consulted)
      end
  | c :: rest =>
      let '(token', err') := tok c in
      match err' with
      | None => (token', None, consulted ++ [c])
      | Some _ => Token_loop rest token' err' (consulted ++ [c])
      end
  end.
End loop.

(** [Token] through the interface: the method of the dynamic type. *)
Fixpoint Token (c : Credentials) (ctx : cluster.Context) {struct c}
  : string * option (error E) :=
  match c with
  | Func f => f ctx
  | AccessTokenCredentials a _ => (a, None)
  | anonymousCredentials _ => ("", None)
  | multiCredentials cs =>
      let '(token, err, _) := Token_loop (fun c => Token c ctx) cs "" None [] in
      (token, err)
  end.

(** [multiCredentials.Token] with the providers it consulted. *)
Definition multi_Token (cs : list Credentials) (ctx : cluster.Context)
  : string * option (error E) * list Credentials :=
  Token_loop (fun c => Token c ctx) cs "" None [].

(** [MultiCredentials]: composites among the arguments are spliced in. *)
Fixpoint flatten (cs : list Credentials) : list Credentials :=
  match cs with
  | [] => []
  | multiCredentials inner :: rest => inner ++ flatten rest
  | c :: rest => c :: flatten rest
  end.

Definition MultiCredentials (cs : list Credentials) : Credentials :=
  multiCredentials (flatten cs).

(** A provider whose [Token] answers an error. *)
Definition fails (ctx : cluster.Context) (c : Credentials) : Prop :=
  (Token c ctx).2 <> None.

(** A value of type [*multiCredentials]. *)
Definition is_composite (c : Credentials) : bool :=
  match c with multiCredentials _ => true | _ => false end.

(** A composite holds no composite: every provider it holds is asked
    directly. *)
Definition flat (c : Credentials) : bool :=
  match c with
  | multiCredentials cs => forallb (fun x => negb (is_composite x)) cs
  | _ => true
  end.

(** No composite without providers. *)
Definition not_empty_composite (c : Credentials) : bool :=
  match c with multiCredentials [] => false | _ => true end.

(** The providers whose [Token] has no error to answer. *)
Definition static (c : Credentials) : bool :=
  match c with
  | AccessTokenCredentials _ _ | anonymousCredentials _ => true
  | _ => false
  end.

End creds.
End credentials.

(** ** The wire messages (package Ydb) the scanner reads *)

Module Ydb.

Inductive Type_PrimitiveTypeId :=
  | Type_PRIMITIVE_TYPE_ID_UNSPECIFIED
  | Type_BOOL | Type_INT8 | Type_UINT8 | Type_INT16 | Type_UINT16
  | Type_INT32 | Type_UINT32 | Type_INT64 | Type_UINT64
  | Type_FLOAT | Type_DOUBLE
  | Type_DATE | Type_DATETIME | Type_TIMESTAMP | Type_INTERVAL
  | Type_TZ_DATE | Type_TZ_DATETIME | Type_TZ_TIMESTAMP
  | Type_STRING | Type_UTF8 | Type_YSON | Type_JSON | Type_UUID
  | Type_JSON_DOCUMENT | Type_DYNUMBER.

(** [*Ydb.Type] is [option Type'] ([Type] is taken); the oneof field [Type.Type] is an
    interface and may be unset. Tuples, structs, dicts and the other
    composite types are folded into [Type_OtherType]. *)
Inductive Type' :=
  | mkType (oneof : option isType_Type)
with isType_Type :=
  | Type_TypeId (TypeId : Type_PrimitiveTypeId)
  | Type_DecimalType (Precision Scale : Z)
  | Type_OptionalType (Item : option Type')
  | Type_ListType (Item : option Type')
  | Type_OtherType (tag : nat).

Definition Type_Type (t : Type') : option isType_Type :=
  match t with mkType o => o end.

(** The generated getter, safe on a nil receiver. *)
Definition GetTypeId (t : option Type') : Type_PrimitiveTypeId :=
  match t with
  | Some (mkType (Some (Type_TypeId id))) => id
  | _ => Type_PRIMITIVE_TYPE_ID_UNSPECIFIED
  end.

(** [*Ydb.Value]: the oneof [Value], the repeated [Items] and the
    [High_128] half of a 128-bit value. Floats are kept as their bit
    patterns, bytes as numbers below 256. *)
Inductive Value :=
  | mkValue (oneof : option isValue_Value) (Items : list Value) (High_128 : Z)
with isValue_Value :=
  | Value_BoolValue (BoolValue : bool)
  | Value_Int32Value (Int32Value : Z)
  | Value_Uint32Value (Uint32Value : Z)
  | Value_Int64Value (Int64Value : Z)
  | Value_Uint64Value (Uint64Value : Z)
  | Value_FloatValue (FloatValue : Z)
  | Value_DoubleValue (DoubleValue : Z)
  | Value_BytesValue (BytesValue : list Z)
  | Value_TextValue (TextValue : string)
  | Value_NullFlagValue
  | Value_NestedValue (NestedValue : option Value)
  | Value_Low_128 (Low_128 : Z).

Definition Value_Value (v : Value) : option isValue_Value :=
  match v with mkValue o _ _ => o end.
Definition Value_Items (v : Value) : list Value :=
  match v with mkValue _ l _ => l end.
Definition Value_High_128 (v : Value) : Z :=
  match v with mkValue _ _ h => h end.

Record Column := { Name : string; Column_Type : option Type' }.

Record ResultSet := {
  Columns : list Column;
  Rows : list Value;
  Truncated : bool
}.

End Ydb.

(** ** Go types and values of scan destinations *)

Module golang.

Inductive Kind :=
  | Invalid | Bool | Int | Int8 | Int16 | Int32 | Int64
  | Uint | Uint8 | Uint16 | Uint32 | Uint64 | Float32 | Float64
  | Array | Interface | Ptr | Slice | String | Struct.

(** The types a destination may have. [t_named] is a defined type over
    an underlying one; [t_other] stands for the struct types the
    scanner knows nothing about. *)
Inductive type :=
  | t_bool | t_int8 | t_int16 | t_int32 | t_int | t_int64
  | t_uint8 | t_uint16 | t_uint32 | t_uint | t_uint64
  | t_float32 | t_float64
  | t_Time | t_Duration | t_string | t_bytes | t_iface
  | t_Value | t_Decimal
  | t_array (n : nat) (elem : type)
  | t_ptr (elem : type)
  | t_named (name : nat) (underlying : type)
  | t_other (tag : nat).

Fixpoint kind (t : type) : Kind :=
  match t with
  | t_bool => Bool | t_int8 => Int8 | t_int16 => Int16 | t_int32 => Int32
  | t_int => Int | t_int64 => Int64
  | t_uint8 => Uint8 | t_uint16 => Uint16 | t_uint32 => Uint32
  | t_uint => Uint | t_uint64 => Uint64
  | t_float32 => Float32 | t_float64 => Float64
  | t_Time => Struct | t_Duration => Int64 | t_string => String
  | t_bytes => Slice | t_iface => Interface
  | t_Value => Interface | t_Decimal => Struct
  | t_array _ _ => Array
  | t_ptr _ => Ptr
  | t_named _ u => kind u
  | t_other _ => Struct
  end.

Definition Kind_eqb (a b : Kind) : bool :=
  match a, b with
  | Invalid, Invalid | Bool, Bool | Int, Int | Int8, Int8 | Int16, Int16
  | Int32, Int32 | Int64, Int64 | Uint, Uint | Uint8, Uint8
  | Uint16, Uint16 | Uint32, Uint32 | Uint64, Uint64 | Float32, Float32
  | Float64, Float64 | Array, Array | Interface, Interface | Ptr, Ptr
  | Slice, Slice | String, String | Struct, Struct => true
  | _, _ => false
  end.

(** [reflect.Type.Elem] and [Len] on array and pointer types, through
    defined types. *)
Fixpoint elem (t : type) : option type :=
  match t with
  | t_array _ e => Some e
  | t_ptr e => Some e
  | t_named _ u => elem u
  | _ => None
  end.

Fixpoint array_len (t : type) : nat :=
  match t with
  | t_array n _ => n
  | t_named _ u => array_len u
  | _ => 0
  end.

Definition loc := nat.

Section values.
(** [time.Time] and [types.Value] are left to the packages that
    define them. *)
Context {Time Value : Type}.

(** A Go value. Integers carry their mathematical value, floats their
    bit pattern; a nil and an empty [[]byte] are not told apart; an
    [interface{}] holds a value (whose constructor is its dynamic
    type) or nil. *)
Inductive val :=
  | v_bool (b : bool)
  | v_int8 (z : Z) | v_int16 (z : Z) | v_int32 (z : Z) | v_int (z : Z)
  | v_int64 (z : Z)
  | v_uint8 (z : Z) | v_uint16 (z : Z) | v_uint32 (z : Z) | v_uint (z : Z)
  | v_uint64 (z : Z)
  | v_float32 (bits : Z) | v_float64 (bits : Z)
  | v_Time (t : Time) | v_Duration (d : Z)
  | v_string (s : string) | v_bytes (l : list Z)
  | v_iface (a : option val)
  | v_Value (x : option Value)
  | v_Decimal (Bytes : list Z) (Precision Scale : Z)
  | v_array (l : list val)
  | v_ptr (p : option loc)
  | v_other (tag : nat).

Variable zeroTime : Time.

(** The zero value of a type ([reflect.Zero], [var x T]). *)
Fixpoint zero (t : type) : val :=
  match t with
  | t_bool => v_bool false
  | t_int8 => v_int8 0 | t_int16 => v_int16 0 | t_int32 => v_int32 0
  | t_int => v_int 0 | t_int64 => v_int64 0
  | t_uint8 => v_uint8 0 | t_uint16 => v_uint16 0 | t_uint32 => v_uint32 0
  | t_uint => v_uint 0 | t_uint64 => v_uint64 0
  | t_float32 => v_float32 0 | t_float64 => v_float64 0
  | t_Time => v_Time zeroTime | t_Duration => v_Duration 0
  | t_string => v_string "" | t_bytes => v_bytes []
  | t_iface => v_iface None
  | t_Value => v_Value None
  | t_Decimal => v_Decimal (replicate 16 0%Z) 0 0
  | t_array n e => v_array (replicate n (zero e))
  | t_ptr _ => v_ptr None
  | t_named _ u => zero u
  | t_other tag => v_other tag
  end.

Definition bytes_val (l : list Z) : val := v_array (v_uint8 <$> l).

End values.

Arguments val : clear implicits.

(** Conversions between [string] and [[]byte]. *)
Definition bytes_of_string (s : string) : list Z :=
  (fun c => Z.of_N (N_of_ascii c)) <$> String.list_ascii_of_string s.

Definition string_of_bytes (l : list Z) : string :=
  String.string_of_list_ascii ((fun z => ascii_of_N (Z.to_N z)) <$> l).

End golang.

(** ** package scanner: internal/table/scanner/scanner.go *)

Module scanner.
Import Ydb golang.
#[local] Open Scope Z_scope.

(** The primitive types of [internal/value] that [any] switches over;
    [TypeUnknown] stands for any other value of that type. *)
Inductive PrimitiveType :=
  | TypeBool | TypeInt8 | TypeUint8 | TypeInt16 | TypeUint16 | TypeInt32
  | TypeUint32 | TypeInt64 | TypeUint64 | TypeFloat | TypeDouble
  | TypeDate | TypeDatetime | TypeTimestamp | TypeInterval
  | TypeTzDate | TypeTzDatetime | TypeTzTimestamp
  | TypeString | TypeUTF8 | TypeYSON | TypeJSON | TypeUUID
  | TypeJSONDocument | TypeDyNumber | TypeUnknown.

(** The wrapper types named in the scanner's type assertions. *)
Inductive wrapper :=
  | w_BoolValue | w_Int32Value | w_Uint32Value | w_Int64Value
  | w_Uint64Value | w_FloatValue | w_DoubleValue | w_BytesValue
  | w_TextValue | w_NullFlagValue | w_NestedValue | w_Low_128
  | w_DecimalType.

(** What [nameIface] is handed: the oneof found, or the nil pointer of
    the wrapper type that was expected. *)
Inductive iface :=
  | iface_nil
  | iface_value (x : isValue_Value)
  | iface_type (x : isType_Type)
  | iface_nil_of (w : wrapper).

(** Operands of the scanner's error formats that are neither strings
    nor errors. *)
Inductive operand (TT : Type) :=
  | op_Type (t : option TT)
  | op_int (z : Z)
  | op_zero (t : golang.type)
  | op_dst (t : option golang.type)
  | op_TypeId (id : Type_PrimitiveTypeId).
Arguments op_Type {TT} t.
Arguments op_int {TT} z.
Arguments op_zero {TT} t.
Arguments op_dst {TT} t.
Arguments op_TypeId {TT} id.

(** The helpers of [internal/timeutil] and [internal/value] and the
    function [nameIface], none of which is in this file. A result
    [None] of [TypeFromYDB] or [FromYDB] stands for a panic inside. *)
Class Externals := {
  Time : Type;
  zeroTime : Time;
  types_Type : Type;
  types_Value : Type;
  TypeFromYDB : option Type' -> option types_Type;
  as_PrimitiveType : types_Type -> option PrimitiveType;
  FromYDB : option Type' -> option Value -> option types_Value;
  nameIface : iface -> string;
  UnmarshalDate : Z -> Time;
  UnmarshalDatetime : Z -> Time;
  UnmarshalTimestamp : Z -> Time;
  UnmarshalInterval : Z -> Z;
  UnmarshalTzDate : string -> Time * option (error (operand types_Type));
  UnmarshalTzDatetime : string -> Time * option (error (operand types_Type));
  UnmarshalTzTimestamp : string -> Time * option (error (operand types_Type))
}.

(** Modelled from the spec: [value.BigEndianUint128], which is not in
    this file; "UUID to 16-byte array via (low128,high128) bigendian
    compose": the eight bytes of [hi], then those of [lo], most
    significant first. *)
Definition be64 (x : Z) : list Z :=
  (fun k => Z.land (Z.shiftr x (8 * Z.of_nat k)) 255) <$> [7; 6; 5; 4; 3; 2; 1; 0]%nat.

Definition BigEndianUint128 (hi lo : Z) : list Z := be64 hi ++ be64 lo.

(** Go's integer conversions [int8(d)], [int16(d)], [uint8(d)],
    [uint16(d)]: the low bits, read in the destination's signedness. *)
Definition to_unsigned (w : Z) (d : Z) : Z := d mod 2 ^ w.
Definition to_signed (w : Z) (d : Z) : Z :=
  let u := d mod 2 ^ w in
  if u <? 2 ^ (w - 1) then u else u - 2 ^ w.

Definition MinInt8 : Z := -128.
Definition MaxInt8 : Z := 127.
Definition MaxUint8 : Z := 255.
Definition MinInt16 : Z := -32768.
Definition MaxInt16 : Z := 32767.
Definition MaxUint16 : Z := 65535.

(** Indexing a slice with a Go [int]; [None] is the run-time panic. *)
Definition index {A} (l : list A) (k : Z) : option A :=
  if (k <? 0)%Z then None else l !! Z.to_nat k.

Definition len {A} (l : list A) : Z := Z.of_nat (length l).

(** [x != nil] on a pointer or an interface. *)
Definition not_nil {A} (x : option A) : bool :=
  match x with Some _ => true | None => false end.

Section with_externals.
Context `{X : Externals}.

Definition err_t : Type := error (operand types_Type).
Definition gval : Type := golang.val Time types_Value.

Record item := {
  item_name : string;
  item_i : Z;
  item_t : option Type';
  item_v : option Value
}.

Definition emptyItem : item :=
  {| item_name := ""; item_i := 0; item_t := None; item_v := None |}.

Definition isEmpty (x : item) : bool :=
  match item_v x with None => true | Some _ => false end.

(** [scanStack]; the slice [v] only grows by [append], so it is nil
    exactly when it is empty. [p] is an [int8]. *)
Record scanStack := {
  stack_v : list item;
  stack_p : Z;
  scanItem : item
}.

(** [scanner]. The counters are Go [int]s; they stay below the lengths
    of the slices they index, so no wrap-around is written out. The
    field [converter] points back to the scanner and is left out. *)
Record scanner := {
  set : option ResultSet;
  row : option Value;
  stack : scanStack;
  nextRow : Z;
  nextItem : Z;
  columnIndexes : option (list Z);
  defaultValueForOptional : bool;
  err : option err_t
}.

(** A destination handed to [Scan], an [interface{}]: nil, a pointer
    [*t] with its target in the store, a value that is no pointer, or
    an implementation of [sql.Scanner] or of [types.Scanner]. The two
    scanner interfaces are user code: the first is known by the error
    it answers to a value, the second by what it does to the scanner
    it reaches through the converter. *)
Inductive dest :=
  | d_nil
  | d_ptr (t : golang.type) (p : option loc)
  | d_val (t : golang.type) (x : gval)
  | d_sqlScanner (Scan : option gval -> option err_t)
  | d_ydbScanner (UnmarshalYDB : scanner -> scanner * option err_t).

(** The dynamic type of a destination, as [%T] prints it. *)
Definition TypeOf (d : dest) : option golang.type :=
  match d with
  | d_nil => None
  | d_ptr t _ => Some (t_ptr t)
  | d_val t _ => Some t
  | d_sqlScanner _ => Some (t_ptr (t_other 0))
  | d_ydbScanner _ => Some (t_ptr (t_other 1))
  end.

(** *** Effects: the scanner, the store and panics *)

Record state := { sc : scanner; mem : list gval }.

Inductive panic :=
  | panic_string (msg : string)
  | panic_nil_dereference
  | panic_index_out_of_range
  | panic_reflect (msg : string)
  | panic_external (msg : string).

Inductive outcome (A : Type) :=
  | Ret (a : A) (st : state)
  | Panic (why : panic) (st : state).
Arguments Ret {A} a st.
Arguments Panic {A} why st.

Definition M (A : Type) : Type := state -> outcome A.

#[export] Instance M_ret : MRet M := fun A a st => Ret a st.
#[export] Instance M_bind : MBind M := fun A B f m st =>
  match m st with
  | Ret a st' => f a st'
  | Panic why st' => Panic why st'
  end.

Definition do_panic {A} (why : panic) : M A := fun st => Panic why st.
Definition get : M scanner := fun st => Ret (sc st) st.
Definition put (s : scanner) : M unit :=
  fun st => Ret tt {| sc := s; mem := mem st |}.
Definition modify (f : scanner -> scanner) : M unit :=
  fun st => Ret tt {| sc := f (sc st); mem := mem st |}.

(** [*p = x]; a pointer outside the store does not arise in Go and is
    treated like nil. *)
Definition store (p : option loc) (x : gval) : M unit := fun st =>
  match p with
  | None => Panic panic_nil_dereference st
  | Some l =>
      if (l <? length (mem st))%nat
      then Ret tt {| sc := sc st; mem := <[l := x]> (mem st) |}
      else Panic panic_nil_dereference st
  end.

Definition load (p : option loc) : M gval := fun st =>
  match p with
  | None => Panic panic_nil_dereference st
  | Some l =>
      match mem st !! l with
      | Some x => Ret x st
      | None => Panic panic_nil_dereference st
      end
  end.

(** A fresh variable holding [x] ([new], or a local whose address is
    taken). *)
Definition alloc (x : gval) : M loc := fun st =>
  Ret (length (mem st)) {| sc := sc st; mem := mem st ++ [x] |}.

(** Field updates. *)
Definition with_err (e : option err_t) (s : scanner) : scanner :=
  {| set := set s; row := row s; stack := stack s; nextRow := nextRow s;
     nextItem := nextItem s; columnIndexes := columnIndexes s;
     defaultValueForOptional := defaultValueForOptional s; err := e |}.
Definition with_stack (k : scanStack) (s : scanner) : scanner :=
  {| set := set s; row := row s; stack := k; nextRow := nextRow s;
     nextItem := nextItem s; columnIndexes := columnIndexes s;
     defaultValueForOptional := defaultValueForOptional s; err := err s |}.
Definition with_defaultValueForOptional (b : bool) (s : scanner) : scanner :=
  {| set := set s; row := row s; stack := stack s; nextRow := nextRow s;
     nextItem := nextItem s; columnIndexes := columnIndexes s;
     defaultValueForOptional := b; err := err s |}.
Definition with_columnIndexes (c : option (list Z)) (s : scanner) : scanner :=
  {| set := set s; row := row s; stack := stack s; nextRow := nextRow s;
     nextItem := nextItem s; columnIndexes := c;
     defaultValueForOptional := defaultValueForOptional s; err := err s |}.
Definition with_nextItem (n : Z) (s : scanner) : scanner :=
  {| set := set s; row := row s; stack := stack s; nextRow := nextRow s;
     nextItem := n; columnIndexes := columnIndexes s;
     defaultValueForOptional := defaultValueForOptional s; err := err s |}.
Definition with_scanItem (x : item) (k : scanStack) : scanStack :=
  {| stack_v := stack_v k; stack_p := stack_p k; scanItem := x |}.

(** *** scanStack *)

Definition stack_reset (k : scanStack) : scanStack :=
  {| stack_v := stack_v k; stack_p := 0; scanItem := emptyItem |}.

(** [current]; [None] is the index panic of [s.v[s.p]]. *)
Definition stack_current (k : scanStack) : option item :=
  if negb (isEmpty (scanItem k)) then Some (scanItem k)
  else match stack_v k with
       | [] => Some emptyItem
       | _ => index (stack_v k) (stack_p k)
       end.

(** [set], [size], [get], [enter], [leave] and [parent], which the
    converter uses; [None] is an index panic. *)
Definition stack_set (x : item) (k : scanStack) : option scanStack :=
  if stack_p k =? len (stack_v k)
  then Some {| stack_v := stack_v k ++ [x]; stack_p := stack_p k; scanItem := scanItem k |}
  else if (stack_p k <? 0) || (len (stack_v k) <=? stack_p k) then None
  else Some {| stack_v := <[Z.to_nat (stack_p k) := x]> (stack_v k);
               stack_p := stack_p k; scanItem := scanItem k |}.

Definition stack_size (k : scanStack) : option (Z * scanStack) :=
  k' ← (if negb (isEmpty (scanItem k)) then stack_set (scanItem k) k else Some k);
  Some (stack_p k' + 1, k').

Definition stack_get (k : scanStack) (i : Z) : option item := index (stack_v k) i.

Definition stack_enter (k : scanStack) : option scanStack :=
  k' ← (if negb (isEmpty (scanItem k)) then stack_set (scanItem k) k else Some k);
  Some {| stack_v := stack_v k'; stack_p := to_signed 8 (stack_p k' + 1);
          scanItem := emptyItem |}.

Definition stack_leave (k : scanStack) : option scanStack :=
  k' ← stack_set emptyItem k;
  Some (if 0 <? stack_p k'
        then {| stack_v := stack_v k'; stack_p := stack_p k' - 1; scanItem := scanItem k' |}
        else k').

Definition stack_parent (k : scanStack) : option item :=
  if stack_p k =? 0 then Some emptyItem else index (stack_v k) (stack_p k - 1).

Definition current : M item :=
  s ← get;
  match stack_current (stack s) with
  | Some x => mret x
  | None => do_panic panic_index_out_of_range
  end.

Definition currentValue : M (option isValue_Value) :=
  x ← current;
  mret (match item_v x with
        | Some v => Value_Value v
        | None => None
        end).

Definition currentType : M (option isType_Type) :=
  x ← current;
  mret (match item_t x with
        | Some t => Type_Type t
        | None => None
        end).

Definition isOptional (typ : option Type') : bool :=
  match typ with
  | Some (mkType (Some (Type_OptionalType _))) => true
  | _ => false
  end.

(** *** Errors *)

Definition errorf (f : string) (args : list (fmtarg (operand types_Type))) : M unit :=
  s ← get;
  match err s with
  | Some _ => mret tt
  | None => put (with_err (Some (Errorf f args)) s)
  end.

Definition path : M string :=
  x ← current; mret (item_name x).

Definition getType : M (option types_Type) :=
  x ← current;
  if isEmpty x then mret None
  else match TypeFromYDB (item_t x) with
       | Some t => mret (Some t)
       | None => do_panic (panic_external "TypeFromYDB")
       end.

Definition typeError (act exp : iface) : M unit :=
  p ← path;
  t ← getType;
  errorf "unexpected types during scan at %q %s: %s; want %s"
    [ArgStr p; ArgVal (op_Type t); ArgStr (nameIface act); ArgStr (nameIface exp)].

Definition valueTypeError (act exp : iface) : M unit :=
  p ← path;
  t ← getType;
  errorf "unexpected value during scan at %q %s: %s; want %s"
    [ArgStr p; ArgVal (op_Type t); ArgStr (nameIface act); ArgStr (nameIface exp)].

Definition noValueError : M unit :=
  p ← path;
  errorf "no value at %q" [ArgStr p].

Definition noColumnError (name : string) : M unit :=
  errorf "no column %q" [ArgStr name].

Definition overflowError (i : Z) (n : golang.type) : M unit :=
  errorf "overflow error: %d overflows capacity of %t"
    [ArgVal (op_int i); ArgVal (op_zero n)].

(** *** Reading the current item *)

Definition to_iface (x : option isValue_Value) : iface :=
  match x with
  | Some v => iface_value v
  | None => iface_nil
  end.

Definition isCurrentTypeOptional : M bool :=
  c ← current; mret (isOptional (item_t c)).

Definition isNull : M bool :=
  x ← currentValue;
  mret (match x with Some Value_NullFlagValue => true | _ => false end).

(** The branch every typed reader takes when its assertion fails. *)
Definition unexpected (w : wrapper) : M unit :=
  act ← currentValue;
  valueTypeError (to_iface act) (iface_nil_of w).

Definition unwrapValue : M (option Value) :=
  x ← currentValue;
  match x with
  | Some (Value_NestedValue n) => mret n
  | _ => unexpected w_NestedValue;; mret None
  end.

Definition set_scanItem_v (v : option Value) (s : scanner) : scanner :=
  let k := stack s in
  let x := scanItem k in
  with_stack (with_scanItem {| item_name := item_name x; item_i := item_i x;
                               item_t := item_t x; item_v := v |} k) s.

Definition set_scanItem_t (t : option Type') (s : scanner) : scanner :=
  let k := stack s in
  let x := scanItem k in
  with_stack (with_scanItem {| item_name := item_name x; item_i := item_i x;
                               item_t := t; item_v := item_v x |} k) s.

Definition unwrap : M unit :=
  s ← get;
  match err s with
  | Some _ => mret tt
  | None =>
      t ← currentType;
      match t with
      | Some (Type_OptionalType inner) =>
          (if isOptional inner
           then v ← unwrapValue; modify (set_scanItem_v v)
           else mret tt);;
          modify (set_scanItem_t inner)
      | _ => mret tt
      end
  end.

Definition bool_ : M bool :=
  x ← currentValue;
  match x with
  | Some (Value_BoolValue b) => mret b
  | _ => unexpected w_BoolValue;; mret false
  end.

Definition int32 : M Z :=
  x ← currentValue;
  match x with
  | Some (Value_Int32Value d) => mret d
  | _ => unexpected w_Int32Value;; mret 0
  end.

Definition uint32 : M Z :=
  x ← currentValue;
  match x with
  | Some (Value_Uint32Value d) => mret d
  | _ => unexpected w_Uint32Value;; mret 0
  end.

Definition int64 : M Z :=
  x ← currentValue;
  match x with
  | Some (Value_Int64Value d) => mret d
  | _ => unexpected w_Int64Value;; mret 0
  end.

Definition uint64 : M Z :=
  x ← currentValue;
  match x with
  | Some (Value_Uint64Value d) => mret d
  | _ => unexpected w_Uint64Value;; mret 0
  end.

Definition float : M Z :=
  x ← currentValue;
  match x with
  | Some (Value_FloatValue d) => mret d
  | _ => unexpected w_FloatValue;; mret 0
  end.

Definition double : M Z :=
  x ← currentValue;
  match x with
  | Some (Value_DoubleValue d) => mret d
  | _ => unexpected w_DoubleValue;; mret 0
  end.

Definition bytes : M (list Z) :=
  x ← currentValue;
  match x with
  | Some (Value_BytesValue d) => mret d
  | _ => unexpected w_BytesValue;; mret []
  end.

Definition text : M string :=
  x ← currentValue;
  match x with
  | Some (Value_TextValue d) => mret d
  | _ => unexpected w_TextValue;; mret ""
  end.

Definition low128 : M Z :=
  x ← currentValue;
  match x with
  | Some (Value_Low_128 d) => mret d
  | _ => unexpected w_Low_128;; mret 0
  end.

Definition null : M unit :=
  x ← currentValue;
  match x with
  | Some Value_NullFlagValue => mret tt
  | _ => unexpected w_NullFlagValue
  end.

Definition int8 : M Z :=
  d ← int32;
  if (d <? MinInt8) || (MaxInt8 <? d)
  then overflowError d t_int8;; mret 0
  else mret (to_signed 8 d).

Definition uint8 : M Z :=
  d ← uint32;
  if MaxUint8 <? d
  then overflowError d t_uint8;; mret 0
  else mret (to_unsigned 8 d).

Definition int16 : M Z :=
  d ← int32;
  if (d <? MinInt16) || (MaxInt16 <? d)
  then overflowError d t_int16;; mret 0
  else mret (to_signed 16 d).

Definition uint16 : M Z :=
  d ← uint32;
  if MaxUint16 <? d
  then overflowError d t_uint16;; mret 0
  else mret (to_unsigned 16 d).

Definition uint128 : M (list Z) :=
  c ← current;
  match item_v c with
  | None => errorf "TODO" [];; mret (replicate 16 0)
  | Some v =>
      lo ← low128;
      mret (BigEndianUint128 (Value_High_128 v) lo)
  end.

Definition typeIface (x : option isType_Type) : iface :=
  match x with
  | Some t => iface_type t
  | None => iface_nil
  end.

(** [assertTypeDecimal]: precision and scale of a decimal type, or nil
    after a type error; a nil [typ] is dereferenced. *)
Definition assertTypeDecimal (typ : option Type') : M (option (Z * Z)) :=
  match typ with
  | None => do_panic panic_nil_dereference
  | Some ty =>
      match Type_Type ty with
      | Some (Type_DecimalType pr scl) => mret (Some (pr, scl))
      | x => typeError (typeIface x) (iface_nil_of w_DecimalType);; mret None
      end
  end.

Definition zeroDecimal : gval := v_Decimal (replicate 16 0) 0 0.

Definition unwrapDecimal : M gval :=
  s ← get;
  match err s with
  | Some _ => mret zeroDecimal
  | None =>
      unwrap;;
      c ← current;
      d ← assertTypeDecimal (item_t c);
      match d with
      | None => mret zeroDecimal
      | Some (pr, scl) => b ← uint128; mret (v_Decimal b pr scl)
      end
  end.

(** [value]: [value.FromYDB] on the current item. *)
Definition value : M types_Value :=
  x ← current;
  match FromYDB (item_t x) (item_v x) with
  | Some r => mret r
  | None => do_panic (panic_external "FromYDB")
  end.

(** A time parsed from text: the error, if any, is recorded and the
    result used all the same. *)
Definition parsed (r : Time * option err_t) : M Time :=
  match r.2 with
  | Some e => errorf "scan row failed: %w" [ArgErr e];; mret r.1
  | None => mret r.1
  end.

(** [any] *)
Definition any : M (option gval) :=
  x ← current;
  s ← get;
  if not_nil (err s) || isEmpty x then mret None
  else
    n ← isNull;
    if n : bool then mret None
    else
      o ← isCurrentTypeOptional;
      x ← (if o : bool then unwrap;; current else mret x);
      match TypeFromYDB (item_t x) with
      | None => do_panic (panic_external "TypeFromYDB")
      | Some t =>
          match as_PrimitiveType t with
          | None => mret None
          | Some p =>
              match p with
              | TypeBool => b ← bool_; mret (Some (v_bool b))
              | TypeInt8 => d ← int8; mret (Some (v_int8 d))
              | TypeUint8 => d ← uint8; mret (Some (v_uint8 d))
              | TypeInt16 => d ← int16; mret (Some (v_int16 d))
              | TypeUint16 => d ← uint16; mret (Some (v_uint16 d))
              | TypeInt32 => d ← int32; mret (Some (v_int32 d))
              | TypeFloat => d ← float; mret (Some (v_float32 d))
              | TypeDouble => d ← double; mret (Some (v_float64 d))
              | TypeString => d ← bytes; mret (Some (v_bytes d))
              | TypeUUID => d ← uint128; mret (Some (bytes_val d))
              | TypeUint32 => d ← uint32; mret (Some (v_uint32 d))
              | TypeDate => d ← uint32; mret (Some (v_Time (UnmarshalDate d)))
              | TypeDatetime => d ← uint32; mret (Some (v_Time (UnmarshalDatetime d)))
              | TypeUint64 => d ← uint64; mret (Some (v_uint64 d))
              | TypeTimestamp => d ← uint64; mret (Some (v_Time (UnmarshalTimestamp d)))
              | TypeInt64 => d ← int64; mret (Some (v_int64 d))
              | TypeInterval => d ← int64; mret (Some (v_Duration (UnmarshalInterval d)))
              | TypeTzDate =>
                  d ← text; src ← parsed (UnmarshalTzDate d); mret (Some (v_Time src))
              | TypeTzDatetime =>
                  d ← text; src ← parsed (UnmarshalTzDatetime d); mret (Some (v_Time src))
              | TypeTzTimestamp =>
                  d ← text; src ← parsed (UnmarshalTzTimestamp d); mret (Some (v_Time src))
              | TypeUTF8 | TypeDyNumber => d ← text; mret (Some (v_string d))
              | TypeYSON | TypeJSON | TypeJSONDocument =>
                  d ← text; mret (Some (v_bytes (bytes_of_string d)))
              | TypeUnknown =>
                  errorf "ydb/table: unknown primitive types" [];; mret None
              end
          end
      end.

(** *** Writing through a destination pointer

    [setTime], [setString] and [setByte] assign [*dst] in every case
    but the default one; each is split into the value it computes
    ([None] when nothing is assigned) and the assignment. *)

Definition setTime_src : M (option Time) :=
  c ← current;
  let t := GetTypeId (item_t c) in
  match t with
  | Type_DATE => d ← uint32; mret (Some (UnmarshalDate d))
  | Type_DATETIME => d ← uint32; mret (Some (UnmarshalDatetime d))
  | Type_TIMESTAMP => d ← uint64; mret (Some (UnmarshalTimestamp d))
  | Type_TZ_DATE => d ← text; src ← parsed (UnmarshalTzDate d); mret (Some src)
  | Type_TZ_DATETIME => d ← text; src ← parsed (UnmarshalTzDatetime d); mret (Some src)
  | Type_TZ_TIMESTAMP => d ← text; src ← parsed (UnmarshalTzTimestamp d); mret (Some src)
  | _ => errorf "scan row failed: incorrect source types %s" [ArgVal (op_TypeId t)];;
         mret None
  end.

Definition setString_src : M (option string) :=
  c ← current;
  let t := GetTypeId (item_t c) in
  match t with
  | Type_UUID => src ← uint128; mret (Some (string_of_bytes src))
  | Type_UTF8 | Type_DYNUMBER | Type_YSON | Type_JSON | Type_JSON_DOCUMENT =>
      d ← text; mret (Some d)
  | Type_STRING => d ← bytes; mret (Some (string_of_bytes d))
  | _ => errorf "scan row failed: incorrect source types %s" [ArgVal (op_TypeId t)];;
         mret None
  end.

Definition setByte_src : M (option (list Z)) :=
  c ← current;
  let t := GetTypeId (item_t c) in
  match t with
  | Type_UUID => src ← uint128; mret (Some src)
  | Type_UTF8 | Type_DYNUMBER | Type_YSON | Type_JSON | Type_JSON_DOCUMENT =>
      d ← text; mret (Some (bytes_of_string d))
  | Type_STRING => d ← bytes; mret (Some d)
  | _ => errorf "scan row failed: incorrect source types %s" [ArgVal (op_TypeId t)];;
         mret None
  end.

Definition setTime (dst : option loc) : M unit :=
  r ← setTime_src;
  match r with Some x => store dst (v_Time x) | None => mret tt end.

Definition setString (dst : option loc) : M unit :=
  r ← setString_src;
  match r with Some x => store dst (v_string x) | None => mret tt end.

Definition setByte (dst : option loc) : M unit :=
  r ← setByte_src;
  match r with Some x => store dst (v_bytes x) | None => mret tt end.

(** *** The part of package reflect that [trySetByteArray] uses

    A [reflect.Value] is invalid, a variable in the store (addressable
    and settable), or a value that cannot be set. *)
Inductive rvalue :=
  | rv_invalid
  | rv_at (t : golang.type) (l : loc)
  | rv_val (t : golang.type) (x : gval).

Definition ValueOf (d : dest) : rvalue :=
  match d with
  | d_nil => rv_invalid
  | d_ptr t p => rv_val (t_ptr t) (v_ptr p)
  | d_val t x => rv_val t x
  | d_sqlScanner _ => rv_val (t_ptr (t_other 0)) (v_ptr None)
  | d_ydbScanner _ => rv_val (t_ptr (t_other 1)) (v_ptr None)
  end.

Definition rv_Kind (rv : rvalue) : Kind :=
  match rv with
  | rv_invalid => Invalid
  | rv_at t _ | rv_val t _ => kind t
  end.

Definition rv_Type (rv : rvalue) : golang.type :=
  match rv with
  | rv_invalid => t_other 0
  | rv_at t _ | rv_val t _ => t
  end.

Definition elem_type (t : golang.type) : golang.type :=
  default (t_other 0) (elem t).

(** The pointer a value of kind [Ptr] holds. *)
Definition rv_pointer (rv : rvalue) : M (option loc) :=
  match rv with
  | rv_invalid => mret None
  | rv_val _ x => mret (match x with v_ptr p => p | _ => None end)
  | rv_at _ l =>
      x ← load (Some l);
      mret (match x with v_ptr p => p | _ => None end)
  end.

(** [Elem] of a pointer: invalid when the pointer is nil. *)
Definition rv_Elem (rv : rvalue) : M rvalue :=
  p ← rv_pointer rv;
  mret (match p with
        | Some l => rv_at (elem_type (rv_Type rv)) l
        | None => rv_invalid
        end).

Definition rv_IsZero (rv : rvalue) : M bool :=
  p ← rv_pointer rv;
  mret (negb (not_nil p)).

Definition rv_Set (rv : rvalue) (x : gval) : M unit :=
  match rv with
  | rv_at _ l => store (Some l) x
  | _ => do_panic (panic_reflect "reflect.Value.Set using unaddressable value")
  end.

Definition type_is_uint8 (t : golang.type) : bool :=
  match t with t_uint8 => true | _ => false end.

(** [reflect.Copy] of a byte slice into an array: the array must be
    assignable and its element type must be [uint8] itself. *)
Definition rv_Copy (rv : rvalue) (src : list Z) : M unit :=
  match rv with
  | rv_at t l =>
      if type_is_uint8 (elem_type t)
      then store (Some l) (bytes_val (take (array_len t) src))
      else do_panic (panic_reflect "reflect.Copy: type mismatch")
  | _ => do_panic (panic_reflect "reflect.Copy using unaddressable value")
  end.

(** [trySetByteArray]; the pointer block either answers or goes on with
    the value the pointer leads to. *)
Definition trySetByteArray (v : dest) (optional def : bool) : M bool :=
  let rv := ValueOf v in
  rv ← (if Kind_eqb (rv_Kind rv) Ptr then rv_Elem rv else mret rv);
  r ← (if Kind_eqb (rv_Kind rv) Ptr then
         if negb optional then mret (inl false)
         else
           n ← isNull;
           if n : bool then
             rv_Set rv (zero zeroTime (rv_Type rv));; mret (inl true)
           else
             z ← rv_IsZero rv;
             (if z : bool then
                nv ← alloc (zero zeroTime (elem_type (rv_Type rv)));
                rv_Set rv (v_ptr (Some nv))
              else mret tt);;
             rv' ← rv_Elem rv;
             mret (inr rv')
       else mret (inr rv));
  match r with
  | inl answer => mret answer
  | inr rv =>
      if negb (Kind_eqb (rv_Kind rv) Array) then mret false
      else if negb (Kind_eqb (kind (elem_type (rv_Type rv))) Uint8) then mret false
      else if def then rv_Set rv (zero zeroTime (rv_Type rv));; mret true
      else
        r ← setByte_src;
        let dst := default [] r in
        if negb (array_len (rv_Type rv) =? length dst)%nat then mret false
        else rv_Copy rv dst;; mret true
  end.

(** *** Decoding one column *)

Definition sql_Scan (f : option gval -> option err_t) (src : option gval) : M unit :=
  match f src with
  | Some e => errorf "sql.Scanner error: %w" [ArgErr e]
  | None => mret tt
  end.

Definition ydb_UnmarshalYDB (f : scanner -> scanner * option err_t) : M unit :=
  s ← get;
  put (f s).1;;
  match (f s).2 with
  | Some e => errorf "ydb.Scanner error: %w" [ArgErr e]
  | None => mret tt
  end.

Definition scanRequired (value_ : dest) : M unit :=
  match value_ with
  | d_ptr t_bool v => x ← bool_; store v (v_bool x)
  | d_ptr t_int8 v => x ← int8; store v (v_int8 x)
  | d_ptr t_int16 v => x ← int16; store v (v_int16 x)
  | d_ptr t_int v => x ← int32; store v (v_int x)
  | d_ptr t_int32 v => x ← int32; store v (v_int32 x)
  | d_ptr t_int64 v => x ← int64; store v (v_int64 x)
  | d_ptr t_uint8 v => x ← uint8; store v (v_uint8 x)
  | d_ptr t_uint16 v => x ← uint16; store v (v_uint16 x)
  | d_ptr t_uint32 v => x ← uint32; store v (v_uint32 x)
  | d_ptr t_uint v => x ← uint32; store v (v_uint x)
  | d_ptr t_uint64 v => x ← uint64; store v (v_uint64 x)
  | d_ptr t_float32 v => x ← float; store v (v_float32 x)
  | d_ptr t_float64 v => x ← double; store v (v_float64 x)
  | d_ptr t_Time v => setTime v
  | d_ptr t_Duration v => x ← int64; store v (v_Duration (UnmarshalInterval x))
  | d_ptr t_string v => setString v
  | d_ptr t_bytes v => setByte v
  | d_ptr (t_array 16 t_uint8) v => x ← uint128; store v (bytes_val x)
  | d_ptr t_iface v => x ← any; store v (v_iface x)
  | d_sqlScanner f => x ← any; sql_Scan f x
  | d_ydbScanner f => ydb_UnmarshalYDB f
  | d_ptr t_Value v => x ← value; store v (v_Value (Some x))
  | d_ptr t_Decimal v => x ← unwrapDecimal; store v x
  | v =>
      ok ← trySetByteArray v false false;
      if ok : bool then mret tt
      else errorf "scan row failed: types %T is unknown" [ArgVal (op_dst (TypeOf v))]
  end.

Definition setDefaultValue (dst : dest) : M unit :=
  match dst with
  | d_ptr t_bool v => store v (v_bool false)
  | d_ptr t_int8 v => store v (v_int8 0)
  | d_ptr t_int16 v => store v (v_int16 0)
  | d_ptr t_int32 v => store v (v_int32 0)
  | d_ptr t_int64 v => store v (v_int64 0)
  | d_ptr t_uint8 v => store v (v_uint8 0)
  | d_ptr t_uint16 v => store v (v_uint16 0)
  | d_ptr t_uint32 v => store v (v_uint32 0)
  | d_ptr t_uint64 v => store v (v_uint64 0)
  | d_ptr t_float32 v => store v (v_float32 0)
  | d_ptr t_float64 v => store v (v_float64 0)
  | d_ptr t_Time v => store v (v_Time zeroTime)
  | d_ptr t_Duration v => store v (v_Duration 0)
  | d_ptr t_string v => store v (v_string "")
  | d_ptr t_bytes v => store v (v_bytes [])
  | d_ptr (t_array 16 t_uint8) v => store v (bytes_val (replicate 16 0))
  | d_ptr t_iface v => store v (v_iface None)
  | d_sqlScanner f => sql_Scan f None
  | d_ydbScanner f => ydb_UnmarshalYDB f
  | d_ptr t_Value v => x ← value; store v (v_Value (Some x))
  | d_ptr t_Decimal v => store v zeroDecimal
  | v =>
      ok ← trySetByteArray v false true;
      if ok : bool then mret tt
      else errorf "scan row failed: types %T is unknown" [ArgVal (op_dst (TypeOf v))]
  end.

(** One case of the double-pointer switch: [*v = nil] on a null cell,
    else [src := ...; *v = &src]. *)
Definition scanPointer (v : option loc) (read : M gval) : M unit :=
  n ← isNull;
  if n : bool then store v (v_ptr None)
  else
    src ← read;
    l ← alloc src;
    store v (v_ptr (Some l)).

(** The default case of the switch of [scanOptional]; [reflect.TypeOf]
    of a nil interface is nil, and its [Kind] a nil dereference. *)
Definition scanOptional_default (v : dest) : M unit :=
  unwrap;;
  ok ← trySetByteArray v true false;
  if ok : bool then mret tt
  else
    match TypeOf v with
    | None => do_panic panic_nil_dereference
    | Some rv =>
        if Kind_eqb (kind rv) Ptr && Kind_eqb (kind (elem_type rv)) Ptr
        then errorf "scan row failed: types %T is unknown" [ArgVal (op_dst (TypeOf v))]
        else errorf "scan row failed: types %T is not optional! use double pointer or sql.Scanner."
               [ArgVal (op_dst (TypeOf v))]
    end.

Definition scanOptional (value_ : dest) : M unit :=
  s ← get;
  if defaultValueForOptional s then
    n ← isNull;
    if n : bool then setDefaultValue value_
    else unwrap;; scanRequired value_
  else
    match value_ with
    | d_ptr (t_ptr t_bool) v => scanPointer v (x ← bool_; mret (v_bool x))
    | d_ptr (t_ptr t_int8) v => scanPointer v (x ← int8; mret (v_int8 x))
    | d_ptr (t_ptr t_int16) v => scanPointer v (x ← int16; mret (v_int16 x))
    | d_ptr (t_ptr t_int32) v => scanPointer v (x ← int32; mret (v_int32 x))
    | d_ptr (t_ptr t_int) v => scanPointer v (x ← int32; mret (v_int x))
    | d_ptr (t_ptr t_int64) v => scanPointer v (x ← int64; mret (v_int64 x))
    | d_ptr (t_ptr t_uint8) v => scanPointer v (x ← uint8; mret (v_uint8 x))
    | d_ptr (t_ptr t_uint16) v => scanPointer v (x ← uint16; mret (v_uint16 x))
    | d_ptr (t_ptr t_uint32) v => scanPointer v (x ← uint32; mret (v_uint32 x))
    | d_ptr (t_ptr t_uint) v => scanPointer v (x ← uint32; mret (v_uint x))
    | d_ptr (t_ptr t_uint64) v => scanPointer v (x ← uint64; mret (v_uint64 x))
    | d_ptr (t_ptr t_float32) v => scanPointer v (x ← float; mret (v_float32 x))
    | d_ptr (t_ptr t_float64) v => scanPointer v (x ← double; mret (v_float64 x))
    | d_ptr (t_ptr t_Time) v =>
        scanPointer v (unwrap;; r ← setTime_src; mret (v_Time (default zeroTime r)))
    | d_ptr (t_ptr t_Duration) v =>
        scanPointer v (x ← int64; mret (v_Duration (UnmarshalInterval x)))
    | d_ptr (t_ptr t_string) v =>
        scanPointer v (unwrap;; r ← setString_src; mret (v_string (default "" r)))
    | d_ptr (t_ptr t_bytes) v =>
        scanPointer v (unwrap;; r ← setByte_src; mret (v_bytes (default [] r)))
    | d_ptr (t_ptr (t_array 16 t_uint8)) v =>
        scanPointer v (x ← uint128; mret (bytes_val x))
    | d_ptr (t_ptr t_iface) v => scanPointer v (x ← any; mret (v_iface x))
    | d_sqlScanner f => x ← any; sql_Scan f x
    | d_ydbScanner f => ydb_UnmarshalYDB f
    | d_ptr t_Value v => x ← value; store v (v_Value (Some x))
    | d_ptr (t_ptr t_Decimal) v => scanPointer v unwrapDecimal
    | v => scanOptional_default v
    end.

(** *** Rows and the scan of a row *)

Definition ColumnCount (s : scanner) : Z :=
  match set s with
  | None => 0
  | Some r => len (Columns r)
  end.

Definition RowCount (s : scanner) : Z :=
  match set s with
  | None => 0
  | Some r => len (Rows r)
  end.

Definition ItemCount (s : scanner) : Z :=
  match row s with
  | None => 0
  | Some r => len (Value_Items r)
  end.

Definition HasNextRow (s : scanner) : bool :=
  negb (not_nil (err s)) &&
  match set s with
  | Some r => nextRow s <? len (Rows r)
  | None => false
  end.

Definition NextRow : M bool :=
  s ← get;
  if negb (HasNextRow s) then mret false
  else
    match set s with
    | None => do_panic panic_nil_dereference
    | Some r =>
        match index (Rows r) (nextRow s) with
        | None => do_panic panic_index_out_of_range
        | Some v =>
            put {| set := set s; row := Some v; stack := stack_reset (stack s);
                   nextRow := nextRow s + 1; nextItem := 0;
                   columnIndexes := columnIndexes s;
                   defaultValueForOptional := defaultValueForOptional s;
                   err := err s |};;
            mret true
        end
    end.

Definition Err (s : scanner) : option err_t := err s.

Definition Truncated : M bool :=
  s ← get;
  match set s with
  | None => errorf "there are no sets in the scanner" [];; mret false
  | Some r => mret (Ydb.Truncated r)
  end.

Definition hasItems (s : scanner) : bool :=
  negb (not_nil (err s)) && not_nil (set s) && not_nil (row s).

Definition set_scanItem_name (n : string) (s : scanner) : scanner :=
  let k := stack s in
  let x := scanItem k in
  with_stack (with_scanItem {| item_name := n; item_i := item_i x;
                               item_t := item_t x; item_v := item_v x |} k) s.

Definition seekItemByID (id : Z) : M unit :=
  s ← get;
  if negb (hasItems s) ||
     match set s with Some r => len (Columns r) <=? id | None => true end
  then noValueError
  else
    match set s, row s with
    | Some r, Some rw =>
        match index (Columns r) id with
        | None => do_panic panic_index_out_of_range
        | Some col =>
            modify (set_scanItem_name (Name col));;
            modify (set_scanItem_t (Column_Type col));;
            match index (Value_Items rw) id with
            | None => do_panic panic_index_out_of_range
            | Some v => modify (set_scanItem_v (Some v))
            end
        end
    | _, _ => do_panic panic_nil_dereference
    end.

(** The inner loop of [setColumnIndexes]: the first column of that
    name, counting from [j]. *)
Fixpoint find_column (cols : list Column) (col : string) (j : Z) : option Z :=
  match cols with
  | [] => None
  | c :: rest => if String.eqb (Name c) col then Some j else find_column rest col (j + 1)
  end.

Fixpoint setColumnIndexes_loop (columns : list string) (i : nat) : M unit :=
  match columns with
  | [] => mret tt
  | col :: rest =>
      s ← get;
      match set s with
      | None => do_panic panic_nil_dereference
      | Some r =>
          match find_column (Columns r) col 0 with
          | Some j =>
              modify (fun s => with_columnIndexes
                                 (Some (<[i := j]> (default [] (columnIndexes s)))) s);;
              setColumnIndexes_loop rest (S i)
          | None => noColumnError col
          end
      end
  end.

Definition setColumnIndexes (columns : option (list string)) : M unit :=
  match columns with
  | None => modify (with_columnIndexes None)
  | Some cs =>
      modify (with_columnIndexes (Some (replicate (length cs) 0)));;
      setColumnIndexes_loop cs 0
  end.

(** [reset]; the recorded error is not among the fields it clears. *)
Definition reset (rs : option ResultSet) (columnNames : option (list string)) : M unit :=
  modify (fun s =>
    {| set := rs; row := None; stack := stack s; nextRow := 0; nextItem := 0;
       columnIndexes := None; defaultValueForOptional := true; err := err s |});;
  setColumnIndexes columnNames;;
  modify (fun s => with_stack (stack_reset (stack s)) s).

(** The [for] loop of [scan] from index [i] on; [true] when it returned
    from inside. *)
Fixpoint scan_loop (i : Z) (values : list dest) : M bool :=
  match values with
  | [] => mret false
  | value_ :: rest =>
      s ← get;
      match columnIndexes s with
      | None => seekItemByID i
      | Some ci =>
          match index ci i with
          | Some id => seekItemByID id
          | None => do_panic panic_index_out_of_range
          end
      end;;
      s ← get;
      if not_nil (err s) then mret true
      else
        o ← isCurrentTypeOptional;
        (if o : bool then scanOptional value_ else scanRequired value_);;
        scan_loop (i + 1) rest
  end.

Definition return_err : M (option err_t) :=
  s ← get; mret (err s).

Definition scan (values : list dest) : M (option err_t) :=
  s ← get;
  if not_nil (err s) then return_err
  else if match columnIndexes s with
          | Some ci => negb (len ci =? len values)
          | None => false
          end
  then errorf "scan row failed: count of values and column are different" [];;
       return_err
  else if ColumnCount s <? len values
  then errorf "scan row failed: count of columns less then values" [];;
       return_err
  else if negb (nextItem s =? 0)
  then do_panic (panic_string "scan row failed: double scan per row")
  else
    returned ← scan_loop 0 values;
    if returned : bool then return_err
    else
      modify (fun s => with_nextItem (nextItem s + len values) s);;
      return_err.

Definition ScanWithDefaults (values : list dest) : M (option err_t) :=
  modify (with_defaultValueForOptional true);;
  scan values.

Definition Scan (values : list dest) : M (option err_t) :=
  modify (with_defaultValueForOptional false);;
  scan values.

(** A scanner as [reset] leaves a fresh one. *)
Definition emptyStack : scanStack :=
  {| stack_v := []; stack_p := 0; scanItem := emptyItem |}.

Definition new_scanner (rs : ResultSet) : scanner :=
  {| set := Some rs; row := None; stack := emptyStack; nextRow := 0;
     nextItem := 0; columnIndexes := None; defaultValueForOptional := true;
     err := None |}.

End with_externals.

Arguments Ret {X A} a st.
Arguments Panic {X A} why st.

End scanner.

(** ** The retry engine

    [Do] is not among the sources (only its test is); it is modelled from
    the specification. *)

Module table.
Section retry.

Context {E : Type}.
Definition err : Type := error E.

Inductive backoff_kind := backoff_none | backoff_fast | backoff_slow.

Record policy := {
  mustPessimize : bool;
  mustCloseSession : bool;
  backoff : backoff_kind;
  retry : bool;
  completion_undefined : bool
}.

Definition no_retry (pessimize close : bool) : policy :=
  {| mustPessimize := pessimize; mustCloseSession := close;
     backoff := backoff_none; retry := false; completion_undefined := false |}.

(** Modelled from the spec: the classifier of the retry package, which
    is not among the sources; the rows of the table of section 4.A for
    transport errors. Completion is taken as undefined for the codes
    either sentence of the section names. A code the table does not
    list is not retried. *)
Definition classify_transport (c : TransportErrorCode) : policy :=
  match c with
  | TransportErrorCanceled | TransportErrorUnknown | TransportErrorInternal
  | TransportErrorUnavailable =>
      {| mustPessimize := true; mustCloseSession := true; backoff := backoff_fast;
         retry := true; completion_undefined := true |}
  | TransportErrorResourceExhausted =>
      {| mustPessimize := false; mustCloseSession := false; backoff := backoff_slow;
         retry := true; completion_undefined := false |}
  | TransportErrorOutOfRange => no_retry true false
  | TransportErrorInvalidArgument | TransportErrorNotFound
  | TransportErrorAlreadyExists | TransportErrorPermissionDenied
  | TransportErrorFailedPrecondition | TransportErrorUnimplemented
  | TransportErrorDataLoss | TransportErrorUnauthenticated
  | TransportErrorDeadlineExceeded | TransportErrorAborted => no_retry true true
  | TransportErrorUnknownCode => no_retry false false
  end.

(** Modelled from the spec: the rows of the same table for operation
    errors. *)
Definition classify_op (s : StatusCode) : policy :=
  match s with
  | StatusBadSession | StatusSessionExpired =>
      {| mustPessimize := false; mustCloseSession := true; backoff := backoff_none;
         retry := true; completion_undefined := false |}
  | StatusOverloaded =>
      {| mustPessimize := false; mustCloseSession := false; backoff := backoff_slow;
         retry := true; completion_undefined := false |}
  | StatusAborted | StatusUndetermined | StatusUnavailable =>
      {| mustPessimize := false; mustCloseSession := false; backoff := backoff_fast;
         retry := true; completion_undefined := false |}
  | StatusSessionBusy =>
      {| mustPessimize := false; mustCloseSession := true; backoff := backoff_fast;
         retry := true; completion_undefined := false |}
  | _ => no_retry false false
  end.

(** Modelled from the spec: "normalizes every error into a pair
    (category, policy)"; the transport or operation error is looked for
    along the unwrap chain, as [retry_test.go] expects of wrapped
    errors, and any other error is not retried. *)
Fixpoint classify (e : err) : policy :=
  match e with
  | NewTransportError c => classify_transport c
  | NewOpError s => classify_op s
  | Errorf f args =>
      match wrap_verb_index f 0 with
      | Some i =>
          (fix operand (l : list (fmtarg E)) (i : nat) {struct l} : policy :=
             match l, i with
             | ArgErr inner :: _, O => classify inner
             | _ :: rest, S j => operand rest j
             | _, _ => no_retry false false
             end) args i
      | None => no_retry false false
      end
  | _ => no_retry false false
  end.

Definition retriable (e : err) : bool := retry (classify e).

(** What [Do] meets outside itself: the context when [Do] is entered
    and during each wait, the pool's answer to each [Get], and the
    operation (which may look at the attempt it is run in). *)
Definition Session := nat.

Record world := {
  ctx_err_at_entry : option err;
  ctx_err_during_wait : nat -> option err;
  pool_Get : nat -> Session + err;
  op : nat -> Session -> option err
}.

Inductive event :=
  | ev_Get
  | ev_op (s : Session)
  | ev_Put (s : Session) (bad : bool)
  | ev_backoff (k : backoff_kind) (attempt : nat).

Definition is_op (e : event) : bool :=
  match e with ev_op _ => true | _ => false end.
Definition is_backoff (e : event) : bool :=
  match e with ev_backoff _ _ => true | _ => false end.

(** Modelled from the spec: steps 2 to 7 of the algorithm of section
    4.J. The loop has no bound of its own, so it runs on fuel; [None]
    is fuel run out. The answer is the error returned and the events in
    order. *)
Fixpoint Do_loop (w : world) (idempotent : bool) (fuel attempt : nat)
    (tr : list event) : option (option err * list event) :=
  match fuel with
  | O => None
  | S fuel' =>
      let after (tr : list event) (e : err) :=
        let p := classify e in
        if negb (retry p) || (negb idempotent && completion_undefined p)
        then Some (Some e, tr)
        else
          let attempt' := S attempt in
          let tr := tr ++ [ev_backoff (backoff p) attempt'] in
          match ctx_err_during_wait w attempt' with
          | Some c => Some (Some (Errorf "retry: %w" [ArgErr c]), tr)
          | None => Do_loop w idempotent fuel' attempt' tr
          end in
      match pool_Get w attempt with
      | inr e =>
          if retry (classify e) then after (tr ++ [ev_Get]) e
          else Some (Some e, tr ++ [ev_Get])
      | inl s =>
          match op w attempt s with
          | None => Some (None, tr ++ [ev_Get; ev_op s; ev_Put s false])
          | Some e =>
              after (tr ++ [ev_Get; ev_op s;
                            ev_Put s (mustCloseSession (classify e))]) e
          end
      end
  end.

(** Modelled from the spec: [Do], step 1 first. *)
Definition Do (w : world) (idempotent : bool) (fuel : nat)
  : option (option err * list event) :=
  match ctx_err_at_entry w with
  | Some c => Some (Some c, [])
  | None => Do_loop w idempotent fuel 0 []
  end.

End retry.
End table.

(** ** package state: internal/driver/cluster/balancer/state/state.go *)

Module state.
#[local] Open Scope Z_scope.

(** [State] is an [int8]; the constants count from [iota]. *)
Definition State := Z.

Definition Created : State := 0.
Definition Online : State := 1.
Definition Banned : State := 2.
Definition Offline : State := 3.
Definition Destroyed : State := 4.

Definition Code (s : State) : Z := s.

Definition String (s : State) : string :=
  if s =? Created then "created"
  else if s =? Online then "online"
  else if s =? Banned then "banned"
  else if s =? Offline then "offline"
  else if s =? Destroyed then "destroyed"
  else "unknown".

Definition IsValid (s : State) : bool :=
  (s =? Online) || (s =? Banned) || (s =? Offline).

End state.

(** ** Helpers to run the scanner on examples *)

Module example.
Import Ydb golang scanner.
#[local] Open Scope Z_scope.

Definition primitive_of (id : Type_PrimitiveTypeId) : PrimitiveType :=
  match id with
  | Type_PRIMITIVE_TYPE_ID_UNSPECIFIED => TypeUnknown
  | Type_BOOL => TypeBool | Type_INT8 => TypeInt8 | Type_UINT8 => TypeUint8
  | Type_INT16 => TypeInt16 | Type_UINT16 => TypeUint16
  | Type_INT32 => TypeInt32 | Type_UINT32 => TypeUint32
  | Type_INT64 => TypeInt64 | Type_UINT64 => TypeUint64
  | Type_FLOAT => TypeFloat | Type_DOUBLE => TypeDouble
  | Type_DATE => TypeDate | Type_DATETIME => TypeDatetime
  | Type_TIMESTAMP => TypeTimestamp | Type_INTERVAL => TypeInterval
  | Type_TZ_DATE => TypeTzDate | Type_TZ_DATETIME => TypeTzDatetime
  | Type_TZ_TIMESTAMP => TypeTzTimestamp
  | Type_STRING => TypeString | Type_UTF8 => TypeUTF8 | Type_YSON => TypeYSON
  | Type_JSON => TypeJSON | Type_UUID => TypeUUID
  | Type_JSON_DOCUMENT => TypeJSONDocument | Type_DYNUMBER => TypeDyNumber
  end.

(** Modelled from the spec: the helpers of [internal/timeutil] and
    [internal/value], which are not among the sources. A time is its
    distance from the epoch in microseconds ("Date/Datetime to epoch
    days/seconds; Timestamp to epoch microseconds; Interval to signed
    microseconds"), the zero time is the first instant of year one, a
    duration counts nanoseconds. Types and values are kept as they come
    off the wire. The textual forms with a time zone are not parsed:
    they are answered with an error. *)
Definition helpers : Externals := {|
  Time := Z;
  zeroTime := -62135596800000000;
  types_Type := Type';
  types_Value := option Type' * option Value;
  TypeFromYDB := fun t => t;
  as_PrimitiveType := fun t =>
    match Type_Type t with
    | Some (Type_TypeId id) => Some (primitive_of id)
    | _ => None
    end;
  FromYDB := fun t v => Some (t, v);
  nameIface := fun x =>
    match x with
    | iface_nil => "nil"
    | iface_value _ => "value"
    | iface_type _ => "type"
    | iface_nil_of _ => "want"
    end;
  UnmarshalDate := fun d => d * 86400000000;
  UnmarshalDatetime := fun d => d * 1000000;
  UnmarshalTimestamp := fun d => d;
  UnmarshalInterval := fun d => d * 1000;
  UnmarshalTzDate := fun _ => (0, Some (ErrorsNew "time zone forms are not parsed"));
  UnmarshalTzDatetime := fun _ => (0, Some (ErrorsNew "time zone forms are not parsed"));
  UnmarshalTzTimestamp := fun _ => (0, Some (ErrorsNew "time zone forms are not parsed"))
|}.

Definition primitive (id : Type_PrimitiveTypeId) : Type' :=
  mkType (Some (Type_TypeId id)).

Definition Optional (t : Type') : Type' :=
  mkType (Some (Type_OptionalType (Some t))).

(** A cell holding one oneof, and a row of cells. *)
Definition cell (x : isValue_Value) : Value := mkValue (Some x) [] 0.
Definition row_of (cells : list Value) : Value := mkValue None cells 0.

(** A result set of one column [c] of type [t], one cell per row. *)
Definition one_column (t : Type') (cells : list Value) : ResultSet :=
  {| Columns := [{| Name := "c"; Column_Type := Some t |}];
     Rows := (fun c => row_of [c]) <$> cells;
     Ydb.Truncated := false |}.

(** A result set of two Int32 columns "a" and "b" with the one row
    [x], [y]. *)
Definition two_columns (x y : Z) : ResultSet :=
  {| Columns := [{| Name := "a"; Column_Type := Some (primitive Type_INT32) |};
                 {| Name := "b"; Column_Type := Some (primitive Type_INT32) |}];
     Rows := [row_of [cell (Value_Int32Value x); cell (Value_Int32Value y)]];
     Ydb.Truncated := false |}.

End example.

(** ** Sequences of calls on a scanner and what is seen of them *)

Module session.
Import Ydb golang scanner example.
Section with_externals.
Context `{X : Externals}.

(** What a run answered, the error [Err] then reports and the store it
    left; nothing of a run that panicked. *)
Definition view {A} (o : outcome A) : option (A * option err_t * list gval) :=
  match o with
  | Ret a st => Some (a, Err (sc st), mem st)
  | Panic _ _ => None
  end.

(** The calls made on a scanner from outside, and their answers. *)
Inductive call :=
  | call_NextRow
  | call_Scan (values : list dest)
  | call_ScanWithDefaults (values : list dest)
  | call_errorf (f : string) (args : list (fmtarg (operand types_Type))).

Inductive answer :=
  | ans_bool (b : bool)
  | ans_err (e : option err_t)
  | ans_unit.

Definition do_call (c : call) : M answer :=
  match c with
  | call_NextRow => b ← NextRow; mret (ans_bool b)
  | call_Scan values => e ← Scan values; mret (ans_err e)
  | call_ScanWithDefaults values => e ← ScanWithDefaults values; mret (ans_err e)
  | call_errorf f args => errorf f args;; mret ans_unit
  end.

Fixpoint do_calls (cs : list call) : M (list answer) :=
  match cs with
  | [] => mret []
  | c :: rest => a ← do_call c; more ← do_calls rest; mret (a :: more)
  end.

(** The answer of each call once the error [e] is recorded. *)
Definition short_circuit (e : err_t) (c : call) : answer :=
  match c with
  | call_NextRow => ans_bool false
  | call_Scan _ | call_ScanWithDefaults _ => ans_err (Some e)
  | call_errorf _ _ => ans_unit
  end.

(** The scanner up to the flag that [Scan] and [ScanWithDefaults] set
    before anything else. *)
Definition same_but_flag (s s' : scanner) : Prop :=
  s' = with_defaultValueForOptional (defaultValueForOptional s') s.

(** What is seen of the variable at location 0: its value, or for a
    pointer what it points to. *)
Inductive seen :=
  | seen_nothing
  | seen_nil
  | seen_pointee (x : gval)
  | seen_value (x : gval).

Definition look (h : list gval) : seen :=
  match h !! 0%nat with
  | Some (v_ptr None) => seen_nil
  | Some (v_ptr (Some l)) =>
      match h !! l with
      | Some x => seen_pointee x
      | None => seen_nothing
      end
  | Some x => seen_value x
  | None => seen_nothing
  end.

(** [for i := 0; i < n; i++ { more := NextRow(); err := scan_(&x) }],
    keeping for each round the two answers, [Err()] and the variable. *)
Fixpoint each_row (scan_ : M (option err_t)) (n : nat)
  : M (list (bool * option err_t * option err_t * seen)) :=
  match n with
  | O => mret []
  | S n' =>
      more ← NextRow;
      e ← scan_;
      now ← (fun st => Ret (Err (sc st), look (mem st)) st);
      rest ← each_row scan_ n';
      mret ((more, e, now.1, now.2) :: rest)
  end.

(** One row of one cell [c], in a column of primitive type [id],
    scanned into a variable of type [t] that held [x0]. *)
Definition scan_cell (id : Type_PrimitiveTypeId) (c : isValue_Value)
    (t : golang.type) (x0 : gval) :=
  view ((NextRow;; Scan [d_ptr t (Some 0%nat)])
          {| sc := new_scanner (one_column (primitive id) [cell c]); mem := [x0] |}).

(** The error [overflowError] records for the wire number [d] and a
    destination of type [t]. *)
Definition overflow_of (d : Z) (t : golang.type) : err_t :=
  Errorf "overflow error: %d overflows capacity of %t"
    [ArgVal (op_int d); ArgVal (op_zero t)].

(** The destination types the double-pointer switch of [scanOptional]
    names, as pointee types. *)
Definition named_pointee (t : golang.type) : bool :=
  match t with
  | t_bool | t_int8 | t_int16 | t_int32 | t_int | t_int64
  | t_uint8 | t_uint16 | t_uint32 | t_uint | t_uint64
  | t_float32 | t_float64 | t_Time | t_Duration | t_string | t_bytes
  | t_iface | t_Decimal => true
  | t_array 16 t_uint8 => true
  | _ => false
  end.

(** The primitive Go types of the list in the comment of [Scan]. *)
Definition primitive_type (t : golang.type) : bool :=
  match t with
  | t_bool | t_int8 | t_int16 | t_int32 | t_int | t_int64
  | t_uint8 | t_uint16 | t_uint32 | t_uint | t_uint64
  | t_float32 | t_float64 | t_Time | t_Duration | t_string | t_bytes => true
  | _ => false
  end.

(** The scanner stands on a cell [c] of a column of type
    Optional<[inner]>, as [seekItemByID] leaves it. *)
Definition on_optional_cell (s : scanner) (inner : option Type') (c : Value) : Prop :=
  item_t (scanItem (stack s)) = Some (mkType (Some (Type_OptionalType inner))) /\
  item_v (scanItem (stack s)) = Some c.

(** A destination that is not a [types.Scanner]: nothing of the user's
    reaches the scanner through it. *)
Definition no_converter (d : dest) : bool :=
  match d with d_ydbScanner _ => false | _ => true end.

(** What decoding a column leaves alone in the scanner: the count of
    values consumed, the selected columns and the result set. *)
Definition frame (s s' : scanner) : Prop :=
  nextItem s' = nextItem s /\ columnIndexes s' = columnIndexes s /\ set s' = set s.

Definition keeps {A} (m : M A) : Prop :=
  forall st, match m st with
             | Ret _ st' | Panic _ st' => frame (sc st) (sc st')
             end.

(** [for res.NextRow() { n++ }], on fuel: the rows visited. *)
Fixpoint visit_rows (fuel : nat) : M nat :=
  match fuel with
  | O => mret O
  | S fuel' =>
      more ← NextRow;
      if more : bool then n ← visit_rows fuel'; mret (S n) else mret O
  end.

(** The scanner stands on a cell [c] of a column of type [ty]. *)
Definition on_cell (s : scanner) (ty : option Type') (c : Value) : Prop :=
  item_t (scanItem (stack s)) = ty /\ item_v (scanItem (stack s)) = Some c.

(** The destination types whose reader takes the wire value as it is,
    and what each makes of a oneof: [None] when the oneof is of another
    kind than the reader asserts. *)
Definition direct (t : golang.type) : bool :=
  match t with
  | t_bool | t_int32 | t_int | t_int64 | t_uint32 | t_uint | t_uint64
  | t_float32 | t_float64 => true
  | _ => false
  end.

Definition decode (t : golang.type) (x : option isValue_Value) : option gval :=
  match t, x with
  | t_bool, Some (Value_BoolValue b) => Some (v_bool b)
  | t_int32, Some (Value_Int32Value d) => Some (v_int32 d)
  | t_int, Some (Value_Int32Value d) => Some (v_int d)
  | t_int64, Some (Value_Int64Value d) => Some (v_int64 d)
  | t_uint32, Some (Value_Uint32Value d) => Some (v_uint32 d)
  | t_uint, Some (Value_Uint32Value d) => Some (v_uint d)
  | t_uint64, Some (Value_Uint64Value d) => Some (v_uint64 d)
  | t_float32, Some (Value_FloatValue d) => Some (v_float32 d)
  | t_float64, Some (Value_DoubleValue d) => Some (v_float64 d)
  | _, _ => None
  end.

(** The wrapper the reader of a direct type asserts. *)
Definition wrapper_of (t : golang.type) : wrapper :=
  match t with
  | t_bool => w_BoolValue
  | t_int32 | t_int => w_Int32Value
  | t_int64 => w_Int64Value
  | t_uint32 | t_uint => w_Uint32Value
  | t_uint64 => w_Uint64Value
  | t_float32 => w_FloatValue
  | _ => w_DoubleValue
  end.

(** The error [valueTypeError] records on the item [x] for a reader that
    asserts [w], when [TypeFromYDB] makes [ty] of the item's type. *)
Definition unexpected_value (x : item) (ty : types_Type) (w : wrapper) : err_t :=
  Errorf "unexpected value during scan at %q %s: %s; want %s"
    [ArgStr (item_name x); ArgVal (op_Type (Some ty));
     ArgStr (nameIface (to_iface (match item_v x with
                                  | Some v => Value_Value v
                                  | None => None
                                  end)));
     ArgStr (nameIface (iface_nil_of w))].

(** The destination types the switch of [setDefaultValue] names with a
    zero value to assign. *)
Definition default_named (t : golang.type) : bool :=
  match t with
  | t_bool | t_int8 | t_int16 | t_int32 | t_int64
  | t_uint8 | t_uint16 | t_uint32 | t_uint64
  | t_float32 | t_float64 | t_Time | t_Duration | t_string | t_bytes
  | t_iface | t_Decimal => true
  | t_array 16 t_uint8 => true
  | _ => false
  end.

(** The error of the default case of [scanRequired] and
    [setDefaultValue] for a destination of type [*t]. *)
Definition unknown_type (t : golang.type) : err_t :=
  Errorf "scan row failed: types %T is unknown" [ArgVal (op_dst (Some (t_ptr t)))].

(** A scanner with no error that stands on the cell [c] of a column
    named "c" of type [ty], in the mode [defaults]. *)
Definition standing_on (ty : option Type') (c : Value) (defaults : bool) : scanner :=
  {| set := None; row := None;
     stack := {| stack_v := []; stack_p := 0;
                 scanItem := {| item_name := "c"; item_i := 0;
                                item_t := ty; item_v := Some c |} |};
     nextRow := 0; nextItem := 0; columnIndexes := None;
     defaultValueForOptional := defaults; err := None |}.

(** A scanner in [Scan] mode on the first row of [rs], nothing of the
    row consumed, with the columns [ci] selected. *)
Definition on_first_row (rs : ResultSet) (ci : option (list Z)) : scanner :=
  {| set := Some rs; row := head (Rows rs); stack := emptyStack; nextRow := 1;
     nextItem := 0; columnIndexes := ci; defaultValueForOptional := false;
     err := None |}.

(** The count checks of [scan] pass. *)
Definition counts_fit (s : scanner) (values : list dest) : Prop :=
  match columnIndexes s with
  | Some ci => len ci = len values
  | None => True
  end /\ (len values <= ColumnCount s)%Z.

End with_externals.
End session.

(** * Properties *)

(** ** Context endpoint *)

Section cluster_facts.
Import cluster.

Lemma Value_WithEndpoint ctx e :
  Value (WithEndpoint ctx e) ctxEndpointKey = to_any e.
Proof. reflexivity. Qed.

Lemma ContextEndpoint_nil ctx :
  ContextEndpoint (WithEndpoint ctx None) = (None, false).
Proof. reflexivity. Qed.

Lemma ContextEndpoint_never_attached ctx :
  never_attached ctx = true -> ContextEndpoint ctx = (None, false).
Proof.
  unfold ContextEndpoint.
  induction ctx as [|parent IH k v|parent IH]; simpl; intros Hn.
  - reflexivity.
  - apply andb_prop in Hn as [Hk Hp].
    destruct k as [|id]; simpl in *.
    + destruct v; simpl in *; try reflexivity; discriminate.
    + auto.
  - auto.
Qed.

(** C8: an endpoint attached with [WithEndpoint] is read back by
    [ContextEndpoint] with [ok = true], whatever the context it was
    attached to; on a context to which no endpoint was attached,
    [ContextEndpoint] answers [(nil, false)]. *)
Theorem ContextEndpoint_round_trip :
  (forall (ctx : Context) (e : endpoint),
      ContextEndpoint (WithEndpoint ctx (Some e)) = (Some e, true)) /\
  (forall ctx : Context,
      never_attached ctx = true -> ContextEndpoint ctx = (None, false)).
Proof.
  split.
  - intros ctx e. reflexivity.
  - apply ContextEndpoint_never_attached.
Qed.

Lemma ContextEndpoint_round_trip_witness :
  ContextEndpoint (WithEndpoint (Derived Background) (Some {| Address := "ydb-1:2135" |}))
    = (Some {| Address := "ydb-1:2135" |}, true) /\
  never_attached (Derived (WithValue Background (otherKey 7) (anyOther 1))) = true /\
  ContextEndpoint (Derived (WithValue Background (otherKey 7) (anyOther 1)))
    = (None, false).
Proof.
  destruct ContextEndpoint_round_trip as [Hset Hunset].
  split; [apply Hset|].
  split; [reflexivity|].
  apply Hunset. reflexivity.
Defined.

End cluster_facts.

(** ** Lazy coordination client *)

Section ydb_facts.
Import ydb.
Context {DB E : Type}.

Lemma Close_clears (c : @lazyCoordination DB E) ctx :
  client (Close c ctx).1.2 = None.
Proof. unfold Close. destruct c as [d [cl|]]; reflexivity. Qed.

Lemma Close_uninitialised (c : @lazyCoordination DB E) ctx :
  client c = None -> Close c ctx = (None, c, []).
Proof. unfold Close. intros ->. reflexivity. Qed.

(** C7: [Close] is idempotent. A [Close] that follows a [Close] answers
    nil, leaves the state as it is and makes no call on the underlying
    client; so does a first [Close] on a client that was never
    initialised. *)
Theorem lazyCoordination_Close_idempotent :
  (forall (c : @lazyCoordination DB E) (ctx1 ctx2 : cluster.Context),
      let closed := (Close c ctx1).1.2 in
      Close closed ctx2 = (None, closed, [])) /\
  (forall (d : DB) (ctx : cluster.Context),
      Close {| db := d; client := @None (@Client E) |} ctx
        = (None, {| db := d; client := None |}, [])).
Proof.
  split.
  - intros c ctx1 ctx2 closed.
    apply Close_uninitialised. apply Close_clears.
  - intros d ctx. reflexivity.
Qed.

(** The first [Close] of an initialised client does reach it, once. *)
Lemma Close_initialised (d : DB) (cl : @Client E) ctx :
  Close {| db := d; client := Some cl |} ctx
    = (client_Close cl ctx, {| db := d; client := None |},
       [CallClose (client_id cl) ctx]).
Proof. reflexivity. Qed.

End ydb_facts.

(** ** Credentials chain *)

Section credentials_facts.
Import credentials.
Context {E : Type}.
Implicit Types (c : @Credentials E) (cs pre post : list (@Credentials E)).

Lemma Token_multi cs ctx :
  Token (multiCredentials cs) ctx = (multi_Token cs ctx).1.
Proof.
  unfold multi_Token. simpl.
  destruct (Token_loop _ cs "" None []) as [[token err] log]. reflexivity.
Qed.

Lemma last_cons_default {A} (l : list A) : forall x d,
  List.last (x :: l) d = List.last l x.
Proof.
  induction l as [|y l IH]; intros x d; [reflexivity|].
  change (List.last (x :: y :: l) d) with (List.last (y :: l) d).
  rewrite !IH. reflexivity.
Qed.

(** Providers that fail are passed over: the loop goes on with the
    results of the last of them. *)
Lemma Token_loop_failed ctx pre : forall rest token err log,
  Forall (fails ctx) pre ->
  Token_loop (fun c => Token c ctx) (pre ++ rest) token err log =
  Token_loop (fun c => Token c ctx) rest
    (List.last ((fun c => (Token c ctx).1) <$> pre) token)
    (List.last ((fun c => (Token c ctx).2) <$> pre) err)
    (log ++ pre).
Proof.
  induction pre as [|c pre IH]; intros rest token err log Hf.
  - simpl. rewrite app_nil_r. reflexivity.
  - apply Forall_cons in Hf as [Hc Hpre].
    unfold fails in Hc.
    rewrite !fmap_cons, !last_cons_default.
    cbn [app Token_loop].
    destruct (Token c ctx) as [token' err'] eqn:Hr. simpl in Hc.
    destruct err' as [e|]; [|congruence].
    rewrite IH by assumption.
    rewrite <- app_assoc. reflexivity.
Qed.

Lemma last_failed ctx pre c token e (token0 : string) (err0 : option (error E)) :
  Token c ctx = (token, Some e) ->
  List.last ((fun c => (Token c ctx).2) <$> (pre ++ [c])) err0 = Some e /\
  List.last ((fun c => (Token c ctx).1) <$> (pre ++ [c])) token0 = token.
Proof.
  intros Hr. rewrite !fmap_app. simpl. rewrite Hr. simpl.
  rewrite !last_last. split; reflexivity.
Qed.

(** The token and error the loop ends with, whatever the log. *)
Lemma Token_loop_log (tok : Credentials -> string * option (error E)) xs :
  forall token err log log',
    (Token_loop tok xs token err log).1 = (Token_loop tok xs token err log').1.
Proof.
  induction xs as [|x xs IH]; intros token err log log'; cbn [Token_loop].
  - destruct err; reflexivity.
  - destruct (tok x) as [t' [e'|]]; [apply IH|reflexivity].
Qed.

Lemma Token_loop_app (tok : Credentials -> string * option (error E)) xs ys :
  xs <> [] ->
  forall token err,
    (Token_loop tok (xs ++ ys) token err []).1 =
    match (Token_loop tok xs token err []).1 with
    | (t', None) => (t', None)
    | (t', Some e') => (Token_loop tok ys t' (Some e') []).1
    end.
Proof.
  induction xs as [|x xs IH]; intros Hne token err; [congruence|].
  cbn [app Token_loop].
  destruct (tok x) as [t' [e'|]]; [|reflexivity].
  destruct xs as [|x' xs].
  - cbn [app Token_loop]. apply Token_loop_log.
  - rewrite (Token_loop_log tok ((x' :: xs) ++ ys) t' (Some e') _ []).
    rewrite (Token_loop_log tok (x' :: xs) t' (Some e') _ []).
    apply IH. discriminate.
Qed.

Lemma Token_loop_start (tok : Credentials -> string * option (error E)) xs :
  xs <> [] ->
  forall token err token' err',
    (Token_loop tok xs token err []).1 = (Token_loop tok xs token' err' []).1.
Proof.
  destruct xs as [|x xs]; intros Hne token err token' err'; [congruence|].
  cbn [Token_loop]. destruct (tok x) as [t' [e'|]]; reflexivity.
Qed.

Lemma flatten_app (xs ys : list (@Credentials E)) :
  flatten (xs ++ ys) = flatten xs ++ flatten ys.
Proof.
  induction xs as [|x xs IH]; [reflexivity|].
  destruct x; cbn [app flatten]; rewrite IH; [reflexivity..|].
  rewrite app_assoc. reflexivity.
Qed.

(** Spliced in or not, arguments that fail are passed over: what
    follows them is asked as if it stood first. *)
Lemma Token_loop_flatten_failed ctx pre :
  Forall (fails ctx) pre ->
  forall rest, rest <> [] ->
  forall token err,
    (Token_loop (fun c => Token c ctx) (flatten pre ++ rest) token err []).1 =
    (Token_loop (fun c => Token c ctx) rest "" None []).1.
Proof.
  induction pre as [|c pre IH]; intros Hf rest Hrest token err.
  - apply Token_loop_start. exact Hrest.
  - apply Forall_cons in Hf as [Hc Hpre]. specialize (IH Hpre rest Hrest).
    unfold fails in Hc.
    destruct c as [f|a src|src|inner].
    1-3: cbn [flatten app Token_loop];
         match goal with |- context [Token ?c ?x] => destruct (Token c x) as [t' [e'|]] end;
         [|exfalso; apply Hc; reflexivity];
         rewrite (Token_loop_log _ (flatten pre ++ rest) t' (Some e') _ []); apply IH.
    destruct inner as [|i inner]; [apply IH|].
    cbn [flatten]. rewrite <- app_assoc.
    rewrite Token_loop_app by discriminate.
    rewrite (Token_loop_start _ (i :: inner) ltac:(discriminate) token err "" None).
    rewrite Token_multi in Hc. unfold multi_Token in Hc.
    destruct (Token_loop (fun c => Token c ctx) (i :: inner) "" None []) as [[t' r] lg].
    cbn [fst snd] in *. destruct r as [e'|]; [apply IH|congruence].
Qed.

(** The composite [MultiCredentials] builds answers a success of an
    argument that the arguments before it, all failing, lead to. *)
Lemma MultiCredentials_first ctx pre c post token :
  Forall (fails ctx) pre -> Token c ctx = (token, None) ->
  Token (MultiCredentials (pre ++ c :: post)) ctx = (token, None).
Proof.
  intros Hf Hc. unfold MultiCredentials. rewrite Token_multi. unfold multi_Token.
  rewrite flatten_app.
  assert (Hne : flatten (c :: post) <> []).
  { destruct c as [f|a src|src|inner]; cbn [flatten]; try discriminate.
    destruct inner; [discriminate Hc|discriminate]. }
  rewrite Token_loop_flatten_failed by assumption.
  destruct c as [f|a src|src|inner].
  1-3: cbn [flatten Token_loop]; rewrite Hc; reflexivity.
  cbn [flatten].
  assert (Hin : inner <> []) by (destruct inner; [discriminate Hc|discriminate]).
  rewrite Token_loop_app by exact Hin.
  rewrite Token_multi in Hc. unfold multi_Token in Hc. rewrite Hc. reflexivity.
Qed.

(** When every argument fails it answers as the last of them, unless
    that is a composite of no providers. *)
Lemma MultiCredentials_last ctx pre c token e :
  Forall (fails ctx) pre -> Token c ctx = (token, Some e) ->
  not_empty_composite c = true ->
  Token (MultiCredentials (pre ++ [c])) ctx = (token, Some e).
Proof.
  intros Hf Hc Hne. unfold MultiCredentials. rewrite Token_multi. unfold multi_Token.
  rewrite flatten_app.
  assert (Hrest : flatten [c] <> []).
  { destruct c as [f|a src|src|inner]; cbn [flatten]; try discriminate.
    destruct inner; [discriminate Hne|discriminate]. }
  rewrite Token_loop_flatten_failed by assumption.
  destruct c as [f|a src|src|inner].
  1-3: cbn [flatten Token_loop]; rewrite Hc; reflexivity.
  cbn [flatten]. rewrite app_nil_r.
  rewrite Token_multi in Hc. exact Hc.
Qed.

Lemma MultiCredentials_plain cs :
  forallb (fun c => negb (is_composite c)) cs = true ->
  MultiCredentials cs = multiCredentials cs.
Proof.
  intros H. unfold MultiCredentials. f_equal.
  induction cs as [|c cs IH]; [reflexivity|].
  cbn [forallb] in H. apply andb_prop in H as [Hc Hcs].
  destruct c; try discriminate Hc; cbn [flatten]; rewrite IH by exact Hcs; reflexivity.
Qed.

(** C10: the composite answers with the token of the first provider
    whose [Token] succeeds, having consulted the providers before it and
    none after it; when every provider fails it answers the error (and
    token) of the last one; built from no provider at all, it answers
    [ErrCredentialsNoCredentials]. This holds of [Token] over the
    providers a composite holds, and of the composite that
    [MultiCredentials] builds from its arguments: arguments that are no
    composites are held as they are, a success or the last failure
    among the arguments is answered whether they are spliced in or
    not, and a composite of no providers among the arguments is no
    provider. *)
Theorem multiCredentials_Token_first_success (ctx : cluster.Context) :
  (forall pre c post token,
      Forall (fails ctx) pre ->
      Token c ctx = (token, None) ->
      multi_Token (pre ++ c :: post) ctx = (token, None, pre ++ [c]) /\
      Token (multiCredentials (pre ++ c :: post)) ctx = (token, None)) /\
  (forall pre c token e,
      Forall (fails ctx) pre ->
      Token c ctx = (token, Some e) ->
      multi_Token (pre ++ [c]) ctx = (token, Some e, pre ++ [c]) /\
      Token (multiCredentials (pre ++ [c])) ctx = (token, Some e)) /\
  Token (MultiCredentials (E := E) []) ctx = ("", Some ErrCredentialsNoCredentials) /\
  (forall cs,
      forallb (fun c => negb (is_composite c)) cs = true ->
      MultiCredentials cs = multiCredentials cs) /\
  (forall pre c post token,
      Forall (fails ctx) pre ->
      Token c ctx = (token, None) ->
      Token (MultiCredentials (pre ++ c :: post)) ctx = (token, None)) /\
  (forall pre c token e,
      Forall (fails ctx) pre ->
      Token c ctx = (token, Some e) ->
      not_empty_composite c = true ->
      Token (MultiCredentials (pre ++ [c])) ctx = (token, Some e)) /\
  (forall pre post,
      MultiCredentials (pre ++ multiCredentials [] :: post) = MultiCredentials (pre ++ post)).
Proof.
  split; [|split; [|split; [|split; [|split; [|split]]]]].
  - intros pre c post token Hf Hc.
    assert (Hm : multi_Token (pre ++ c :: post) ctx = (token, None, pre ++ [c])).
    { unfold multi_Token. rewrite Token_loop_failed by assumption.
      cbn [Token_loop]. rewrite Hc. reflexivity. }
    split; [exact Hm|]. rewrite Token_multi, Hm. reflexivity.
  - intros pre c token e Hf Hc.
    assert (Hall : Forall (fails ctx) (pre ++ [c])).
    { apply Forall_app. split; [assumption|].
      constructor; [|constructor]. unfold fails. rewrite Hc. discriminate. }
    assert (Hm : multi_Token (pre ++ [c]) ctx = (token, Some e, pre ++ [c])).
    { unfold multi_Token.
      rewrite <- (app_nil_r (pre ++ [c])) at 1.
      rewrite Token_loop_failed by assumption.
      destruct (last_failed ctx pre c token e "" None Hc) as [-> ->].
      reflexivity. }
    split; [exact Hm|]. rewrite Token_multi, Hm. reflexivity.
  - reflexivity.
  - apply MultiCredentials_plain.
  - apply MultiCredentials_first.
  - apply MultiCredentials_last.
  - intros pre post. unfold MultiCredentials. rewrite !flatten_app. reflexivity.
Qed.

End credentials_facts.

Lemma multiCredentials_Token_first_success_witness :
  let denied : error unit := ErrorsNew "denied" in
  let expired : error unit := ErrorsNew "expired" in
  let a := credentials.Func (fun _ => ("", Some denied)) in
  let b := credentials.AccessTokenCredentials "token-b" "env" in
  let c := credentials.Func (fun _ => ("stale", Some expired)) in
  credentials.multi_Token [a; b; c] cluster.Background = ("token-b", None, [a; b]) /\
  credentials.Token (credentials.multiCredentials [a; c]) cluster.Background
    = ("stale", Some expired) /\
  credentials.MultiCredentials [a; b; c] = credentials.multiCredentials [a; b; c] /\
  credentials.Token
    (credentials.MultiCredentials
       [a; credentials.multiCredentials []; credentials.multiCredentials [a; b]; c])
    cluster.Background = ("token-b", None) /\
  credentials.Token
    (credentials.MultiCredentials [a; credentials.multiCredentials [a; c]])
    cluster.Background = ("stale", Some expired).
Proof.
  intros denied expired a b c.
  destruct (multiCredentials_Token_first_success (E := unit) cluster.Background)
    as (Hfirst & Hlast & _ & Hplain & Hbuilt_first & Hbuilt_last & _).
  assert (Ha : credentials.fails cluster.Background a)
    by (unfold credentials.fails; simpl; discriminate).
  split; [|split; [|split; [|split]]].
  - apply (Hfirst [a] b [c] "token-b"); [constructor; [exact Ha|constructor]|reflexivity].
  - apply (Hlast [a] c "stale" expired); [constructor; [exact Ha|constructor]|reflexivity].
  - apply (Hplain [a; b; c]). reflexivity.
  - apply (Hbuilt_first [a; credentials.multiCredentials []]
             (credentials.multiCredentials [a; b]) [c] "token-b").
    + constructor; [exact Ha|]. constructor; [|constructor].
      unfold credentials.fails. simpl. discriminate.
    + reflexivity.
  - apply (Hbuilt_last [a] (credentials.multiCredentials [a; c]) "stale" expired);
      [constructor; [exact Ha|constructor]|reflexivity|reflexivity].
Defined.

(** ** Result scanner *)

(** Evaluation of a run: the definitions are unfolded, the comparisons of
    numbers that are known are decided, the others are left to the proof. *)
Ltac decide_known :=
  repeat match goal with
  | |- context [Z.ltb ?a ?b] =>
      let r := eval vm_compute in (Z.ltb a b) in
      lazymatch r with true => idtac | false => idtac end;
      change (Z.ltb a b) with r
  | |- context [Z.leb ?a ?b] =>
      let r := eval vm_compute in (Z.leb a b) in
      lazymatch r with true => idtac | false => idtac end;
      change (Z.leb a b) with r
  | |- context [Z.eqb ?a ?b] =>
      let r := eval vm_compute in (Z.eqb a b) in
      lazymatch r with true => idtac | false => idtac end;
      change (Z.eqb a b) with r
  end.

Ltac run :=
  repeat (progress (cbv -[Z.ltb Z.leb Z.eqb Z.add Z.of_nat Z.of_N scanner.to_signed scanner.to_unsigned
                         scanner.gval scanner.Time scanner.types_Value scanner.types_Type];
                    decide_known)).

Section scanner_facts.
Import Ydb golang scanner session example.
#[local] Open Scope Z_scope.
Context `{X : Externals}.

(** *** Sticky errors *)

Lemma errorf_keeps_first (s : scanner) h f args e :
  err s = Some e -> errorf f args {| sc := s; mem := h |} = Ret tt {| sc := s; mem := h |}.
Proof. intros He. cbv. cbv in He. rewrite He. reflexivity. Qed.

Lemma errorf_records (s : scanner) h f args :
  err s = None ->
  errorf f args {| sc := s; mem := h |}
    = Ret tt {| sc := with_err (Some (Errorf f args)) s; mem := h |}.
Proof. intros He. cbv. cbv in He. rewrite He. reflexivity. Qed.

Lemma NextRow_after_error (s : scanner) h e :
  err s = Some e -> NextRow {| sc := s; mem := h |} = Ret false {| sc := s; mem := h |}.
Proof.
  intros He. destruct s as [rs rw k nr ni ci dv er]. simpl in He. subst er.
  reflexivity.
Qed.

Lemma scan_after_error (s : scanner) h e values :
  err s = Some e -> scan values {| sc := s; mem := h |} = Ret (Some e) {| sc := s; mem := h |}.
Proof.
  intros He. destruct s as [rs rw k nr ni ci dv er]. simpl in He. subst er.
  reflexivity.
Qed.

Lemma Scan_after_error (s : scanner) h e values :
  err s = Some e ->
  Scan values {| sc := s; mem := h |}
    = Ret (Some e) {| sc := with_defaultValueForOptional false s; mem := h |}.
Proof.
  intros He. unfold Scan.
  change ((modify (with_defaultValueForOptional false);; scan values) {| sc := s; mem := h |})
    with (scan values {| sc := with_defaultValueForOptional false s; mem := h |}).
  apply scan_after_error. exact He.
Qed.

Lemma ScanWithDefaults_after_error (s : scanner) h e values :
  err s = Some e ->
  ScanWithDefaults values {| sc := s; mem := h |}
    = Ret (Some e) {| sc := with_defaultValueForOptional true s; mem := h |}.
Proof.
  intros He. unfold ScanWithDefaults.
  change ((modify (with_defaultValueForOptional true);; scan values) {| sc := s; mem := h |})
    with (scan values {| sc := with_defaultValueForOptional true s; mem := h |}).
  apply scan_after_error. exact He.
Qed.

Lemma same_but_flag_refl (s : scanner) : same_but_flag s s.
Proof. destruct s. reflexivity. Qed.

Lemma same_but_flag_set (s s' : scanner) b :
  same_but_flag s s' -> same_but_flag s (with_defaultValueForOptional b s').
Proof. unfold same_but_flag. intros ->. destruct s. reflexivity. Qed.

Lemma same_but_flag_err (s s' : scanner) : same_but_flag s s' -> err s' = err s.
Proof. unfold same_but_flag. intros ->. reflexivity. Qed.

Lemma do_call_after_error (s0 s : scanner) h e c :
  same_but_flag s0 s -> err s = Some e ->
  exists s',
    do_call c {| sc := s; mem := h |} = Ret (short_circuit e c) {| sc := s'; mem := h |} /\
    same_but_flag s0 s' /\ err s' = Some e.
Proof.
  intros Hs He. destruct c as [|values|values|f args]; simpl.
  - exists s. unfold mbind, M_bind. rewrite (NextRow_after_error s h e He). auto.
  - exists (with_defaultValueForOptional false s).
    unfold mbind, M_bind. rewrite (Scan_after_error s h e values He).
    split; [reflexivity|]. split; [apply same_but_flag_set; exact Hs|exact He].
  - exists (with_defaultValueForOptional true s).
    unfold mbind, M_bind. rewrite (ScanWithDefaults_after_error s h e values He).
    split; [reflexivity|]. split; [apply same_but_flag_set; exact Hs|exact He].
  - exists s. unfold mbind, M_bind. rewrite (errorf_keeps_first s h f args e He). auto.
Qed.

Lemma do_calls_after_error (cs : list call) : forall (s0 s : scanner) h e,
  same_but_flag s0 s -> err s = Some e ->
  exists s',
    do_calls cs {| sc := s; mem := h |}
      = Ret (short_circuit e <$> cs) {| sc := s'; mem := h |} /\
    same_but_flag s0 s' /\ Err s' = Some e.
Proof.
  induction cs as [|c cs IH]; intros s0 s h e Hs He.
  - exists s. auto.
  - destruct (do_call_after_error s0 s h e c Hs He) as (s1 & Hc & Hs1 & He1).
    destruct (IH s0 s1 h e Hs1 He1) as (s2 & Hcs & Hs2 & He2).
    exists s2. split; [|auto].
    cbn [do_calls]. unfold mbind, M_bind in *. rewrite Hc, Hcs. reflexivity.
Qed.

(** C1: once an error [e] is recorded, every later [NextRow] answers
    false, every later [Scan] and [ScanWithDefaults] answers [e] at
    once, leaving the store and (but for the flag they set first) the
    scanner as they were, a later [errorf] changes nothing, and [Err]
    still reports [e]; and the error recorded on a scanner that had
    none is the one reported after any such calls. *)
Theorem scanner_errors_are_sticky (s : scanner) (h : list gval) (cs : list call) :
  (forall e : err_t,
      err s = Some e ->
      exists s',
        do_calls cs {| sc := s; mem := h |}
          = Ret (short_circuit e <$> cs) {| sc := s'; mem := h |} /\
        same_but_flag s s' /\ Err s' = Some e) /\
  (forall f args,
      err s = None ->
      exists s',
        (errorf f args;; do_calls cs) {| sc := s; mem := h |}
          = Ret (short_circuit (Errorf f args) <$> cs) {| sc := s'; mem := h |} /\
        Err s' = Some (Errorf f args)).
Proof.
  split.
  - intros e He. apply do_calls_after_error; [apply same_but_flag_refl|exact He].
  - intros f args He.
    destruct (do_calls_after_error cs _ (with_err (Some (Errorf f args)) s) h
                (Errorf f args) (same_but_flag_refl _) eq_refl) as (s' & Hcs & _ & He').
    exists s'. split; [|exact He'].
    unfold mbind, M_bind at 1. rewrite (errorf_records s h f args He). exact Hcs.
Qed.

(** *** Scanning an optional column *)

(** C2: over a column Optional<Uint32> with the rows 5, NULL, 7,
    [Scan(&p)] with [p] a [*uint32] leaves [p] pointing at 5, then nil,
    then pointing at 7, and [ScanWithDefaults(&u)] with [u] a [uint32]
    leaves 5, then 0, then 7 in [u]; [NextRow] answers true, both scans
    answer nil and [Err] reports nil each time, whatever [p] and [u]
    held before. *)
Theorem scan_optional_uint32_rows (p0 : option loc) (u0 : gval) :
  let rs := one_column (Optional (primitive Type_UINT32))
              [cell (Value_Uint32Value 5); cell Value_NullFlagValue;
               cell (Value_Uint32Value 7)] in
  view (each_row (Scan [d_ptr (t_ptr t_uint32) (Some 0%nat)]) 3
          {| sc := new_scanner rs; mem := [v_ptr p0] |})
    = Some ([(true, None, None, seen_pointee (v_uint32 5));
             (true, None, None, seen_nil);
             (true, None, None, seen_pointee (v_uint32 7))],
            None, [v_ptr (Some 2%nat); v_uint32 5; v_uint32 7]) /\
  view (each_row (ScanWithDefaults [d_ptr t_uint32 (Some 0%nat)]) 3
          {| sc := new_scanner rs; mem := [u0] |})
    = Some ([(true, None, None, seen_value (v_uint32 5));
             (true, None, None, seen_value (v_uint32 0));
             (true, None, None, seen_value (v_uint32 7))],
            None, [v_uint32 7]).
Proof. split; vm_compute; reflexivity. Qed.

(** *** Narrowing *)

Lemma to_signed_8_in_range d : MinInt8 <= d <= MaxInt8 -> to_signed 8 d = d.
Proof.
  unfold MinInt8, MaxInt8, to_signed. intros Hd.
  change (2 ^ 8) with 256. change (2 ^ (8 - 1)) with 128.
  destruct (Z.ltb_spec (d mod 256) 128);
    Z.to_euclidean_division_equations; lia.
Qed.

Lemma to_signed_16_in_range d : MinInt16 <= d <= MaxInt16 -> to_signed 16 d = d.
Proof.
  unfold MinInt16, MaxInt16, to_signed. intros Hd.
  change (2 ^ 16) with 65536. change (2 ^ (16 - 1)) with 32768.
  destruct (Z.ltb_spec (d mod 65536) 32768);
    Z.to_euclidean_division_equations; lia.
Qed.

Lemma to_unsigned_8_in_range d : 0 <= d <= MaxUint8 -> to_unsigned 8 d = d.
Proof.
  unfold MaxUint8, to_unsigned. intros Hd. change (2 ^ 8) with 256.
  apply Z.mod_small. lia.
Qed.

Lemma to_unsigned_16_in_range d : 0 <= d <= MaxUint16 -> to_unsigned 16 d = d.
Proof.
  unfold MaxUint16, to_unsigned. intros Hd. change (2 ^ 16) with 65536.
  apply Z.mod_small. lia.
Qed.

(** C3 as amended: scanning the Int32 cell 200 into an [int8] records
    the overflow error, which [Scan] answers and [Err] reports, and
    leaves 0 in the destination, whatever it held before. *)
Theorem scan_int8_overflow_zeroes (x0 : gval) :
  let overflow : err_t :=
    Errorf "overflow error: %d overflows capacity of %t"
      [ArgVal (op_int 200); ArgVal (op_zero t_int8)] in
  view ((NextRow;; Scan [d_ptr t_int8 (Some 0%nat)])
          {| sc := new_scanner (one_column (primitive Type_INT32)
                                  [cell (Value_Int32Value 200)]);
             mem := [x0] |})
    = Some (Some overflow, Some overflow, [v_int8 0]).
Proof. vm_compute. reflexivity. Qed.

(** C4: a wire Int32 value [d] scanned into an [int8] (an [int16])
    gives [int8(d)] ([int16(d)]), which is [d] itself, and no error when
    [d] is in the range of the destination, and records the overflow
    error when it is not; likewise a wire Uint32 value scanned into a
    [uint8] or a [uint16]. *)
Theorem narrowing_checks_range (id : Type_PrimitiveTypeId) (d : Z) (u : N)
    (x0 : gval) :
  (if (MinInt8 <=? d) && (d <=? MaxInt8)
   then scan_cell id (Value_Int32Value d) t_int8 x0
          = Some (None, None, [v_int8 (to_signed 8 d)]) /\ to_signed 8 d = d
   else scan_cell id (Value_Int32Value d) t_int8 x0
          = Some (Some (overflow_of d t_int8), Some (overflow_of d t_int8), [v_int8 0])) /\
  (if (MinInt16 <=? d) && (d <=? MaxInt16)
   then scan_cell id (Value_Int32Value d) t_int16 x0
          = Some (None, None, [v_int16 (to_signed 16 d)]) /\ to_signed 16 d = d
   else scan_cell id (Value_Int32Value d) t_int16 x0
          = Some (Some (overflow_of d t_int16), Some (overflow_of d t_int16), [v_int16 0])) /\
  (if Z.of_N u <=? MaxUint8
   then scan_cell id (Value_Uint32Value (Z.of_N u)) t_uint8 x0
          = Some (None, None, [v_uint8 (to_unsigned 8 (Z.of_N u))]) /\
        to_unsigned 8 (Z.of_N u) = Z.of_N u
   else scan_cell id (Value_Uint32Value (Z.of_N u)) t_uint8 x0
          = Some (Some (overflow_of (Z.of_N u) t_uint8),
                  Some (overflow_of (Z.of_N u) t_uint8), [v_uint8 0])) /\
  (if Z.of_N u <=? MaxUint16
   then scan_cell id (Value_Uint32Value (Z.of_N u)) t_uint16 x0
          = Some (None, None, [v_uint16 (to_unsigned 16 (Z.of_N u))]) /\
        to_unsigned 16 (Z.of_N u) = Z.of_N u
   else scan_cell id (Value_Uint32Value (Z.of_N u)) t_uint16 x0
          = Some (Some (overflow_of (Z.of_N u) t_uint16),
                  Some (overflow_of (Z.of_N u) t_uint16), [v_uint16 0])).
Proof.
  pose proof (N2Z.is_nonneg u) as Hu.
  repeat split.
  - destruct (Z.leb_spec MinInt8 d) as [Hlo|Hlo], (Z.leb_spec d MaxInt8) as [Hhi|Hhi];
      cbn [andb]; [split; [|apply to_signed_8_in_range; lia]| | |];
      unfold MinInt8, MaxInt8 in *; run;
      destruct (Z.ltb_spec d (-128)), (Z.ltb_spec 127 d); try lia; reflexivity.
  - destruct (Z.leb_spec MinInt16 d) as [Hlo|Hlo], (Z.leb_spec d MaxInt16) as [Hhi|Hhi];
      cbn [andb]; [split; [|apply to_signed_16_in_range; lia]| | |];
      unfold MinInt16, MaxInt16 in *; run;
      destruct (Z.ltb_spec d (-32768)), (Z.ltb_spec 32767 d); try lia; reflexivity.
  - destruct (Z.leb_spec (Z.of_N u) MaxUint8) as [Hhi|Hhi];
      [split; [|apply to_unsigned_8_in_range; lia]|];
      unfold MaxUint8 in *; run;
      destruct (Z.ltb_spec 255 (Z.of_N u)); try lia; reflexivity.
  - destruct (Z.leb_spec (Z.of_N u) MaxUint16) as [Hhi|Hhi];
      [split; [|apply to_unsigned_16_in_range; lia]|];
      unfold MaxUint16 in *; run;
      destruct (Z.ltb_spec 65535 (Z.of_N u)); try lia; reflexivity.
Qed.

(** *** Scanning a row twice *)

Lemma scan_twice_panics (s : scanner) h values :
  err s = None -> nextItem s <> 0 -> counts_fit s values ->
  scan values {| sc := s; mem := h |}
    = Panic (panic_string "scan row failed: double scan per row") {| sc := s; mem := h |}.
Proof.
  intros He Hn [Hci Hcc].
  destruct s as [rs rw k nr ni ci dv er]. simpl in He, Hn, Hci. subst er.
  unfold scan, mbind, M_bind, get. cbn [sc err not_nil columnIndexes nextItem].
  replace (match ci with Some ci0 => negb (len ci0 =? len values) | None => false end)
    with false.
  2:{ destruct ci as [ci|]; [|reflexivity]. rewrite Hci, Z.eqb_refl. reflexivity. }
  apply Z.ltb_ge in Hcc. rewrite Hcc.
  apply Z.eqb_neq in Hn. rewrite Hn. reflexivity.
Qed.

(** C9 as amended: on a scanner with no error recorded whose current
    row has had values consumed ([nextItem] is not 0), a [Scan] or
    [ScanWithDefaults] whose destinations pass the count checks panics
    with "scan row failed: double scan per row"; no error is recorded
    and nothing is written. *)
Theorem second_scan_of_a_row_panics (s : scanner) (h : list gval)
    (values : list dest) (defaults : bool) :
  err s = None -> nextItem s <> 0 -> counts_fit s values ->
  (if defaults then ScanWithDefaults values else Scan values) {| sc := s; mem := h |}
    = Panic (panic_string "scan row failed: double scan per row")
        {| sc := with_defaultValueForOptional defaults s; mem := h |} /\
  Err (with_defaultValueForOptional defaults s) = None.
Proof.
  intros He Hn Hc. split; [|exact He].
  destruct defaults.
  - change (ScanWithDefaults values {| sc := s; mem := h |})
      with (scan values {| sc := with_defaultValueForOptional true s; mem := h |}).
    apply scan_twice_panics; assumption.
  - change (Scan values {| sc := s; mem := h |})
      with (scan values {| sc := with_defaultValueForOptional false s; mem := h |}).
    apply scan_twice_panics; assumption.
Qed.

(** *** Optional columns in [Scan] mode *)

(** [trySetByteArray] turns down a single pointer to a primitive
    without looking at the scanner or the store. *)
Lemma trySetByteArray_primitive (t : golang.type) (p : option loc) (st : state) :
  primitive_type t = true ->
  trySetByteArray (d_ptr t p) true false st = Ret false st.
Proof.
  intros Ht. destruct st as [s h].
  destruct t; try discriminate Ht; destruct p; reflexivity.
Qed.

(** [unwrap] on an optional cell returns and leaves the store and the
    mode alone. *)
Lemma unwrap_on_optional_cell (s : scanner) h inner c :
  err s = None -> on_optional_cell s inner c ->
  TypeFromYDB (Some (mkType (Some (Type_OptionalType inner)))) <> None ->
  exists s',
    unwrap {| sc := s; mem := h |} = Ret tt {| sc := s'; mem := h |} /\
    defaultValueForOptional s' = defaultValueForOptional s.
Proof.
  intros He [Ht Hv] Hty.
  destruct s as [rs rw [kv kp [nm ki kt kvv]] nr ni ci dv er].
  simpl in He, Ht, Hv. subst er kt kvv.
  destruct (TypeFromYDB (Some (mkType (Some (Type_OptionalType inner))))) as [ty|] eqn:Hty';
    [clear Hty|congruence].
  destruct inner as [[[[| | | |]|]]|]; try (eexists; split; reflexivity).
  destruct c as [[[]|] items hi];
    cbv -[TypeFromYDB nameIface]; rewrite ?Hty'; eexists; split; reflexivity.
Qed.

Lemma errorf_sets_error (s : scanner) h f args :
  exists s',
    errorf f args {| sc := s; mem := h |} = Ret tt {| sc := s'; mem := h |} /\
    err s' <> None.
Proof.
  destruct (err s) as [e|] eqn:He.
  - exists s. split; [apply (errorf_keeps_first s h f args e He)|congruence].
  - exists (with_err (Some (Errorf f args)) s).
    split; [apply errorf_records; exact He|discriminate].
Qed.

(** X17: in [Scan] mode a single pointer to a primitive, on a column of
    optional type, gets an error recorded and nothing written,
    whatever the cell holds. *)
Lemma scanOptional_single_pointer (s : scanner) h t p inner c :
  primitive_type t = true ->
  err s = None -> defaultValueForOptional s = false ->
  on_optional_cell s inner c ->
  TypeFromYDB (Some (mkType (Some (Type_OptionalType inner)))) <> None ->
  exists s',
    scanOptional (d_ptr t p) {| sc := s; mem := h |} = Ret tt {| sc := s'; mem := h |} /\
    err s' <> None.
Proof.
  intros Ht He Hd Hc Hty.
  destruct (unwrap_on_optional_cell s h inner c He Hc Hty) as (s1 & Hu & Hd1).
  destruct (errorf_sets_error s1 h
              "scan row failed: types %T is not optional! use double pointer or sql.Scanner."
              [ArgVal (op_dst (Some (t_ptr t)))]) as (s2 & Hf & He2).
  exists s2. split; [|exact He2].
  unfold scanOptional.
  unfold mbind at 1, M_bind at 1, get at 1. cbn [sc]. rewrite Hd.
  destruct t; try discriminate Ht;
    unfold scanOptional_default, mbind, M_bind; rewrite Hu;
    rewrite trySetByteArray_primitive by reflexivity;
    exact Hf.
Qed.

Lemma named_pointee_array (n : nat) (e : golang.type) :
  named_pointee (t_array n e) = true -> n = 16%nat /\ e = t_uint8.
Proof.
  intros H.
  do 16 (destruct n as [|n]; [discriminate H|]).
  destruct n; [|discriminate H].
  destruct e; try discriminate H. split; reflexivity.
Qed.

(** X15: in [Scan] mode a pointer to a pointer of one of the types the
    switch names is set to nil on a null cell, with no error. *)
Lemma scanOptional_double_pointer_null (s : scanner) h t l inner c :
  named_pointee t = true ->
  defaultValueForOptional s = false ->
  on_optional_cell s inner c -> Value_Value c = Some Value_NullFlagValue ->
  (l < length h)%nat ->
  scanOptional (d_ptr (t_ptr t) (Some l)) {| sc := s; mem := h |}
    = Ret tt {| sc := s; mem := <[l := v_ptr None]> h |}.
Proof.
  intros Ht Hd [Hct Hcv] Hnull Hl.
  destruct s as [rs rw [kv kp [nm ki kt kvv]] nr ni ci dv er].
  simpl in Hd, Hct, Hcv. subst dv kt kvv.
  destruct c as [o items hi]. simpl in Hnull. subst o.
  apply Nat.ltb_lt in Hl.
  destruct t; try discriminate Ht;
    try (apply named_pointee_array in Ht as [-> ->]);
    cbv -[Nat.ltb length insert gval Time types_Value types_Type];
    rewrite Hl; reflexivity.
Qed.

(** A pointer to a pointer of a type the switch does not name is
    left to the default case. *)
Lemma scanOptional_unnamed (t : golang.type) (p : option loc) (st : state) :
  named_pointee t = false -> defaultValueForOptional (sc st) = false ->
  scanOptional (d_ptr (t_ptr t) p) st = scanOptional_default (d_ptr (t_ptr t) p) st.
Proof.
  intros Ht Hd. unfold scanOptional.
  unfold mbind at 1, M_bind at 1, get at 1. rewrite Hd.
  destruct t as [| | | | | | | | | | | | | | | | | | | |n e| | |];
    try discriminate Ht; try reflexivity.
  do 16 (destruct n as [|n]; [reflexivity|]).
  destruct n as [|n]; [|reflexivity].
  destruct e; try discriminate Ht; reflexivity.
Qed.

(** X16: in [Scan] mode a pointer to a pointer of a type the switch does
    not name (a byte array, say) is set to nil on a null cell too, through
    [trySetByteArray], when the column is an Optional of a type that is
    not itself optional. *)
Lemma scanOptional_other_double_pointer_null (s : scanner) h t l inner c :
  named_pointee t = false ->
  isOptional inner = false ->
  err s = None -> defaultValueForOptional s = false ->
  on_optional_cell s inner c -> Value_Value c = Some Value_NullFlagValue ->
  (l < length h)%nat ->
  scanOptional (d_ptr (t_ptr t) (Some l)) {| sc := s; mem := h |}
    = Ret tt {| sc := set_scanItem_t inner s; mem := <[l := v_ptr None]> h |}.
Proof.
  intros Ht Hi He Hd [Hct Hcv] Hnull Hl.
  rewrite scanOptional_unnamed by assumption.
  destruct s as [rs rw [kv kp [nm ki kt kvv]] nr ni ci dv er].
  simpl in He, Hd, Hct, Hcv. subst er dv kt kvv.
  destruct c as [o items hi]. simpl in Hnull. subst o.
  apply Nat.ltb_lt in Hl.
  destruct inner as [[[[| | | |]|]]|]; try discriminate Hi;
    cbv -[Nat.ltb length insert lookup gval Time types_Value types_Type];
    rewrite ?Hl; reflexivity.
Qed.

(** *** What decoding leaves alone, and the count of values consumed *)

Lemma frame_refl (s : scanner) : frame s s.
Proof. repeat split. Qed.

Lemma frame_trans (s1 s2 s3 : scanner) : frame s1 s2 -> frame s2 s3 -> frame s1 s3.
Proof. unfold frame. intros (-> & -> & ->) (-> & -> & ->). repeat split. Qed.

Lemma keeps_ret {A} (a : A) : keeps (mret a).
Proof. intros st. apply frame_refl. Qed.

Lemma keeps_bind {A B} (m : M A) (f : A -> M B) :
  keeps m -> (forall a, keeps (f a)) -> keeps (m ≫= f).
Proof.
  intros Hm Hf st. specialize (Hm st). unfold mbind, M_bind.
  destruct (m st) as [a st'|why st']; [|exact Hm].
  specialize (Hf a st'). destruct (f a st'); eapply frame_trans; eassumption.
Qed.

Lemma keeps_get : keeps get.
Proof. intros st. apply frame_refl. Qed.

Lemma keeps_do_panic {A} why : keeps (do_panic (A := A) why).
Proof. intros st. apply frame_refl. Qed.

Lemma keeps_modify (f : scanner -> scanner) : (forall s, frame s (f s)) -> keeps (modify f).
Proof. intros Hf st. apply Hf. Qed.

Lemma keeps_store p x : keeps (store p x).
Proof.
  intros [s h]. unfold store. destruct p as [l|]; [|apply frame_refl].
  cbn [mem]. destruct (l <? length h)%nat; apply frame_refl.
Qed.

Lemma keeps_load p : keeps (load p).
Proof.
  intros [s h]. unfold load. destruct p as [l|]; [|apply frame_refl].
  cbn [mem]. destruct (h !! l); apply frame_refl.
Qed.

Lemma keeps_alloc x : keeps (alloc x).
Proof. intros st. apply frame_refl. Qed.

Lemma keeps_errorf f args : keeps (errorf f args).
Proof.
  intros [s h]. unfold errorf, mbind, M_bind, get. cbn [sc].
  destruct (err s); [apply frame_refl|]. repeat split.
Qed.

Lemma frame_set_scanItem_v v s : frame s (set_scanItem_v v s).
Proof. repeat split. Qed.
Lemma frame_set_scanItem_t t s : frame s (set_scanItem_t t s).
Proof. repeat split. Qed.
Lemma frame_set_scanItem_name n s : frame s (set_scanItem_name n s).
Proof. repeat split. Qed.

Create HintDb keeps discriminated.
#[local] Hint Resolve keeps_ret keeps_get keeps_do_panic keeps_store keeps_load
  keeps_alloc keeps_errorf frame_set_scanItem_v frame_set_scanItem_t
  frame_set_scanItem_name keeps_modify : keeps.

Ltac keeps_step :=
  lazymatch goal with
  | |- keeps (mbind _ _) => apply keeps_bind; [|intros ?]
  | |- keeps (match ?x with _ => _ end) => destruct x
  | |- keeps (if ?b then _ else _) => destruct b
  | |- keeps _ => solve [auto with keeps]
  end.

Ltac keeps_all := repeat keeps_step.

Lemma keeps_current : keeps current.
Proof. unfold current. keeps_all. Qed.
#[local] Hint Resolve keeps_current : keeps.

Lemma keeps_currentValue : keeps currentValue.
Proof. unfold currentValue. keeps_all. Qed.
Lemma keeps_currentType : keeps currentType.
Proof. unfold currentType. keeps_all. Qed.
#[local] Hint Resolve keeps_currentValue keeps_currentType : keeps.

Lemma keeps_path : keeps path.
Proof. unfold path. keeps_all. Qed.
Lemma keeps_getType : keeps getType.
Proof. unfold getType. keeps_all. Qed.
#[local] Hint Resolve keeps_path keeps_getType : keeps.

Lemma keeps_typeError a e : keeps (typeError a e).
Proof. unfold typeError. keeps_all. Qed.
Lemma keeps_valueTypeError a e : keeps (valueTypeError a e).
Proof. unfold valueTypeError. keeps_all. Qed.
Lemma keeps_noValueError : keeps noValueError.
Proof. unfold noValueError. keeps_all. Qed.
Lemma keeps_overflowError i n : keeps (overflowError i n).
Proof. unfold overflowError. keeps_all. Qed.
#[local] Hint Resolve keeps_typeError keeps_valueTypeError keeps_noValueError
  keeps_overflowError : keeps.

Lemma keeps_unexpected w : keeps (unexpected w).
Proof. unfold unexpected. keeps_all. Qed.
#[local] Hint Resolve keeps_unexpected : keeps.

Lemma keeps_isNull : keeps isNull.
Proof. unfold isNull. keeps_all. Qed.
Lemma keeps_isCurrentTypeOptional : keeps isCurrentTypeOptional.
Proof. unfold isCurrentTypeOptional. keeps_all. Qed.
Lemma keeps_unwrapValue : keeps unwrapValue.
Proof. unfold unwrapValue. keeps_all. Qed.
#[local] Hint Resolve keeps_isNull keeps_isCurrentTypeOptional keeps_unwrapValue : keeps.

Lemma keeps_unwrap : keeps unwrap.
Proof. unfold unwrap. keeps_all. Qed.
#[local] Hint Resolve keeps_unwrap : keeps.

Lemma keeps_bool_ : keeps bool_. Proof. unfold bool_. keeps_all. Qed.
Lemma keeps_int32 : keeps int32. Proof. unfold int32. keeps_all. Qed.
Lemma keeps_uint32 : keeps uint32. Proof. unfold uint32. keeps_all. Qed.
Lemma keeps_int64 : keeps int64. Proof. unfold int64. keeps_all. Qed.
Lemma keeps_uint64 : keeps uint64. Proof. unfold uint64. keeps_all. Qed.
Lemma keeps_float : keeps float. Proof. unfold float. keeps_all. Qed.
Lemma keeps_double : keeps double. Proof. unfold double. keeps_all. Qed.
Lemma keeps_bytes : keeps bytes. Proof. unfold bytes. keeps_all. Qed.
Lemma keeps_text : keeps text. Proof. unfold text. keeps_all. Qed.
Lemma keeps_low128 : keeps low128. Proof. unfold low128. keeps_all. Qed.
#[local] Hint Resolve keeps_bool_ keeps_int32 keeps_uint32 keeps_int64 keeps_uint64
  keeps_float keeps_double keeps_bytes keeps_text keeps_low128 : keeps.

Lemma keeps_int8 : keeps int8. Proof. unfold int8. keeps_all. Qed.
Lemma keeps_uint8 : keeps uint8. Proof. unfold uint8. keeps_all. Qed.
Lemma keeps_int16 : keeps int16. Proof. unfold int16. keeps_all. Qed.
Lemma keeps_uint16 : keeps uint16. Proof. unfold uint16. keeps_all. Qed.
Lemma keeps_uint128 : keeps uint128. Proof. unfold uint128. keeps_all. Qed.
#[local] Hint Resolve keeps_int8 keeps_uint8 keeps_int16 keeps_uint16 keeps_uint128 : keeps.

Lemma keeps_assertTypeDecimal t : keeps (assertTypeDecimal t).
Proof. unfold assertTypeDecimal. keeps_all. Qed.
#[local] Hint Resolve keeps_assertTypeDecimal : keeps.
Lemma keeps_unwrapDecimal : keeps unwrapDecimal.
Proof. unfold unwrapDecimal. keeps_all. Qed.
Lemma keeps_value : keeps value.
Proof. unfold value. keeps_all. Qed.
Lemma keeps_parsed r : keeps (parsed r).
Proof. unfold parsed. keeps_all. Qed.
#[local] Hint Resolve keeps_unwrapDecimal keeps_value keeps_parsed : keeps.

Lemma keeps_any : keeps any.
Proof. unfold any. keeps_all. Qed.
#[local] Hint Resolve keeps_any : keeps.

Lemma keeps_setTime_src : keeps setTime_src.
Proof. unfold setTime_src. keeps_all. Qed.
Lemma keeps_setString_src : keeps setString_src.
Proof. unfold setString_src. keeps_all. Qed.
Lemma keeps_setByte_src : keeps setByte_src.
Proof. unfold setByte_src. keeps_all. Qed.
#[local] Hint Resolve keeps_setTime_src keeps_setString_src keeps_setByte_src : keeps.

Lemma keeps_setTime p : keeps (setTime p).
Proof. unfold setTime. keeps_all. Qed.
Lemma keeps_setString p : keeps (setString p).
Proof. unfold setString. keeps_all. Qed.
Lemma keeps_setByte p : keeps (setByte p).
Proof. unfold setByte. keeps_all. Qed.
#[local] Hint Resolve keeps_setTime keeps_setString keeps_setByte : keeps.

Lemma keeps_rv_pointer rv : keeps (rv_pointer rv).
Proof. unfold rv_pointer. keeps_all. Qed.
#[local] Hint Resolve keeps_rv_pointer : keeps.
Lemma keeps_rv_Elem rv : keeps (rv_Elem rv).
Proof. unfold rv_Elem. keeps_all. Qed.
Lemma keeps_rv_IsZero rv : keeps (rv_IsZero rv).
Proof. unfold rv_IsZero. keeps_all. Qed.
Lemma keeps_rv_Set rv x : keeps (rv_Set rv x).
Proof. unfold rv_Set. keeps_all. Qed.
Lemma keeps_rv_Copy rv x : keeps (rv_Copy rv x).
Proof. unfold rv_Copy. keeps_all. Qed.
#[local] Hint Resolve keeps_rv_Elem keeps_rv_IsZero keeps_rv_Set keeps_rv_Copy : keeps.

Lemma keeps_trySetByteArray v o d : keeps (trySetByteArray v o d).
Proof. unfold trySetByteArray. keeps_all. Qed.
Lemma keeps_sql_Scan f x : keeps (sql_Scan f x).
Proof. unfold sql_Scan. keeps_all. Qed.
#[local] Hint Resolve keeps_trySetByteArray keeps_sql_Scan : keeps.

Lemma keeps_scanRequired d : no_converter d = true -> keeps (scanRequired d).
Proof. intros Hd. unfold scanRequired. destruct d; try discriminate Hd; keeps_all. Qed.

#[local] Hint Resolve keeps_scanRequired : keeps.

Lemma keeps_setDefaultValue d : no_converter d = true -> keeps (setDefaultValue d).
Proof. intros Hd. unfold setDefaultValue. destruct d; try discriminate Hd; keeps_all. Qed.

Lemma keeps_scanPointer v (read : M gval) : keeps read -> keeps (scanPointer v read).
Proof. intros Hr. unfold scanPointer. keeps_all. Qed.

Ltac keeps_more :=
  repeat first [apply keeps_scanPointer | keeps_step].

Lemma keeps_scanOptional_default d : keeps (scanOptional_default d).
Proof. unfold scanOptional_default. keeps_all. Qed.
#[local] Hint Resolve keeps_setDefaultValue keeps_scanPointer keeps_scanOptional_default : keeps.

Lemma keeps_scanOptional d : no_converter d = true -> keeps (scanOptional d).
Proof.
  intros Hd. unfold scanOptional.
  apply keeps_bind; [auto with keeps|intros s].
  destruct (defaultValueForOptional s); [keeps_all|].
  destruct d; try discriminate Hd; keeps_more.
Qed.

Lemma keeps_seekItemByID id : keeps (seekItemByID id).
Proof. unfold seekItemByID. keeps_all. Qed.
#[local] Hint Resolve keeps_scanOptional keeps_seekItemByID : keeps.

Lemma keeps_scan_loop values : forall i,
  forallb no_converter values = true -> keeps (scan_loop i values).
Proof.
  induction values as [|d values IH]; intros i Hv; cbn [scan_loop].
  - auto with keeps.
  - cbn [forallb] in Hv. apply andb_prop in Hv as [Hd Hvs].
    specialize (IH (i + 1) Hvs). keeps_all.
Qed.

Ltac split_outcome :=
  match goal with
  | |- match ?o with Ret _ _ => _ | Panic _ _ => _ end = _ -> _ =>
      destruct o as [? ?|? ?]; [|discriminate]
  end.

Lemma bind_get {B} (f : scanner -> M B) st : (get ≫= f) st = f (sc st) st.
Proof. reflexivity. Qed.

Lemma bind_run {A B} (m : M A) (f : A -> M B) st :
  (m ≫= f) st = match m st with Ret a st' => f a st' | Panic why st' => Panic why st' end.
Proof. reflexivity. Qed.

Lemma scan_loop_returned values : forall i st st1,
  scan_loop i values st = Ret true st1 -> err (sc st1) <> None.
Proof.
  induction values as [|d values IH]; intros i st st1; cbn [scan_loop].
  - intros [=].
  - rewrite bind_get, bind_run. split_outcome.
    rewrite bind_get.
    match goal with |- context [not_nil (err (sc ?s))] =>
      destruct (err (sc s)) eqn:He; cbn [not_nil] end.
    { intros [= <-]. congruence. }
    rewrite bind_run. split_outcome.
    rewrite bind_run. split_outcome.
    apply IH.
Qed.

(** A scan that answers nil, over destinations none of which is a
    [types.Scanner], has counted its destinations in [nextItem]. *)
Lemma scan_counts_values (values : list dest) (st st' : state) :
  forallb no_converter values = true ->
  scan values st = Ret None st' ->
  nextItem (sc st') = len values /\ err (sc st') = None.
Proof.
  intros Hv. unfold scan.
  unfold mbind at 1, M_bind at 1, get at 1.
  destruct (not_nil (err (sc st))) eqn:He.
  { unfold return_err, mbind, M_bind, get. intros [= Herr <-].
    rewrite Herr in He. discriminate He. }
  destruct (match columnIndexes (sc st) with
            | Some ci => negb (len ci =? len values) | None => false end).
  { unfold mbind, M_bind, return_err, get.
    destruct (errorf_sets_error (sc st) (mem st)
                "scan row failed: count of values and column are different" [])
      as (s1 & Hf & Hs1).
    destruct st as [s h]. cbn [sc mem] in Hf. rewrite Hf.
    intros [= Herr <-]. cbn [sc] in Herr. congruence. }
  destruct (ColumnCount (sc st) <? len values).
  { unfold mbind, M_bind, return_err, get.
    destruct (errorf_sets_error (sc st) (mem st)
                "scan row failed: count of columns less then values" [])
      as (s1 & Hf & Hs1).
    destruct st as [s h]. cbn [sc mem] in Hf. rewrite Hf.
    intros [= Herr <-]. cbn [sc] in Herr. congruence. }
  destruct (Z.eqb_spec (nextItem (sc st)) 0) as [Hn|Hn]; cbn [negb]; [|discriminate].
  pose proof (keeps_scan_loop values 0 Hv st) as Hk.
  pose proof (scan_loop_returned values 0 st) as Hret.
  unfold mbind, M_bind.
  destruct (scan_loop 0 values st) as [returned st1|why st1]; [|discriminate].
  destruct Hk as (Hni & _ & _).
  destruct returned.
  - unfold return_err, mbind, M_bind, get. intros [= Herr <-].
    exfalso. exact (Hret st1 eq_refl Herr).
  - unfold modify, return_err, mbind, M_bind, get. cbn [sc].
    intros [= Herr <-]. cbn [sc with_nextItem nextItem err].
    split; [rewrite Hni, Hn; lia|exact Herr].
Qed.

(** So a second scan of the row, after a first one that took at least
    one destination and answered nil, panics. *)
Lemma scan_then_scan_panics (first second : list dest) (st st1 : state) :
  forallb no_converter first = true -> first <> [] ->
  scan first st = Ret None st1 ->
  counts_fit (sc st1) second ->
  scan second st1 = Panic (panic_string "scan row failed: double scan per row") st1.
Proof.
  intros Hv Hne Hs Hc.
  destruct (scan_counts_values first st st1 Hv Hs) as [Hn He].
  destruct st1 as [s1 h1]. apply scan_twice_panics; [exact He| |exact Hc].
  cbn [sc] in Hn. rewrite Hn. unfold len. destruct first; [congruence|].
  cbn [length]. lia.
Qed.

End scanner_facts.

(** *** The scanner run on examples *)

Section scanner_examples.
Import Ydb golang scanner session example.
#[local] Open Scope Z_scope.
#[local] Existing Instance helpers.

Lemma scanner_errors_are_sticky_witness :
  let e : err_t := Errorf "no column %q" [ArgStr "title"] in
  let s := with_err (Some e)
             (new_scanner (one_column (primitive Type_INT32) [cell (Value_Int32Value 1)])) in
  let x := d_ptr t_int32 (Some 0%nat) in
  err s = Some e /\
  exists s',
    do_calls [call_NextRow; call_Scan [x]; call_errorf "TODO" []; call_ScanWithDefaults [x]]
      {| sc := s; mem := [v_int32 9] |}
    = Ret [ans_bool false; ans_err (Some e); ans_unit; ans_err (Some e)]
        {| sc := s'; mem := [v_int32 9] |} /\
    same_but_flag s s' /\ Err s' = Some e.
Proof.
  intros e s x. split; [reflexivity|].
  apply (proj1 (scanner_errors_are_sticky s [v_int32 9]
                  [call_NextRow; call_Scan [x]; call_errorf "TODO" [];
                   call_ScanWithDefaults [x]]) e).
  reflexivity.
Defined.

(** C3, the claim as stated fails: [x] held 42 before the scan of the
    Int32 cell 200 and holds 0 after it. *)
Lemma scan_int8_overflow_changes_destination :
  let before := [v_int8 42] in
  let overflow : err_t :=
    Errorf "overflow error: %d overflows capacity of %t"
      [ArgVal (op_int 200); ArgVal (op_zero t_int8)] in
  view ((NextRow;; Scan [d_ptr t_int8 (Some 0%nat)])
          {| sc := new_scanner (one_column (primitive Type_INT32)
                                  [cell (Value_Int32Value 200)]);
             mem := before |})
    = Some (Some overflow, Some overflow, [v_int8 0]) /\
  before !! 0%nat = Some (v_int8 42) /\
  v_int8 (Time := Time) (Value := types_Value) 0 <> v_int8 42.
Proof.
  split; [vm_compute; reflexivity|].
  split; [reflexivity|discriminate].
Qed.

(** C9, the claim as stated fails: after a first [Scan] that consumed
    one value with no error, a second [Scan] on the same row with more
    destinations than columns does not panic; it records an error and
    answers it. *)
Lemma second_scan_with_too_many_values_records_error :
  let a := d_ptr t_int32 (Some 0%nat) in
  let b := d_ptr t_int32 (Some 1%nat) in
  let counts : err_t :=
    Errorf "scan row failed: count of columns less then values" [] in
  view ((NextRow;;
         first ← Scan [a];
         consumed ← (fun st => Ret (nextItem (sc st)) st);
         second ← Scan [a; b];
         mret (first, consumed, second))
          {| sc := new_scanner (one_column (primitive Type_INT32)
                                  [cell (Value_Int32Value 1)]);
             mem := [v_int32 0; v_int32 0] |})
    = Some ((None, 1, Some counts), Some counts, [v_int32 1; v_int32 0]).
Proof. vm_compute. reflexivity. Qed.

Lemma second_scan_of_a_row_panics_witness :
  let a := d_ptr t_int32 (Some 0%nat) in
  let rs := one_column (primitive Type_INT32) [cell (Value_Int32Value 1)] in
  exists st,
    (NextRow;; Scan [a]) {| sc := new_scanner rs; mem := [v_int32 0] |} = Ret None st /\
    err (sc st) = None /\ nextItem (sc st) <> 0 /\ counts_fit (sc st) [a] /\
    ScanWithDefaults [a] st
      = Panic (panic_string "scan row failed: double scan per row")
          {| sc := with_defaultValueForOptional true (sc st); mem := mem st |}.
Proof.
  intros a rs. eexists. split; [vm_compute; reflexivity|].
  cbn [sc mem].
  split; [reflexivity|]. split; [discriminate|]. split; [split; [exact I|discriminate]|].
  refine (proj1 (second_scan_of_a_row_panics _ _ [a] true _ _ _)).
  - reflexivity.
  - discriminate.
  - split; [exact I|discriminate].
Defined.

(** C5, the failing run: a column Optional<Optional<String>>, a null
    cell, [Scan(&p)] with [p] a nil [*[4]byte]. The default case
    unwraps before [trySetByteArray] asks whether the cell is null:
    an "unexpected value" error is recorded and [p] is left pointing at
    a fresh zeroed array, not nil. *)
Theorem scan_null_of_nested_optional_into_array_pointer :
  let column := Optional (Optional (primitive Type_STRING)) in
  let unexpected : err_t :=
    Errorf "unexpected value during scan at %q %s: %s; want %s"
      [ArgStr "c"; ArgVal (op_Type (Some column));
       ArgStr (nameIface (iface_value Value_NullFlagValue));
       ArgStr (nameIface (iface_nil_of w_NestedValue))] in
  view ((NextRow;; Scan [d_ptr (t_ptr (t_array 4 t_uint8)) (Some 0%nat)])
          {| sc := new_scanner (one_column column [cell Value_NullFlagValue]);
             mem := [v_ptr None] |})
    = Some (Some unexpected, Some unexpected,
            [v_ptr (Some 1%nat); bytes_val [0; 0; 0; 0]]).
Proof. vm_compute. reflexivity. Qed.

(** The same destination over a column Optional<String> is set to nil,
    and so is a [**string] over the nested column. *)
Example scan_null_into_array_pointer :
  view ((NextRow;; Scan [d_ptr (t_ptr (t_array 4 t_uint8)) (Some 0%nat)])
          {| sc := new_scanner (one_column (Optional (primitive Type_STRING))
                                  [cell Value_NullFlagValue]);
             mem := [v_ptr (Some 0%nat)] |})
    = Some (None, None, [v_ptr None]) /\
  view ((NextRow;; Scan [d_ptr (t_ptr t_string) (Some 0%nat)])
          {| sc := new_scanner (one_column (Optional (Optional (primitive Type_STRING)))
                                  [cell Value_NullFlagValue]);
             mem := [v_ptr (Some 0%nat)] |})
    = Some (None, None, [v_ptr None]).
Proof. split; vm_compute; reflexivity. Qed.

End scanner_examples.

(** ** Retry engine *)

Section retry_facts.
Import table.
Context {E : Type}.

(** The errors of [TestRetryerImmediateReturn] are not retried. *)
Example immediate_return_errors_not_retriable :
  Forall (fun e : error E => retriable e = false)
    [NewOpError StatusGenericError;
     Errorf "wrap op error: %w" [ArgErr (NewOpError StatusGenericError)];
     NewTransportError TransportErrorPermissionDenied;
     Errorf "wrap transport error: %w"
       [ArgErr (NewTransportError TransportErrorPermissionDenied)];
     ErrorsNew "whoa"].
Proof. repeat constructor. Qed.

(** A wrapped error is classified as the error it wraps. *)
Lemma classify_wrapped (f : string) (args : list (fmtarg E)) (inner : error E) :
  Unwrap (Errorf f args) = Some inner -> classify (Errorf f args) = classify inner.
Proof.
  cbn [Unwrap classify]. destruct (wrap_verb_index f 0) as [i|]; [|discriminate].
  revert i. induction args as [|a args IH]; intros i H.
  - destruct i; discriminate H.
  - destruct i as [|i].
    + destruct a; try discriminate H. injection H as ->. reflexivity.
    + destruct a; apply IH; exact H.
Qed.

(** C6 as amended: when the context is not cancelled as [Do] is
    entered and the pool hands out a session, an operation that always
    answers a non-retriable error [e] is run exactly once, [Do] answers
    an error from which [e] is recovered by unwrapping (it is [e]
    itself, with nothing wrapped around it), the session is put back,
    and the backoff is never asked, for any fuel but zero. *)
Theorem Do_returns_non_retriable_at_once (e : error E) (w : world)
    (idempotent : bool) (fuel : nat) (s : Session) :
  retriable e = false ->
  ctx_err_at_entry w = None ->
  pool_Get w 0 = inl s ->
  (forall n s', op w n s' = Some e) ->
  exists r tr,
    Do w idempotent (S fuel) = Some (Some r, tr) /\
    r = e /\ errors_Is r e /\
    tr = [ev_Get; ev_op s; ev_Put s (mustCloseSession (classify e))] /\
    length (filter is_op tr) = 1 /\
    filter is_backoff tr = [].
Proof.
  intros Hr Hctx Hget Hop.
  exists e, [ev_Get; ev_op s; ev_Put s (mustCloseSession (classify e))].
  split; [|split; [reflexivity|split; [constructor|split; [reflexivity|split; reflexivity]]]].
  unfold Do. rewrite Hctx. cbn [Do_loop]. rewrite Hget, Hop.
  unfold retriable in Hr. rewrite Hr. reflexivity.
Qed.

End retry_facts.

Lemma Do_returns_non_retriable_at_once_witness :
  let e : error unit :=
    Errorf "wrap op error: %w" [ArgErr (NewOpError StatusGenericError)] in
  let w := {| table.ctx_err_at_entry := None;
              table.ctx_err_during_wait := fun _ => None;
              table.pool_Get := fun _ => inl 7;
              table.op := fun _ _ => Some e |} in
  exists r tr,
    table.Do w true 3 = Some (Some r, tr) /\
    r = e /\ errors_Is r e /\
    tr = [table.ev_Get; table.ev_op 7; table.ev_Put 7 false] /\
    length (filter table.is_op tr) = 1 /\
    filter table.is_backoff tr = [].
Proof.
  intros e w.
  apply (Do_returns_non_retriable_at_once e w true 2 7); reflexivity.
Defined.

(** C6, the claim as stated fails: on a context already cancelled, [Do]
    answers the context's error and the operation, which would always
    answer the non-retriable [e], is not run at all. *)
Lemma Do_on_cancelled_context_runs_nothing :
  let e : error unit := NewOpError StatusGenericError in
  let w := {| table.ctx_err_at_entry := Some ContextCanceled;
              table.ctx_err_during_wait := fun _ => None;
              table.pool_Get := fun _ => inl 7;
              table.op := fun _ _ => Some e |} in
  table.retriable e = false /\
  table.Do w true 5 = Some (Some ContextCanceled, []) /\
  ~ errors_Is (ContextCanceled : error unit) e.
Proof.
  intros e w. split; [reflexivity|]. split; [reflexivity|].
  intros H. inversion H; subst; discriminate.
Qed.

(** Nor is the operation run when the pool has no session to hand out
    and answers an error that is not retried: [Do] answers the pool's
    error. *)
Example Do_without_session_runs_nothing :
  let e : error unit := NewOpError StatusGenericError in
  let busy : error unit := ErrorsNew "pool is closed" in
  let w := {| table.ctx_err_at_entry := None;
              table.ctx_err_during_wait := fun _ => None;
              table.pool_Get := fun _ => inr busy;
              table.op := fun _ _ => Some e |} in
  table.retriable e = false /\
  table.Do w true 5 = Some (Some busy, [table.ev_Get]) /\
  ~ errors_Is busy e.
Proof.
  intros e busy w. split; [reflexivity|]. split; [reflexivity|].
  intros H. inversion H; subst; discriminate.
Qed.

(** ** More on the context endpoint *)

Section cluster_more.
Import cluster.

(** X1: an endpoint attached to a context is still read back after any
    number of values under other keys and derivations are laid over the
    context. *)
Theorem ContextEndpoint_survives_layers (layers : list layer) (ctx : Context)
    (e : endpoint) :
  ContextEndpoint (foldr lay (WithEndpoint ctx (Some e)) layers) = (Some e, true).
Proof.
  unfold ContextEndpoint.
  assert (H : Value (foldr lay (WithEndpoint ctx (Some e)) layers) ctxEndpointKey
              = anyEndpoint e).
  { induction layers as [|[id v|] layers IH]; simpl; auto. }
  rewrite H. reflexivity.
Qed.

(** X2: attaching the nil endpoint hides an endpoint attached before, under
    any such layers. *)
Theorem ContextEndpoint_nil_hides (layers : list layer) (ctx : Context) (e : Endpoint) :
  ContextEndpoint (foldr lay (WithEndpoint (WithEndpoint ctx e) None) layers)
    = (None, false).
Proof.
  unfold ContextEndpoint.
  assert (H : Value (foldr lay (WithEndpoint (WithEndpoint ctx e) None) layers)
                ctxEndpointKey = anyNil).
  { induction layers as [|[id v|] layers IH]; simpl; auto. }
  rewrite H. reflexivity.
Qed.

End cluster_more.

(** ** More on the lazy coordination client *)

Section ydb_more.
Import ydb.
Context {DB E : Type}.
Variable New : DB -> @Client E.

(** X3: the life of a lazy client: [init] installs a client where there is
    none and never replaces one; a [Close] after it reaches that client
    once; and the next [init] builds a client anew from the same
    database handle. *)
Theorem lazyCoordination_reinitialised (c : @lazyCoordination DB E)
    (ctx : cluster.Context) :
  let used := init New c in
  let closed := (Close used ctx).1.2 in
  (exists cl, client used = Some cl /\
              (client c = None -> cl = New (db c)) /\
              (forall cl0, client c = Some cl0 -> cl = cl0) /\
              Close used ctx = (client_Close cl ctx, closed, [CallClose (client_id cl) ctx])) /\
  init New used = used /\
  client closed = None /\
  init New closed = {| db := db c; client := Some (New (db c)) |}.
Proof.
  destruct c as [d [cl|]]; cbn.
  - split; [|auto]. exists cl. repeat split; [discriminate|congruence].
  - split; [|auto]. exists (New d). repeat split; congruence.
Qed.

End ydb_more.

(** ** More on the credentials chain *)

Section credentials_more.
Import credentials.
Context {E : Type}.
Implicit Types (c : @Credentials E) (cs xs ys : list (@Credentials E)).

Lemma flatten_same ctx cs :
  forallb not_empty_composite cs = true ->
  forall token err,
    (Token_loop (fun c => Token c ctx) (flatten cs) token err []).1 =
    (Token_loop (fun c => Token c ctx) cs token err []).1.
Proof.
  induction cs as [|c cs IH]; intros Hne token err; [reflexivity|].
  cbn [forallb] in Hne. apply andb_prop in Hne as [Hc Hcs].
  specialize (IH Hcs).
  destruct c as [f|a src|src|inner].
  1-3: cbn [flatten Token_loop];
       match goal with |- context [Token ?c ?x] => destruct (Token c x) as [t' [e'|]] end;
       [|reflexivity];
       rewrite (Token_loop_log _ (flatten cs) t' (Some e') _ []);
       rewrite (Token_loop_log _ cs t' (Some e') _ []); apply IH.
  assert (Hin : inner <> []) by (destruct inner; [discriminate Hc|discriminate]).
  cbn [flatten]. rewrite Token_loop_app by exact Hin.
  rewrite (Token_loop_start _ inner Hin token err "" None).
  cbn [Token_loop]. rewrite Token_multi. unfold multi_Token.
  destruct (Token_loop (fun c => Token c ctx) inner "" None []) as [[t' r] lg].
  cbn [fst snd]. destruct r as [e'|]; [|reflexivity].
  rewrite (Token_loop_log _ cs t' (Some e') _ []). apply IH.
Qed.

(** X4: splicing changes no answer: [MultiCredentials(cs...)] answers what
    asking [cs] in order would, each composite among them being asked as a
    whole, as long as none of those composites is empty. *)
Theorem MultiCredentials_answers_as_nested (ctx : cluster.Context) cs :
  forallb not_empty_composite cs = true ->
  Token (MultiCredentials cs) ctx = Token (multiCredentials cs) ctx.
Proof.
  intros Hne. unfold MultiCredentials. rewrite !Token_multi. unfold multi_Token.
  apply flatten_same. exact Hne.
Qed.

(** X5: the composites [MultiCredentials] builds from flat arguments are
    flat. *)
Theorem MultiCredentials_flat cs :
  forallb flat cs = true -> flat (MultiCredentials cs) = true.
Proof.
  unfold MultiCredentials. cbn [flat].
  induction cs as [|c cs IH]; intros Hf; [reflexivity|].
  cbn [forallb] in Hf. apply andb_prop in Hf as [Hc Hcs].
  destruct c as [f|a src|src|inner]; cbn [flatten forallb is_composite negb andb];
    try (apply IH; exact Hcs).
  rewrite forallb_app. cbn [flat] in Hc. rewrite Hc. apply IH. exact Hcs.
Qed.

(** X6: a chain that holds a static provider (an access token or anonymous
    credentials) never answers an error. *)
Theorem multiCredentials_with_static_never_fails (ctx : cluster.Context) cs c :
  In c cs -> static c = true ->
  (Token (multiCredentials cs) ctx).2 = None.
Proof.
  intros Hin Hs. rewrite Token_multi. unfold multi_Token.
  assert (H : forall token err log,
             (Token_loop (fun c => Token c ctx) cs token err log).1.2 = None);
    [|apply H].
  induction cs as [|x cs IH]; intros token err log; [destruct Hin|].
  cbn [Token_loop].
  destruct Hin as [->|Hin].
  - destruct c; try discriminate Hs; reflexivity.
  - destruct (Token x ctx) as [t' [e'|]]; [apply IH; exact Hin|reflexivity].
Qed.

End credentials_more.

(** ** Balancer states *)

Section state_facts.
Import state.
#[local] Open Scope Z_scope.

(** X7: the valid states are those strictly between [Created] and
    [Destroyed]; every state from [Created] to [Destroyed] has a name of
    its own, and the others are all "unknown". *)
Theorem State_names (s : State) :
  (IsValid s = true <-> Created < s < Destroyed) /\
  (String s = "unknown" <-> ~ (Created <= s <= Destroyed)) /\
  (forall s', Created <= s <= Destroyed -> String s = String s' -> s = s').
Proof.
  unfold IsValid, String, Created, Online, Banned, Offline, Destroyed.
  split; [|split].
  - destruct (Z.eqb_spec s 1), (Z.eqb_spec s 2), (Z.eqb_spec s 3); cbn; split; intros; lia || congruence.
  - destruct (Z.eqb_spec s 0), (Z.eqb_spec s 1), (Z.eqb_spec s 2), (Z.eqb_spec s 3),
      (Z.eqb_spec s 4); split; intros; try lia; try discriminate; try congruence.
  - intros s' Hs.
    destruct (Z.eqb_spec s 0), (Z.eqb_spec s 1), (Z.eqb_spec s 2), (Z.eqb_spec s 3),
      (Z.eqb_spec s 4); try lia;
    destruct (Z.eqb_spec s' 0), (Z.eqb_spec s' 1), (Z.eqb_spec s' 2), (Z.eqb_spec s' 3),
      (Z.eqb_spec s' 4); intros; try lia; try discriminate; try congruence.
Qed.

End state_facts.

(** ** More on the result scanner *)

Section scanner_more.
Import Ydb golang scanner session example.
#[local] Open Scope Z_scope.
Context `{X : Externals}.

Ltac crunch := cbv -[Nat.ltb Nat.eqb length insert lookup take app replicate
                     gval Time types_Value types_Type TypeFromYDB nameIface zeroTime
                     Z.ltb Z.leb Z.eqb].

(** *** Decoding into a destination of a direct type *)

(** X8: a cell whose oneof is of the kind the destination's reader asserts is
    written to the destination as it is; nothing else changes. *)
Theorem scanRequired_direct (s : scanner) (h : list gval) (t : golang.type)
    (l : loc) (ty : option Type') (c : Value) (v : gval) :
  on_cell s ty c -> decode t (Value_Value c) = Some v -> (l < length h)%nat ->
  scanRequired (d_ptr t (Some l)) {| sc := s; mem := h |}
    = Ret tt {| sc := s; mem := <[l := v]> h |}.
Proof.
  intros [Ht Hv] Hd Hl. apply Nat.ltb_lt in Hl.
  destruct s as [rs rw [kv kp [nm ki kt kvv]] nr ni ci dv er].
  cbn in Ht, Hv. subst kt kvv.
  destruct c as [[x|] items hi]; cbn in Hd;
    destruct t; try discriminate Hd;
    destruct x; try discriminate Hd; injection Hd as <-;
    crunch; rewrite Hl; reflexivity.
Qed.

(** X9: a cell of another kind records "unexpected value" with the path and
    type of the item, and the destination is set to zero. *)
Theorem scanRequired_direct_mismatch (s : scanner) (h : list gval) (t : golang.type)
    (l : loc) (ty : option Type') (c : Value) (ty' : types_Type) :
  direct t = true -> err s = None ->
  on_cell s ty c -> decode t (Value_Value c) = None ->
  TypeFromYDB ty = Some ty' -> (l < length h)%nat ->
  scanRequired (d_ptr t (Some l)) {| sc := s; mem := h |}
    = Ret tt {| sc := with_err (Some (unexpected_value (scanItem (stack s)) ty'
                                        (wrapper_of t))) s;
                mem := <[l := zero zeroTime t]> h |}.
Proof.
  intros Hdir He [Ht Hv] Hd Hty Hl. apply Nat.ltb_lt in Hl.
  destruct s as [rs rw [kv kp [nm ki kt kvv]] nr ni ci dv er].
  cbn in He, Ht, Hv. subst er kt kvv.
  destruct c as [[x|] items hi]; cbn in Hd;
    destruct t; try discriminate Hdir;
    try (destruct x; try discriminate Hd);
    crunch; rewrite Hty; crunch; rewrite Hl; reflexivity.
Qed.

(** *** Null cells under [ScanWithDefaults] *)

(** X10: with defaults, a null cell of an optional column sets a destination of
    any type the switch of [setDefaultValue] names to the zero value of
    that type, with no error. *)
Theorem scanOptional_default_on_null (s : scanner) (h : list gval) (t : golang.type)
    (l : loc) (inner : option Type') (c : Value) :
  default_named t = true ->
  defaultValueForOptional s = true ->
  on_optional_cell s inner c -> Value_Value c = Some Value_NullFlagValue ->
  (l < length h)%nat ->
  scanOptional (d_ptr t (Some l)) {| sc := s; mem := h |}
    = Ret tt {| sc := s; mem := <[l := zero zeroTime t]> h |}.
Proof.
  intros Ht Hd [Hct Hcv] Hnull Hl. apply Nat.ltb_lt in Hl.
  destruct s as [rs rw [kv kp [nm ki kt kvv]] nr ni ci dv er].
  cbn in Hd, Hct, Hcv. subst dv kt kvv.
  destruct c as [o items hi]. cbn in Hnull. subst o.
  assert (Harr : forall n e, default_named (t_array n e) = true -> n = 16%nat /\ e = t_uint8).
  { intros n e H. do 16 (destruct n as [|n]; [discriminate H|]).
    destruct n; [|discriminate H]. destruct e; try discriminate H. split; reflexivity. }
  destruct t; try discriminate Ht;
    try (apply Harr in Ht as [-> ->]);
    crunch; rewrite Hl; reflexivity.
Qed.

(** X11: [int] and [uint] are not among the types [setDefaultValue]
    names: with defaults, a null cell scanned into an [*int] or a [*uint]
    records "types ... is unknown" and leaves the destination alone. *)
Theorem scanOptional_default_int (s : scanner) (h : list gval) (t : golang.type)
    (p : option loc) (inner : option Type') (c : Value) :
  t = t_int \/ t = t_uint ->
  err s = None -> defaultValueForOptional s = true ->
  on_optional_cell s inner c -> Value_Value c = Some Value_NullFlagValue ->
  scanOptional (d_ptr t p) {| sc := s; mem := h |}
    = Ret tt {| sc := with_err (Some (unknown_type t)) s; mem := h |}.
Proof.
  intros Ht He Hd [Hct Hcv] Hnull.
  destruct s as [rs rw [kv kp [nm ki kt kvv]] nr ni ci dv er].
  cbn in He, Hd, Hct, Hcv. subst er dv kt kvv.
  destruct c as [o items hi]. cbn in Hnull. subst o.
  destruct Ht as [-> | ->]; destruct p; reflexivity.
Qed.

(** *** Byte arrays *)

Lemma scanRequired_array (n : nat) (p : option loc) (st : state) :
  n <> 16%nat ->
  scanRequired (d_ptr (t_array n t_uint8) p) st
    = (ok ← trySetByteArray (d_ptr (t_array n t_uint8) p) false false;
       if ok : bool then mret tt
       else errorf "scan row failed: types %T is unknown"
              [ArgVal (op_dst (TypeOf (d_ptr (t_array n t_uint8) p)))]) st.
Proof.
  intros Hn. unfold scanRequired.
  do 16 (destruct n as [|n]; [reflexivity|]).
  destruct n as [|n]; [congruence|reflexivity].
Qed.

(** X12: a String cell scanned into a byte array of another length than 16 is
    copied when it has the length of the array; when it has not, "types
    ... is unknown" is recorded and the array is left as it was. *)
Theorem scanRequired_bytes_into_array (s : scanner) (h : list gval) (n : nat)
    (l : loc) (b : list Z) (items : list Value) (hi : Z) :
  n <> 16%nat -> err s = None ->
  on_cell s (Some (mkType (Some (Type_TypeId Type_STRING))))
    (mkValue (Some (Value_BytesValue b)) items hi) ->
  (l < length h)%nat ->
  scanRequired (d_ptr (t_array n t_uint8) (Some l)) {| sc := s; mem := h |}
    = if (n =? length b)%nat
      then Ret tt {| sc := s; mem := <[l := bytes_val b]> h |}
      else Ret tt {| sc := with_err (Some (unknown_type (t_array n t_uint8))) s; mem := h |}.
Proof.
  intros Hn He [Ht Hv] Hl. rewrite scanRequired_array by exact Hn.
  apply Nat.ltb_lt in Hl.
  destruct s as [rs rw [kv kp [nm ki kt kvv]] nr ni ci dv er].
  cbn in He, Ht, Hv. subst er kt kvv.
  crunch.
  destruct (Nat.eqb_spec n (length b)) as [->|Hne]; cbn [negb].
  - crunch. rewrite Hl. rewrite firstn_all. reflexivity.
  - reflexivity.
Qed.

(** *** After an error in a row *)

(** X13: once a column has recorded an error the loop of [scan] returns at the
    next destination: the destinations that follow are not written. *)
Theorem scan_loop_after_error (s : scanner) (h : list gval) (e : err_t) (x : item)
    (i : Z) (d : dest) (rest : list dest) :
  err s = Some e -> stack_current (stack s) = Some x ->
  match columnIndexes s with Some ci => is_Some (index ci i) | None => True end ->
  scan_loop i (d :: rest) {| sc := s; mem := h |} = Ret true {| sc := s; mem := h |}.
Proof.
  intros He Hx Hci.
  assert (Hseek : forall id, seekItemByID id {| sc := s; mem := h |}
                             = Ret tt {| sc := s; mem := h |}).
  { intros id. unfold seekItemByID, mbind at 1, M_bind at 1, get at 1. cbn [sc].
    unfold hasItems. rewrite He. cbn [not_nil negb andb orb].
    unfold noValueError, path, current, mbind, M_bind, get. cbn [sc]. rewrite Hx.
    apply (errorf_keeps_first s h _ _ e He). }
  cbn [scan_loop]. unfold mbind at 1, M_bind at 1, get at 1. cbn [sc].
  destruct (columnIndexes s) as [ci|].
  - destruct Hci as [id Hid]. rewrite Hid.
    unfold mbind, M_bind, get. rewrite Hseek. cbn [sc]. rewrite He. reflexivity.
  - unfold mbind, M_bind, get. rewrite Hseek. cbn [sc]. rewrite He. reflexivity.
Qed.

(** *** Optional columns in [Scan] mode, cells that are not null *)

(** X14: in [Scan] mode a cell that is not null is decoded into a fresh
    variable and the destination is pointed at it: what the destination
    pointed at before is not written. *)
Theorem scanOptional_double_pointer_fresh (s : scanner) (h : list gval)
    (t : golang.type) (l : loc) (inner : option Type') (c : Value) (v : gval) :
  defaultValueForOptional s = false ->
  on_optional_cell s inner c -> decode t (Value_Value c) = Some v ->
  (l < length h)%nat ->
  scanOptional (d_ptr (t_ptr t) (Some l)) {| sc := s; mem := h |}
    = Ret tt {| sc := s; mem := <[l := v_ptr (Some (length h))]> (h ++ [v]) |}.
Proof.
  intros Hd [Hct Hcv] Hdec Hl.
  assert (Hl' : (l <? length (h ++ [v]))%nat = true).
  { apply Nat.ltb_lt. rewrite length_app. lia. }
  destruct s as [rs rw [kv kp [nm ki kt kvv]] nr ni ci dv er].
  cbn in Hd, Hct, Hcv. subst dv kt kvv.
  destruct c as [[x|] items hi]; cbn in Hdec;
    destruct t; try discriminate Hdec;
    destruct x; try discriminate Hdec; injection Hdec as <-;
    crunch; rewrite Hl'; reflexivity.
Qed.

(** *** The stack of the converter *)

(** X18: what [set] puts at the current depth is what [current] reads there
    when no item is under scan. *)
Theorem stack_set_current (k : scanStack) (x : item) :
  0 <= stack_p k <= len (stack_v k) -> isEmpty (scanItem k) = true ->
  exists k', stack_set x k = Some k' /\ stack_current k' = Some x /\
             stack_p k' = stack_p k.
Proof.
  intros Hp He. unfold stack_set.
  destruct (Z.eqb_spec (stack_p k) (len (stack_v k))) as [Heq|Hne].
  - eexists. split; [reflexivity|]. split; [|reflexivity].
    unfold stack_current. cbn [scanItem stack_v stack_p]. rewrite He. cbn [negb].
    destruct (stack_v k ++ [x]) eqn:Happ; [destruct (stack_v k); discriminate Happ|].
    rewrite <- Happ. unfold index.
    destruct (Z.ltb_spec (stack_p k) 0); [lia|].
    rewrite Heq. unfold len. rewrite Nat2Z.id.
    rewrite lookup_app_r by lia. rewrite Nat.sub_diag. reflexivity.
  - destruct (Z.ltb_spec (stack_p k) 0); [lia|].
    destruct (Z.leb_spec (len (stack_v k)) (stack_p k)); [lia|]. cbn [orb].
    eexists. split; [reflexivity|]. split; [|reflexivity].
    unfold stack_current. cbn [scanItem stack_v stack_p]. rewrite He. cbn [negb].
    assert (Hlt : (Z.to_nat (stack_p k) < length (stack_v k))%nat) by (unfold len in *; lia).
    destruct (<[Z.to_nat (stack_p k):=x]> (stack_v k)) eqn:Hins.
    { apply (f_equal length) in Hins. rewrite length_insert in Hins. cbn in Hins. lia. }
    rewrite <- Hins. unfold index.
    destruct (Z.ltb_spec (stack_p k) 0); [lia|].
    apply list_lookup_insert_eq. exact Hlt.
Qed.

(** X19: [enter] then [leave] comes back to the depth it started from, when
    the depth is within the stack and below the largest [int8], and an
    item is under scan or the stack goes deeper than the depth. *)
Theorem stack_enter_leave (k : scanStack) :
  0 <= stack_p k <= len (stack_v k) -> stack_p k < 127 ->
  isEmpty (scanItem k) = false \/ stack_p k < len (stack_v k) ->
  exists k1 k2,
    stack_enter k = Some k1 /\ stack_p k1 = stack_p k + 1 /\
    isEmpty (scanItem k1) = true /\
    stack_leave k1 = Some k2 /\ stack_p k2 = stack_p k.
Proof.
  intros Hp Hmax Hroom.
  assert (Hs8 : to_signed 8 (stack_p k + 1) = stack_p k + 1).
  { unfold to_signed. change (2 ^ 8) with 256. change (2 ^ (8 - 1)) with 128.
    rewrite Z.mod_small by lia. destruct (Z.ltb_spec (stack_p k + 1) 128); lia. }
  assert (Hset : exists k', (if negb (isEmpty (scanItem k))
                             then stack_set (scanItem k) k else Some k) = Some k' /\
                            stack_p k' = stack_p k /\
                            stack_p k + 1 <= len (stack_v k')).
  { destruct (isEmpty (scanItem k)) eqn:He; cbn [negb].
    - exists k. destruct Hroom as [Hr|Hr]; [discriminate Hr|]. repeat split. lia.
    - unfold stack_set.
      destruct (Z.eqb_spec (stack_p k) (len (stack_v k))) as [Heq|Hne].
      + eexists. split; [reflexivity|]. cbn [stack_p stack_v]. split; [reflexivity|].
        unfold len in *. rewrite length_app. cbn [length]. lia.
      + destruct (Z.ltb_spec (stack_p k) 0); [lia|].
        destruct (Z.leb_spec (len (stack_v k)) (stack_p k)); [lia|]. cbn [orb].
        eexists. split; [reflexivity|]. cbn [stack_p stack_v]. split; [reflexivity|].
        unfold len in *. rewrite length_insert. lia. }
  destruct Hset as (k' & Hk' & Hp' & Hlen).
  assert (Hleave : exists k2,
            stack_leave {| stack_v := stack_v k'; stack_p := stack_p k + 1;
                           scanItem := emptyItem |} = Some k2 /\
            stack_p k2 = stack_p k).
  { unfold stack_leave, stack_set. cbn [stack_p stack_v scanItem].
    destruct (Z.eqb_spec (stack_p k + 1) (len (stack_v k'))) as [Heq|Hne].
    - cbn [mbind option_bind stack_p]. destruct (Z.ltb_spec 0 (stack_p k + 1)); [|lia].
      eexists. split; [reflexivity|]. cbn [stack_p]. lia.
    - destruct (Z.ltb_spec (stack_p k + 1) 0); [lia|].
      destruct (Z.leb_spec (len (stack_v k')) (stack_p k + 1)); [lia|].
      cbn [orb mbind option_bind stack_p]. destruct (Z.ltb_spec 0 (stack_p k + 1)); [|lia].
      eexists. split; [reflexivity|]. cbn [stack_p]. lia. }
  destruct Hleave as (k2 & Hk2 & Hp2).
  exists {| stack_v := stack_v k'; stack_p := stack_p k + 1; scanItem := emptyItem |}, k2.
  split.
  { unfold stack_enter. rewrite Hk'. cbn [mbind option_bind]. rewrite Hp', Hs8. reflexivity. }
  auto.
Qed.

(** *** Rows *)

Lemma NextRow_advances (s : scanner) h rs v :
  err s = None -> set s = Some rs -> 0 <= nextRow s ->
  Rows rs !! Z.to_nat (nextRow s) = Some v ->
  NextRow {| sc := s; mem := h |}
    = Ret true {| sc := {| set := set s; row := Some v; stack := stack_reset (stack s);
                           nextRow := nextRow s + 1; nextItem := 0;
                           columnIndexes := columnIndexes s;
                           defaultValueForOptional := defaultValueForOptional s;
                           err := err s |};
                  mem := h |}.
Proof.
  intros He Hs Hn Hv.
  assert (Hlt : nextRow s < len (Rows rs)).
  { apply lookup_lt_Some in Hv. unfold len. lia. }
  unfold NextRow, HasNextRow, mbind, M_bind, get. cbn [sc].
  rewrite He, Hs. cbn [not_nil negb andb].
  apply Z.ltb_lt in Hlt. rewrite Hlt. cbn [negb].
  unfold index. destruct (Z.ltb_spec (nextRow s) 0); [lia|].
  rewrite Hv. reflexivity.
Qed.

Lemma NextRow_at_end (s : scanner) h rs :
  set s = Some rs -> len (Rows rs) <= nextRow s ->
  NextRow {| sc := s; mem := h |} = Ret false {| sc := s; mem := h |}.
Proof.
  intros Hs Hn.
  unfold NextRow, HasNextRow, mbind, M_bind, get. cbn [sc].
  rewrite Hs. apply Z.ltb_ge in Hn. rewrite Hn.
  rewrite andb_false_r. reflexivity.
Qed.

Lemma visit_rows_from (fuel : nat) : forall (s : scanner) h rs,
  err s = None -> set s = Some rs -> 0 <= nextRow s <= len (Rows rs) ->
  (length (Rows rs) - Z.to_nat (nextRow s) < fuel)%nat ->
  exists s',
    visit_rows fuel {| sc := s; mem := h |}
      = Ret (length (Rows rs) - Z.to_nat (nextRow s))%nat {| sc := s'; mem := h |} /\
    nextRow s' = len (Rows rs) /\ err s' = None /\ set s' = Some rs /\
    (nextRow s < len (Rows rs) -> row s' = last (Rows rs) /\ nextItem s' = 0).
Proof.
  induction fuel as [|fuel IH]; intros s h rs He Hs Hn Hf; [lia|].
  cbn [visit_rows]. unfold mbind at 1, M_bind at 1.
  destruct (Z.eq_dec (nextRow s) (len (Rows rs))) as [Hend|Hmore].
  - rewrite (NextRow_at_end s h rs Hs) by lia.
    exists s. replace (length (Rows rs) - Z.to_nat (nextRow s))%nat with O
      by (unfold len in Hend; lia).
    split; [reflexivity|]. split; [exact Hend|]. split; [exact He|].
    split; [exact Hs|]. intros Hlt. lia.
  - assert (Hv : exists v, Rows rs !! Z.to_nat (nextRow s) = Some v).
    { apply lookup_lt_is_Some_2. unfold len in *. lia. }
    destruct Hv as [v Hv].
    rewrite (NextRow_advances s h rs v He Hs) by (lia || exact Hv).
    unfold mbind, M_bind.
    match goal with |- context [visit_rows fuel {| sc := ?s1; mem := h |}] =>
      destruct (IH s1 h rs) as (s' & Hrun & Hnr & He' & Hs' & Hlast);
        [exact He|exact Hs|cbn [nextRow]; lia
        |cbn [nextRow]; unfold len in *; lia|] end.
    cbn [nextRow] in Hrun, Hlast.
    rewrite Hrun. exists s'. split.
    + f_equal. unfold len in *. lia.
    + repeat split; auto.
      * destruct (Z.eq_dec (nextRow s + 1) (len (Rows rs))) as [Hl|Hl].
        -- (* the row just entered was the last *)
           clear Hlast IH.
           revert Hrun. destruct fuel as [|fuel]; [unfold len in *; lia|].
           cbn [visit_rows]. unfold mbind at 1, M_bind at 1.
           rewrite NextRow_at_end with (rs := rs); [|exact Hs|cbn [nextRow]; lia].
           intros [= _ <-]. cbn [row].
           rewrite last_lookup. rewrite <- Hv. f_equal. unfold len in *. lia.
        -- apply Hlast. lia.
      * destruct (Z.eq_dec (nextRow s + 1) (len (Rows rs))) as [Hl|Hl].
        -- revert Hrun. destruct fuel as [|fuel]; [unfold len in *; lia|].
           cbn [visit_rows]. unfold mbind at 1, M_bind at 1.
           rewrite NextRow_at_end with (rs := rs); [|exact Hs|cbn [nextRow]; lia].
           intros [= _ <-]. reflexivity.
        -- apply Hlast. lia.
Qed.

(** X20: the loop [for res.NextRow() { ... }] over a scanner fresh on a result
    set visits as many rows as the set has and stops with the last row
    current, no error, and the store as it was. *)
Theorem NextRow_visits_every_row (rs : ResultSet) (h : list gval) (fuel : nat) :
  (length (Rows rs) < fuel)%nat ->
  exists s',
    visit_rows fuel {| sc := new_scanner rs; mem := h |}
      = Ret (length (Rows rs)) {| sc := s'; mem := h |} /\
    RowCount s' = len (Rows rs) /\ Err s' = None /\
    (Rows rs <> [] -> row s' = last (Rows rs)) /\
    NextRow {| sc := s'; mem := h |} = Ret false {| sc := s'; mem := h |}.
Proof.
  intros Hf.
  destruct (visit_rows_from fuel (new_scanner rs) h rs eq_refl eq_refl)
    as (s' & Hrun & Hnr & He & Hs & Hlast).
  { cbn [nextRow new_scanner]. unfold len. lia. }
  { cbn [nextRow new_scanner]. lia. }
  exists s'. cbn [nextRow new_scanner] in Hrun, Hlast.
  rewrite Nat.sub_0_r in Hrun. split; [exact Hrun|].
  split; [unfold RowCount; rewrite Hs; reflexivity|].
  split; [exact He|]. split.
  - intros Hne. apply Hlast. unfold len. destruct (Rows rs); [congruence|cbn; lia].
  - apply NextRow_at_end with (rs := rs); [exact Hs|lia].
Qed.

(** *** The count checks of a scan *)

(** X21: a scan whose destinations do not match the selected columns in
    number, or outnumber the columns, records the error of that check and
    answers it; it writes nothing, consumes nothing, and does so even on
    a row that was scanned already. *)
Theorem scan_checks_counts (s : scanner) (h : list gval) (values : list dest) :
  err s = None ->
  (forall ci, columnIndexes s = Some ci -> len ci <> len values ->
     let e := Errorf "scan row failed: count of values and column are different" [] in
     scan values {| sc := s; mem := h |}
       = Ret (Some e) {| sc := with_err (Some e) s; mem := h |}) /\
  (match columnIndexes s with Some ci => len ci = len values | None => True end ->
   ColumnCount s < len values ->
     let e := Errorf "scan row failed: count of columns less then values" [] in
     scan values {| sc := s; mem := h |}
       = Ret (Some e) {| sc := with_err (Some e) s; mem := h |}).
Proof.
  intros He. split.
  - intros ci Hci Hne e.
    unfold scan, mbind, M_bind, get. cbn [sc]. rewrite He, Hci. cbn [not_nil].
    apply Z.eqb_neq in Hne. rewrite Hne. cbn [negb].
    unfold errorf, mbind, M_bind, get. cbn [sc]. rewrite He. reflexivity.
  - intros Hci Hcc e.
    unfold scan, mbind, M_bind, get. cbn [sc]. rewrite He. cbn [not_nil].
    replace (match columnIndexes s with
             | Some ci => negb (len ci =? len values) | None => false end) with false.
    2:{ destruct (columnIndexes s); [|reflexivity]. rewrite Hci, Z.eqb_refl. reflexivity. }
    apply Z.ltb_lt in Hcc. rewrite Hcc.
    unfold errorf, mbind, M_bind, get. cbn [sc]. rewrite He. reflexivity.
Qed.

(** *** A scan with no current row *)

(** X22: a scan with at least one destination on a scanner that has no
    current row (before the first [NextRow], say) records "no value at"
    with the path of the current item and writes nothing. *)
Theorem scan_without_row (s : scanner) (h : list gval) (d : dest) (rest : list dest)
    (x : item) :
  err s = None -> row s = None -> nextItem s = 0 ->
  counts_fit s (d :: rest) ->
  stack_current (stack s) = Some x ->
  let e := Errorf "no value at %q" [ArgStr (item_name x)] in
  scan (d :: rest) {| sc := s; mem := h |}
    = Ret (Some e) {| sc := with_err (Some e) s; mem := h |}.
Proof.
  intros He Hr Hn [Hci Hcc] Hx e.
  destruct s as [rs rw k nr ni ci dv er]. cbn in He, Hr, Hn, Hci, Hx. subst er rw ni.
  unfold scan, mbind at 1, M_bind at 1, get at 1. cbn [sc err not_nil columnIndexes nextItem].
  replace (match ci with
           | Some ci0 => negb (len ci0 =? len (d :: rest)) | None => false end) with false.
  2:{ destruct ci; [|reflexivity]. rewrite Hci, Z.eqb_refl. reflexivity. }
  apply Z.ltb_ge in Hcc. rewrite Hcc. cbn [Z.eqb negb].
  cbn [scan_loop].
  assert (Hseek : forall id,
    seekItemByID id {| sc := {| set := rs; row := None; stack := k; nextRow := nr;
                                nextItem := 0; columnIndexes := ci;
                                defaultValueForOptional := dv; err := None |};
                       mem := h |}
    = Ret tt {| sc := {| set := rs; row := None; stack := k; nextRow := nr;
                         nextItem := 0; columnIndexes := ci;
                         defaultValueForOptional := dv; err := Some e |};
                mem := h |}).
  { intros id. unfold seekItemByID, mbind at 1, M_bind at 1, get at 1.
    unfold hasItems. cbn [sc err row not_nil negb andb orb]. rewrite andb_false_r.
    cbn [negb orb].
    unfold noValueError, path, current, errorf, mbind, M_bind, get. cbn [sc stack].
    rewrite Hx. reflexivity. }
  destruct ci as [ci|].
  - assert (Hid : exists id, index ci 0 = Some id).
    { unfold index. cbn. destruct ci; [discriminate Hci|eauto]. }
    destruct Hid as [id Hid].
    unfold mbind, M_bind, get. cbn [sc columnIndexes]. rewrite Hid, Hseek. reflexivity.
  - unfold mbind, M_bind, get. cbn [sc columnIndexes]. rewrite Hseek. reflexivity.
Qed.

(** *** [reset] and [Truncated] *)

(** X23: [reset] does not clear a recorded error: after it the scanner still
    reports the error and has no next row, whatever the new result set
    and column names. *)
Theorem reset_keeps_error (s : scanner) (h : list gval) (rs : ResultSet)
    (columnNames : option (list string)) (e : err_t) :
  err s = Some e ->
  exists s',
    reset (Some rs) columnNames {| sc := s; mem := h |} = Ret tt {| sc := s'; mem := h |} /\
    Err s' = Some e /\ set s' = Some rs /\ HasNextRow s' = false /\
    NextRow {| sc := s'; mem := h |} = Ret false {| sc := s'; mem := h |}.
Proof.
  intros He.
  assert (Hloop : forall names i (s0 : scanner),
            err s0 = Some e -> set s0 = Some rs ->
            exists s1, setColumnIndexes_loop names i {| sc := s0; mem := h |}
                       = Ret tt {| sc := s1; mem := h |} /\
                       err s1 = Some e /\ set s1 = Some rs).
  { induction names as [|n names IH]; intros i s0 He0 Hs0; cbn [setColumnIndexes_loop].
    - exists s0. auto.
    - unfold mbind at 1, M_bind at 1, get at 1. cbn [sc]. rewrite Hs0.
      destruct (find_column (Columns rs) n 0) as [j|].
      + unfold mbind, M_bind, modify. cbn [sc mem]. apply IH; [exact He0|exact Hs0].
      + exists s0. unfold noColumnError.
        rewrite (errorf_keeps_first s0 h _ _ e He0). auto. }
  destruct columnNames as [names|].
  - destruct (Hloop names O
                (with_columnIndexes (Some (replicate (length names) 0))
                   {| set := Some rs; row := None; stack := stack s; nextRow := 0;
                      nextItem := 0; columnIndexes := None;
                      defaultValueForOptional := true; err := err s |}))
      as (s1 & Hrun & He1 & Hs1); [exact He|reflexivity|].
    exists (with_stack (stack_reset (stack s1)) s1).
    split.
    { unfold reset, setColumnIndexes, mbind, M_bind, modify. cbn [sc mem].
      unfold mbind, M_bind, modify in Hrun. cbn [sc mem] in Hrun. rewrite Hrun.
      reflexivity. }
    split; [exact He1|]. split; [exact Hs1|].
    assert (Hh : HasNextRow (with_stack (stack_reset (stack s1)) s1) = false).
    { unfold HasNextRow. cbn [err with_stack]. rewrite He1. reflexivity. }
    split; [exact Hh|].
    apply NextRow_after_error with (e := e). exact He1.
  - exists (with_stack (stack_reset (stack s))
              (with_columnIndexes None
                 {| set := Some rs; row := None; stack := stack s; nextRow := 0;
                    nextItem := 0; columnIndexes := None;
                    defaultValueForOptional := true; err := err s |})).
    split; [reflexivity|].
    split; [exact He|]. split; [reflexivity|].
    split; [unfold HasNextRow; cbn [err with_stack with_columnIndexes];
            rewrite He; reflexivity|].
    apply NextRow_after_error with (e := e). exact He.
Qed.

(** X24: [Truncated] on a scanner that has no result set answers false
    and leaves an error recorded: on a scanner without error it records
    "there are no sets in the scanner", and a [Scan] that follows
    answers that error. With a result set it answers the set's flag and
    changes nothing. *)
Theorem Truncated_without_set (s : scanner) (h : list gval) :
  (set s = None ->
     exists s', Truncated {| sc := s; mem := h |} = Ret false {| sc := s'; mem := h |} /\
                Err s' <> None) /\
  (set s = None -> err s = None ->
     let e := Errorf "there are no sets in the scanner" [] in
     Truncated {| sc := s; mem := h |}
       = Ret false {| sc := with_err (Some e) s; mem := h |} /\
     forall values,
       (Truncated ≫= fun t : bool => Scan values ≫= fun r => mret (t, r))
         {| sc := s; mem := h |}
       = Ret (false, Some e)
           {| sc := with_defaultValueForOptional false (with_err (Some e) s);
              mem := h |}) /\
  (forall rs, set s = Some rs ->
     Truncated {| sc := s; mem := h |} = Ret (Ydb.Truncated rs) {| sc := s; mem := h |}).
Proof.
  split; [|split].
  - intros Hs.
    destruct (errorf_sets_error s h "there are no sets in the scanner" [])
      as (s' & Hf & He).
    exists s'. split; [|exact He].
    unfold Truncated, mbind, M_bind, get. cbn [sc]. rewrite Hs, Hf. reflexivity.
  - intros Hs He e.
    assert (Ht : Truncated {| sc := s; mem := h |}
                 = Ret false {| sc := with_err (Some e) s; mem := h |}).
    { unfold Truncated, mbind, M_bind, get. cbn [sc]. rewrite Hs.
      rewrite (errorf_records s h _ _ He). reflexivity. }
    split; [exact Ht|]. intros values.
    unfold mbind at 1, M_bind at 1. rewrite Ht.
    unfold mbind, M_bind.
    rewrite (Scan_after_error (with_err (Some e) s) h e values eq_refl).
    reflexivity.
  - intros rs Hs. unfold Truncated, mbind, M_bind, get. cbn [sc]. rewrite Hs. reflexivity.
Qed.

(** *** Columns selected by name *)

Lemma find_column_from (cols : list Column) (name : string) : forall j0,
  match find_column cols name j0 with
  | Some j =>
      exists (k : nat) c,
        j = j0 + Z.of_nat k /\ cols !! k = Some c /\ Name c = name /\
        forall (k' : nat) c', (k' < k)%nat -> cols !! k' = Some c' -> Name c' <> name
  | None => forall (k : nat) c, cols !! k = Some c -> Name c <> name
  end.
Proof.
  induction cols as [|c cols IH]; intros j0; cbn [find_column].
  - intros k c H. destruct k; discriminate H.
  - destruct (String.eqb_spec (Name c) name) as [Heq|Hne].
    + exists O, c. repeat split; [lia|exact Heq|]. intros k' c' Hk. lia.
    + specialize (IH (j0 + 1)). destruct (find_column cols name (j0 + 1)) as [j|].
      * destruct IH as (k & c0 & -> & Hk & Hn & Hfirst).
        exists (S k), c0. repeat split; [lia|exact Hk|exact Hn|].
        intros [|k'] c' Hlt Hc'; [injection Hc' as <-; exact Hne|].
        apply (Hfirst k' c'); [lia|exact Hc'].
      * intros [|k] c0 Hc0; [injection Hc0 as <-; exact Hne|]. apply (IH k c0 Hc0).
Qed.

(** X25: [find_column] answers the index of the first column of the name, and
    nothing exactly when no column has it. *)
Theorem find_column_first (cols : list Column) (name : string) :
  match find_column cols name 0 with
  | Some j =>
      0 <= j /\
      exists c, cols !! Z.to_nat j = Some c /\ Name c = name /\
      forall (k : nat) c', (k < Z.to_nat j)%nat -> cols !! k = Some c' -> Name c' <> name
  | None => forall (k : nat) c, cols !! k = Some c -> Name c <> name
  end.
Proof.
  pose proof (find_column_from cols name 0) as H.
  destruct (find_column cols name 0) as [j|]; [|exact H].
  destruct H as (k & c & -> & Hk & Hn & Hfirst).
  split; [lia|]. exists c. replace (Z.to_nat (0 + Z.of_nat k)) with k by lia.
  auto.
Qed.

Lemma setColumnIndexes_loop_found (rs : ResultSet) h (names : list string) :
  forall (js done : list Z) (s : scanner),
    set s = Some rs ->
    columnIndexes s = Some (done ++ replicate (length names) 0) ->
    Forall2 (fun n j => find_column (Columns rs) n 0 = Some j) names js ->
    setColumnIndexes_loop names (length done) {| sc := s; mem := h |}
      = Ret tt {| sc := with_columnIndexes (Some (done ++ js)) s; mem := h |}.
Proof.
  induction names as [|n names IH]; intros js done s Hs Hci Hf.
  - inversion Hf; subst. cbn [setColumnIndexes_loop length replicate] in *.
    rewrite app_nil_r in *. destruct s. cbn in Hci. subst. reflexivity.
  - inversion Hf as [|? j ? js' Hj Hrest]; subst.
    cbn [setColumnIndexes_loop]. unfold mbind at 1, M_bind at 1, get at 1. cbn [sc].
    rewrite Hs, Hj. unfold mbind, M_bind, modify. cbn [sc mem].
    rewrite Hci. cbn [default from_option length replicate]. unfold id.
    rewrite insert_app_r_alt by lia. rewrite Nat.sub_diag. cbn [insert list_insert].
    specialize (IH js' (done ++ [j])
                  (with_columnIndexes (Some (done ++ j :: replicate (length names) 0)) s)).
    rewrite length_app in IH. cbn [length] in IH. rewrite Nat.add_1_r in IH.
    rewrite IH; [|exact Hs|cbn; rewrite <- app_assoc; reflexivity|exact Hrest].
    rewrite <- app_assoc. destruct s. reflexivity.
Qed.

(** X26: [setColumnIndexes] with names that are all columns of the result set
    selects, for each name in order, the first column of that name, and
    records no error. *)
Theorem setColumnIndexes_selects (s : scanner) (h : list gval) (rs : ResultSet)
    (names : list string) (js : list Z) :
  set s = Some rs ->
  Forall2 (fun n j => find_column (Columns rs) n 0 = Some j) names js ->
  setColumnIndexes (Some names) {| sc := s; mem := h |}
    = Ret tt {| sc := with_columnIndexes (Some js) s; mem := h |}.
Proof.
  intros Hs Hf.
  change (setColumnIndexes (Some names) {| sc := s; mem := h |})
    with (setColumnIndexes_loop names (length (@nil Z))
            {| sc := with_columnIndexes (Some (replicate (length names) 0)) s; mem := h |}).
  rewrite (setColumnIndexes_loop_found rs h names js []
             (with_columnIndexes (Some (replicate (length names) 0)) s) Hs eq_refl Hf).
  destruct s. reflexivity.
Qed.

(** X27: at the first name that is no column, [setColumnIndexes] records "no
    column" with that name and stops: the names after it are not looked
    up and their indexes stay 0. *)
Theorem setColumnIndexes_missing (s : scanner) (h : list gval) (rs : ResultSet)
    (found : list string) (js : list Z) (name : string) (later : list string) :
  set s = Some rs -> err s = None ->
  Forall2 (fun n j => find_column (Columns rs) n 0 = Some j) found js ->
  find_column (Columns rs) name 0 = None ->
  setColumnIndexes (Some (found ++ name :: later)) {| sc := s; mem := h |}
    = Ret tt {| sc := with_err (Some (Errorf "no column %q" [ArgStr name]))
                        (with_columnIndexes
                           (Some (js ++ replicate (S (length later)) 0)) s);
                mem := h |}.
Proof.
  intros Hs He Hf Hn.
  assert (Hloop : forall found js done (s0 : scanner),
    set s0 = Some rs -> err s0 = None ->
    columnIndexes s0 = Some (done ++ replicate (length (found ++ name :: later)) 0) ->
    Forall2 (fun n j => find_column (Columns rs) n 0 = Some j) found js ->
    setColumnIndexes_loop (found ++ name :: later) (length done) {| sc := s0; mem := h |}
      = Ret tt {| sc := with_err (Some (Errorf "no column %q" [ArgStr name]))
                          (with_columnIndexes
                             (Some (done ++ js ++ replicate (S (length later)) 0)) s0);
                  mem := h |}).
  { clear found js Hf s Hs He.
    induction found as [|n found IH]; intros js done s0 Hs0 He0 Hci Hf.
    - inversion Hf; subst. cbn [app setColumnIndexes_loop].
      unfold mbind at 1, M_bind at 1, get at 1. cbn [sc]. rewrite Hs0, Hn.
      unfold noColumnError. rewrite (errorf_records s0 h _ _ He0).
      cbn [app length] in Hci. destruct s0. cbn in Hci. subst. reflexivity.
    - inversion Hf as [|? j ? js' Hj Hrest]; subst.
      cbn [app setColumnIndexes_loop]. unfold mbind at 1, M_bind at 1, get at 1. cbn [sc].
      rewrite Hs0, Hj. unfold mbind, M_bind, modify. cbn [sc mem].
      rewrite Hci. cbn [default from_option length replicate app]. unfold id.
      rewrite insert_app_r_alt by lia. rewrite Nat.sub_diag. cbn [insert list_insert].
      specialize (IH js' (done ++ [j])
        (with_columnIndexes
           (Some (done ++ j :: replicate (length (found ++ name :: later)) 0)) s0)).
      replace (length (done ++ [j])) with (S (length done)) in IH
        by (rewrite length_app; cbn [length]; lia).
      rewrite IH; [|exact Hs0|exact He0|cbn; rewrite <- app_assoc; reflexivity|exact Hrest].
      rewrite <- app_assoc. destruct s0. reflexivity. }
  change (setColumnIndexes (Some (found ++ name :: later)) {| sc := s; mem := h |})
    with (setColumnIndexes_loop (found ++ name :: later) (length (@nil Z))
            {| sc := with_columnIndexes
                       (Some (replicate (length (found ++ name :: later)) 0)) s;
               mem := h |}).
  rewrite (Hloop found js []
             (with_columnIndexes (Some (replicate (length (found ++ name :: later)) 0)) s)
             Hs He eq_refl Hf).
  destruct s. reflexivity.
Qed.


(** *** A whole scan *)

Lemma seekItemByID_found (s : scanner) h rs rw (j : Z) col c :
  err s = None -> set s = Some rs -> row s = Some rw -> 0 <= j ->
  Columns rs !! Z.to_nat j = Some col -> Value_Items rw !! Z.to_nat j = Some c ->
  seekItemByID j {| sc := s; mem := h |}
    = Ret tt {| sc := set_scanItem_v (Some c)
                        (set_scanItem_t (Column_Type col)
                           (set_scanItem_name (Name col) s));
                mem := h |}.
Proof.
  intros He Hs Hr Hj Hcol Hc.
  assert (Hlt : j < len (Columns rs)).
  { apply lookup_lt_Some in Hcol. unfold len. lia. }
  unfold seekItemByID, mbind at 1, M_bind at 1, get at 1. cbn [sc].
  unfold hasItems. rewrite He, Hs, Hr. cbn [not_nil negb andb orb].
  destruct (Z.leb_spec (len (Columns rs)) j); [lia|].
  unfold index. destruct (Z.ltb_spec j 0); [lia|]. rewrite Hcol, Hc. reflexivity.
Qed.

(** X28: a scan of one destination of a direct type reads the cell of the
    selected column (of the first column when none is selected) of the
    current row, when that column is not optional and the cell is of the
    destination's kind: the cell's value is written, one value is counted
    as consumed, no error is recorded. *)
Theorem scan_reads_selected_column (s : scanner) (h : list gval) (rs : ResultSet)
    (rw : Value) (j : Z) (col : Column) (c : Value) (t : golang.type) (l : loc)
    (v : gval) :
  err s = None -> set s = Some rs -> row s = Some rw -> nextItem s = 0 ->
  (columnIndexes s = Some [j] \/ (columnIndexes s = None /\ j = 0)) ->
  0 <= j ->
  Columns rs !! Z.to_nat j = Some col -> Value_Items rw !! Z.to_nat j = Some c ->
  isOptional (Column_Type col) = false ->
  decode t (Value_Value c) = Some v -> (l < length h)%nat ->
  scan [d_ptr t (Some l)] {| sc := s; mem := h |}
    = Ret None
        {| sc := with_nextItem 1
                   (set_scanItem_v (Some c)
                      (set_scanItem_t (Column_Type col)
                         (set_scanItem_name (Name col) s)));
           mem := <[l := v]> h |}.
Proof.
  intros He Hs Hr Hn Hci Hj Hcol Hc Hopt Hdec Hl.
  assert (Hcc : 1 <= len (Columns rs)).
  { apply lookup_lt_Some in Hcol. unfold len. lia. }
  pose proof (seekItemByID_found s h rs rw j col c He Hs Hr Hj Hcol Hc) as Hseek.
  set (s1 := set_scanItem_v (Some c)
               (set_scanItem_t (Column_Type col) (set_scanItem_name (Name col) s))) in *.
  assert (Hdirect : scanRequired (d_ptr t (Some l)) {| sc := s1; mem := h |}
                    = Ret tt {| sc := s1; mem := <[l := v]> h |}).
  { subst s1. clear - Hdec Hl. apply Nat.ltb_lt in Hl.
    destruct s as [rs0 rw0 [kv kp [nm ki kt kvv]] nr ni ci dv er].
    destruct c as [[x|] items hi]; cbn in Hdec;
      destruct t; try discriminate Hdec;
      destruct x; try discriminate Hdec; injection Hdec as <-;
      crunch; rewrite Hl; reflexivity. }
  assert (Hcur : isCurrentTypeOptional {| sc := s1; mem := h |}
                 = Ret false {| sc := s1; mem := h |}).
  { unfold isCurrentTypeOptional, current, mbind, M_bind, get, stack_current.
    cbn. rewrite Hopt. reflexivity. }
  assert (Herr1 : err s1 = None) by exact He.
  unfold scan. rewrite bind_get. cbn [sc]. rewrite He. cbn [not_nil].
  replace (match columnIndexes s with
           | Some ci => negb (len ci =? len [d_ptr t (Some l)]) | None => false end)
    with false by (destruct Hci as [-> | [-> _]]; reflexivity).
  unfold ColumnCount. rewrite Hs.
  destruct (Z.ltb_spec (len (Columns rs)) (len [d_ptr t (Some l)]));
    [unfold len in *; cbn [length] in *; lia|].
  rewrite Hn. cbn [Z.eqb negb].
  rewrite bind_run. cbn [scan_loop]. rewrite bind_get. cbn [sc].
  rewrite bind_run.
  replace (match columnIndexes s with
           | Some ci => match index ci 0 with
                        | Some id => seekItemByID id
                        | None => do_panic panic_index_out_of_range
                        end
           | None => seekItemByID 0
           end {| sc := s; mem := h |})
    with (seekItemByID j {| sc := s; mem := h |})
    by (destruct Hci as [-> | [-> ->]]; reflexivity).
  rewrite Hseek. rewrite bind_get. cbn [sc]. rewrite Herr1. cbn [not_nil].
  rewrite bind_run, Hcur. rewrite bind_run, Hdirect.
  cbn [scan_loop]. unfold mret, M_ret. cbn beta iota.
  rewrite bind_run. unfold modify, return_err. rewrite bind_get. cbn [sc].
  change (nextItem s1) with (nextItem s). rewrite Hn.
  change (0 + len [d_ptr t (Some l)]) with 1.
  change (err (with_nextItem 1 s1)) with (err s). rewrite He.
  reflexivity.
Qed.

(** X29: a scan that answers nil, over destinations none of which is a
    [types.Scanner], has counted exactly its destinations as consumed and
    has left the result set and the selected columns as they were. *)
Theorem scan_answering_nil_counts (values : list dest) (st st' : state) :
  forallb no_converter values = true ->
  scan values st = Ret None st' ->
  nextItem (sc st) = 0 /\ nextItem (sc st') = len values /\ Err (sc st') = None /\
  set (sc st') = set (sc st) /\ columnIndexes (sc st') = columnIndexes (sc st).
Proof.
  intros Hv Hrun.
  destruct (scan_counts_values values st st' Hv Hrun) as [Hn He].
  revert Hrun. unfold scan. rewrite bind_get.
  destruct (not_nil (err (sc st))) eqn:He0.
  { unfold return_err. rewrite bind_get. intros [= Herr <-].
    rewrite Herr in He0. discriminate He0. }
  destruct (match columnIndexes (sc st) with
            | Some ci => negb (len ci =? len values) | None => false end).
  { rewrite bind_run.
    destruct (errorf_sets_error (sc st) (mem st)
                "scan row failed: count of values and column are different" [])
      as (s1 & Hf & Hs1).
    destruct st as [s h]. cbn [sc mem] in Hf. rewrite Hf.
    unfold return_err. rewrite bind_get. intros [= Herr <-]. cbn [sc] in Herr. congruence. }
  destruct (ColumnCount (sc st) <? len values).
  { rewrite bind_run.
    destruct (errorf_sets_error (sc st) (mem st)
                "scan row failed: count of columns less then values" [])
      as (s1 & Hf & Hs1).
    destruct st as [s h]. cbn [sc mem] in Hf. rewrite Hf.
    unfold return_err. rewrite bind_get. intros [= Herr <-]. cbn [sc] in Herr. congruence. }
  destruct (Z.eqb_spec (nextItem (sc st)) 0) as [Hz|Hz]; cbn [negb]; [|discriminate].
  pose proof (keeps_scan_loop values 0 Hv st) as Hk.
  rewrite bind_run.
  destruct (scan_loop 0 values st) as [returned st1|why st1]; [|discriminate].
  destruct Hk as (Hni & Hci & Hset).
  destruct returned.
  - unfold return_err. rewrite bind_get. intros [= Herr <-].
    repeat split; auto.
  - rewrite bind_run. unfold modify, return_err. rewrite bind_get. cbn [sc].
    intros [= Herr <-]. cbn [sc with_nextItem nextItem set columnIndexes].
    repeat split; auto.
Qed.

End scanner_more.

(** ** The further properties on examples *)

Lemma lazyCoordination_reinitialised_witness :
  let New := fun d : nat => {| ydb.client_id := d; ydb.client_Close := fun _ => @None (error unit) |} in
  let c := {| ydb.db := 7%nat; ydb.client := None |} in
  ydb.client c = None /\
  ydb.client (ydb.init New c) = Some (New 7%nat) /\
  ydb.init New (ydb.Close (ydb.init New c) cluster.Background).1.2
    = {| ydb.db := 7%nat; ydb.client := Some (New 7%nat) |}.
Proof.
  intros New c. split; [reflexivity|].
  destruct (lazyCoordination_reinitialised New c cluster.Background)
    as ((cl & Hcl & Hnew & _ & _) & _ & _ & Hre).
  split; [|exact Hre].
  rewrite Hcl. f_equal. apply Hnew. reflexivity.
Defined.

Lemma MultiCredentials_answers_as_nested_witness :
  let denied : error unit := ErrorsNew "denied" in
  let a := credentials.Func (fun _ => ("", Some denied)) in
  let b := credentials.AccessTokenCredentials "token-b" "env" in
  let cs := [a; credentials.multiCredentials [a; b]] in
  forallb credentials.not_empty_composite cs = true /\
  credentials.Token (credentials.MultiCredentials cs) cluster.Background
    = credentials.Token (credentials.multiCredentials cs) cluster.Background.
Proof.
  intros denied a b cs. split; [reflexivity|].
  apply (MultiCredentials_answers_as_nested cluster.Background cs). reflexivity.
Defined.

Lemma MultiCredentials_flat_witness :
  let a : @credentials.Credentials unit := credentials.anonymousCredentials "test" in
  let b := credentials.AccessTokenCredentials "token-b" "env" in
  let cs := [credentials.multiCredentials [a; b]; b] in
  forallb credentials.flat cs = true /\
  credentials.flat (credentials.MultiCredentials cs) = true.
Proof.
  intros a b cs. split; [reflexivity|].
  apply (MultiCredentials_flat cs). reflexivity.
Defined.

Lemma multiCredentials_with_static_never_fails_witness :
  let denied : error unit := ErrorsNew "denied" in
  let a := credentials.Func (fun _ => ("", Some denied)) in
  let b := credentials.anonymousCredentials "test" in
  In b [a; b; a] /\ credentials.static b = true /\
  (credentials.Token (credentials.multiCredentials [a; b; a]) cluster.Background).2 = None.
Proof.
  intros denied a b.
  assert (Hin : In b [a; b; a]) by (right; left; reflexivity).
  split; [exact Hin|]. split; [reflexivity|].
  apply (multiCredentials_with_static_never_fails cluster.Background [a; b; a] b Hin).
  reflexivity.
Defined.

Lemma State_names_witness :
  (state.Created < state.Banned < state.Destroyed)%Z /\
  state.IsValid state.Banned = true /\
  (state.String state.Banned = state.String 2%Z -> state.Banned = 2%Z).
Proof.
  assert (H : (state.Created < state.Banned < state.Destroyed)%Z)
    by (unfold state.Created, state.Banned, state.Destroyed; lia).
  split; [exact H|].
  destruct (State_names state.Banned) as (Hvalid & _ & Hinj).
  split; [apply Hvalid; exact H|].
  apply Hinj. unfold state.Created, state.Banned, state.Destroyed. lia.
Defined.

Section more_examples.
Import Ydb golang scanner session example.
#[local] Open Scope Z_scope.
#[local] Existing Instance helpers.

Ltac closed :=
  first [reflexivity | cbn; lia
        | vm_compute; first [reflexivity | lia | intuition congruence]].

Lemma scanRequired_direct_witness :
  let c := cell (Value_Int32Value 7) in
  let s := standing_on (Some (primitive Type_INT32)) c false in
  on_cell s (Some (primitive Type_INT32)) c /\
  scanRequired (d_ptr t_int32 (Some 0%nat)) {| sc := s; mem := [v_int32 9] |}
    = Ret tt {| sc := s; mem := [v_int32 7] |}.
Proof.
  intros c s. split; [split; reflexivity|].
  apply (scanRequired_direct s [v_int32 9] t_int32 0%nat (Some (primitive Type_INT32)) c
           (v_int32 7)); [split; reflexivity|reflexivity|closed].
Defined.

Lemma scanRequired_direct_mismatch_witness :
  let c := cell (Value_BoolValue true) in
  let s := standing_on (Some (primitive Type_INT32)) c false in
  on_cell s (Some (primitive Type_INT32)) c /\ decode t_int32 (Value_Value c) = None /\
  scanRequired (d_ptr t_int32 (Some 0%nat)) {| sc := s; mem := [v_int32 9] |}
    = Ret tt {| sc := with_err (Some (unexpected_value (scanItem (stack s))
                                        (primitive Type_INT32) w_Int32Value)) s;
                mem := [v_int32 0] |}.
Proof.
  intros c s. split; [split; reflexivity|]. split; [reflexivity|].
  apply (scanRequired_direct_mismatch s [v_int32 9] t_int32 0%nat
           (Some (primitive Type_INT32)) c (primitive Type_INT32));
    [reflexivity|reflexivity|split; reflexivity|reflexivity|reflexivity|closed].
Defined.

Lemma scanOptional_default_on_null_witness :
  let c := cell Value_NullFlagValue in
  let s := standing_on (Some (Optional (primitive Type_UTF8))) c true in
  on_optional_cell s (Some (primitive Type_UTF8)) c /\
  scanOptional (d_ptr t_string (Some 0%nat)) {| sc := s; mem := [v_string "old"] |}
    = Ret tt {| sc := s; mem := [v_string ""] |}.
Proof.
  intros c s. split; [split; reflexivity|].
  apply (scanOptional_default_on_null s [v_string "old"] t_string 0%nat
           (Some (primitive Type_UTF8)) c);
    [reflexivity|reflexivity|split; reflexivity|reflexivity|closed].
Defined.

Lemma scanOptional_default_int_witness :
  let c := cell Value_NullFlagValue in
  let s := standing_on (Some (Optional (primitive Type_INT32))) c true in
  on_optional_cell s (Some (primitive Type_INT32)) c /\
  scanOptional (d_ptr t_int (Some 0%nat)) {| sc := s; mem := [v_int 9] |}
    = Ret tt {| sc := with_err (Some (unknown_type t_int)) s; mem := [v_int 9] |}.
Proof.
  intros c s. split; [split; reflexivity|].
  apply (scanOptional_default_int s [v_int 9] t_int (Some 0%nat)
           (Some (primitive Type_INT32)) c);
    [left; reflexivity|reflexivity|reflexivity|split; reflexivity|reflexivity].
Defined.

Lemma scanRequired_bytes_into_array_witness :
  let ty := Some (mkType (Some (Type_TypeId Type_STRING))) in
  let c := mkValue (Some (Value_BytesValue [1; 2; 3; 4])) [] 0 in
  let s := standing_on ty c false in
  on_cell s ty c /\
  scanRequired (d_ptr (t_array 4 t_uint8) (Some 0%nat))
      {| sc := s; mem := [bytes_val [0; 0; 0; 0]] |}
    = Ret tt {| sc := s; mem := [bytes_val [1; 2; 3; 4]] |} /\
  scanRequired (d_ptr (t_array 3 t_uint8) (Some 0%nat))
      {| sc := s; mem := [bytes_val [0; 0; 0]] |}
    = Ret tt {| sc := with_err (Some (unknown_type (t_array 3 t_uint8))) s;
                mem := [bytes_val [0; 0; 0]] |}.
Proof.
  intros ty c s. split; [split; reflexivity|]. split.
  - apply (scanRequired_bytes_into_array s [bytes_val [0; 0; 0; 0]] 4 0%nat [1; 2; 3; 4] [] 0);
      [discriminate|reflexivity|split; reflexivity|closed].
  - apply (scanRequired_bytes_into_array s [bytes_val [0; 0; 0]] 3 0%nat [1; 2; 3; 4] [] 0);
      [discriminate|reflexivity|split; reflexivity|closed].
Defined.

Lemma scan_loop_after_error_witness :
  let e : err_t := Errorf "no column %q" [ArgStr "title"] in
  let c := cell (Value_Int32Value 7) in
  let s := with_err (Some e) (standing_on (Some (primitive Type_INT32)) c false) in
  let d := d_ptr t_int32 (Some 0%nat) in
  err s = Some e /\
  scan_loop 0 [d; d] {| sc := s; mem := [v_int32 9] |}
    = Ret true {| sc := s; mem := [v_int32 9] |}.
Proof.
  intros e c s d. split; [reflexivity|].
  apply (scan_loop_after_error s [v_int32 9] e (scanItem (stack s)) 0 d [d]);
    [reflexivity|reflexivity|exact I].
Defined.

Lemma scanOptional_double_pointer_fresh_witness :
  let c := cell (Value_Int32Value 7) in
  let s := standing_on (Some (Optional (primitive Type_INT32))) c false in
  on_optional_cell s (Some (primitive Type_INT32)) c /\
  scanOptional (d_ptr (t_ptr t_int32) (Some 0%nat))
      {| sc := s; mem := [v_ptr (Some 1%nat); v_int32 5] |}
    = Ret tt {| sc := s; mem := [v_ptr (Some 2%nat); v_int32 5; v_int32 7] |}.
Proof.
  intros c s. split; [split; reflexivity|].
  apply (scanOptional_double_pointer_fresh s [v_ptr (Some 1%nat); v_int32 5] t_int32 0%nat
           (Some (primitive Type_INT32)) c (v_int32 7));
    [reflexivity|split; reflexivity|reflexivity|closed].
Defined.

Lemma stack_set_current_witness :
  let x := {| item_name := "c"; item_i := 0; item_t := Some (primitive Type_INT32);
              item_v := Some (cell (Value_Int32Value 7)) |} in
  isEmpty (scanItem emptyStack) = true /\
  exists k', stack_set x emptyStack = Some k' /\ stack_current k' = Some x /\
             stack_p k' = 0.
Proof.
  intros x. split; [reflexivity|].
  apply (stack_set_current emptyStack x); [closed|reflexivity].
Defined.

Lemma stack_enter_leave_witness :
  let x := {| item_name := "c"; item_i := 0; item_t := Some (primitive Type_INT32);
              item_v := Some (cell (Value_Int32Value 7)) |} in
  let k := with_scanItem x emptyStack in
  isEmpty (scanItem k) = false /\
  exists k1 k2,
    stack_enter k = Some k1 /\ stack_p k1 = 1 /\ isEmpty (scanItem k1) = true /\
    stack_leave k1 = Some k2 /\ stack_p k2 = 0.
Proof.
  intros x k. split; [reflexivity|].
  apply (stack_enter_leave k);
    [closed|closed|left; reflexivity].
Defined.

Lemma NextRow_visits_every_row_witness :
  let rs := one_column (primitive Type_INT32)
              [cell (Value_Int32Value 1); cell (Value_Int32Value 2)] in
  (length (Rows rs) < 3)%nat /\
  exists s',
    visit_rows 3 {| sc := new_scanner rs; mem := [] |} = Ret 2%nat {| sc := s'; mem := [] |} /\
    RowCount s' = 2 /\ Err s' = None /\
    (Rows rs <> [] -> row s' = Some (row_of [cell (Value_Int32Value 2)])) /\
    NextRow {| sc := s'; mem := [] |} = Ret false {| sc := s'; mem := [] |}.
Proof.
  intros rs.
  assert (Hf : (length (Rows rs) < 3)%nat) by (closed).
  split; [exact Hf|].
  exact (NextRow_visits_every_row rs [] 3 Hf).
Defined.

Lemma scan_checks_counts_witness :
  let s := on_first_row (two_columns 1 2) (Some [1]) in
  let d := d_ptr t_int32 (Some 0%nat) in
  let h := [v_int32 9] in
  err s = None /\
  scan [d; d] {| sc := s; mem := h |}
    = (let e := Errorf "scan row failed: count of values and column are different" [] in
       Ret (Some e) {| sc := with_err (Some e) s; mem := h |}) /\
  scan [d; d; d] {| sc := on_first_row (two_columns 1 2) None; mem := h |}
    = (let e := Errorf "scan row failed: count of columns less then values" [] in
       Ret (Some e) {| sc := with_err (Some e) (on_first_row (two_columns 1 2) None);
                       mem := h |}).
Proof.
  intros s d h. split; [reflexivity|]. split.
  - apply (proj1 (scan_checks_counts s h [d; d] eq_refl) [1]); [reflexivity|].
    closed.
  - apply (proj2 (scan_checks_counts (on_first_row (two_columns 1 2) None) h [d; d; d]
                    eq_refl)); [exact I|closed].
Defined.

Lemma scan_without_row_witness :
  let s := new_scanner (two_columns 1 2) in
  let d := d_ptr t_int32 (Some 0%nat) in
  let e : err_t := Errorf "no value at %q" [ArgStr ""] in
  row s = None /\ counts_fit s [d] /\
  scan [d] {| sc := s; mem := [v_int32 9] |}
    = Ret (Some e) {| sc := with_err (Some e) s; mem := [v_int32 9] |}.
Proof.
  intros s d e.
  assert (Hfit : counts_fit s [d]) by (split; [exact I|closed]).
  split; [reflexivity|]. split; [exact Hfit|].
  apply (scan_without_row s [v_int32 9] d [] emptyItem);
    [reflexivity|reflexivity|reflexivity|exact Hfit|reflexivity].
Defined.

Lemma reset_keeps_error_witness :
  let e : err_t := Errorf "no column %q" [ArgStr "title"] in
  let s := with_err (Some e) (on_first_row (two_columns 1 2) None) in
  let rs := two_columns 3 4 in
  err s = Some e /\
  exists s',
    reset (Some rs) (Some ["b"]) {| sc := s; mem := [] |} = Ret tt {| sc := s'; mem := [] |} /\
    Err s' = Some e /\ set s' = Some rs /\ HasNextRow s' = false /\
    NextRow {| sc := s'; mem := [] |} = Ret false {| sc := s'; mem := [] |}.
Proof.
  intros e s rs. split; [reflexivity|].
  apply (reset_keeps_error s [] rs (Some ["b"]) e). reflexivity.
Defined.

Lemma Truncated_without_set_witness :
  let s := standing_on (Some (primitive Type_INT32)) (cell (Value_Int32Value 7)) true in
  let d := d_ptr t_int32 (Some 0%nat) in
  let e : err_t := Errorf "there are no sets in the scanner" [] in
  set s = None /\ err s = None /\
  Truncated {| sc := s; mem := [v_int32 9] |}
    = Ret false {| sc := with_err (Some e) s; mem := [v_int32 9] |} /\
  (Truncated ≫= fun t : bool => Scan [d] ≫= fun r => mret (t, r))
      {| sc := s; mem := [v_int32 9] |}
    = Ret (false, Some e)
        {| sc := with_defaultValueForOptional false (with_err (Some e) s);
           mem := [v_int32 9] |}.
Proof.
  intros s d e. split; [reflexivity|]. split; [reflexivity|].
  destruct (proj1 (proj2 (Truncated_without_set s [v_int32 9])) eq_refl eq_refl)
    as [Ht Hscan].
  split; [exact Ht|exact (Hscan [d])].
Defined.

Lemma find_column_first_witness :
  let cols := [{| Name := "a"; Column_Type := None |};
               {| Name := "b"; Column_Type := None |};
               {| Name := "b"; Column_Type := Some (primitive Type_INT32) |}] in
  0 <= 1 /\
  exists c, cols !! 1%nat = Some c /\ Name c = "b" /\
    forall (k : nat) c', (k < 1)%nat -> cols !! k = Some c' -> Name c' <> "b".
Proof.
  intros cols. exact (find_column_first cols "b").
Defined.

Lemma setColumnIndexes_selects_witness :
  let rs := two_columns 1 2 in
  let s := new_scanner rs in
  Forall2 (fun n j => find_column (Columns rs) n 0 = Some j) ["b"; "a"] [1; 0] /\
  setColumnIndexes (Some ["b"; "a"]) {| sc := s; mem := [] |}
    = Ret tt {| sc := with_columnIndexes (Some [1; 0]) s; mem := [] |}.
Proof.
  intros rs s.
  assert (Hf : Forall2 (fun n j => find_column (Columns rs) n 0 = Some j) ["b"; "a"] [1; 0])
    by (repeat constructor).
  split; [exact Hf|].
  apply (setColumnIndexes_selects s [] rs ["b"; "a"] [1; 0] eq_refl Hf).
Defined.

Lemma setColumnIndexes_missing_witness :
  let rs := two_columns 1 2 in
  let s := new_scanner rs in
  find_column (Columns rs) "z" 0 = None /\
  setColumnIndexes (Some ["b"; "z"; "a"]) {| sc := s; mem := [] |}
    = Ret tt {| sc := with_err (Some (Errorf "no column %q" [ArgStr "z"]))
                        (with_columnIndexes (Some [1; 0; 0]) s);
                mem := [] |}.
Proof.
  intros rs s. split; [reflexivity|].
  apply (setColumnIndexes_missing s [] rs ["b"] [1] "z" ["a"] eq_refl eq_refl);
    [repeat constructor|reflexivity].
Defined.

Lemma scan_reads_selected_column_witness :
  let rs := two_columns 1 2 in
  let s := on_first_row rs (Some [1]) in
  let c := cell (Value_Int32Value 2) in
  Columns rs !! 1%nat = Some {| Name := "b"; Column_Type := Some (primitive Type_INT32) |} /\
  scan [d_ptr t_int32 (Some 0%nat)] {| sc := s; mem := [v_int32 9] |}
    = Ret None
        {| sc := with_nextItem 1
                   (set_scanItem_v (Some c)
                      (set_scanItem_t (Some (primitive Type_INT32))
                         (set_scanItem_name "b" s)));
           mem := [v_int32 2] |}.
Proof.
  intros rs s c. split; [reflexivity|].
  apply (scan_reads_selected_column s [v_int32 9] rs
           (row_of [cell (Value_Int32Value 1); c]) 1
           {| Name := "b"; Column_Type := Some (primitive Type_INT32) |} c t_int32 0%nat
           (v_int32 2));
    [reflexivity|reflexivity|reflexivity|reflexivity|left; reflexivity|lia
    |reflexivity|reflexivity|reflexivity|reflexivity|closed].
Defined.

Lemma scan_answering_nil_counts_witness :
  let rs := two_columns 1 2 in
  let st := {| sc := on_first_row rs None; mem := [v_int32 9; v_int32 9] |} in
  let values := [d_ptr t_int32 (Some 0%nat); d_ptr t_int32 (Some 1%nat)] in
  exists st',
    scan values st = Ret None st' /\ mem st' = [v_int32 1; v_int32 2] /\
    nextItem (sc st') = 2 /\ Err (sc st') = None /\ set (sc st') = Some rs.
Proof.
  intros rs st values.
  destruct (scan values st) as [[e|] st'|why st'] eqn:Hrun;
    [vm_compute in Hrun; discriminate Hrun| |vm_compute in Hrun; discriminate Hrun].
  exists st'. split; [reflexivity|].
  destruct (scan_answering_nil_counts values st st' eq_refl Hrun)
    as (_ & Hn & He & Hs & _).
  split; [vm_compute in Hrun; injection Hrun as <-; reflexivity|].
  split; [exact Hn|]. split; [exact He|]. exact Hs.
Defined.

Lemma scanOptional_single_pointer_witness :
  let c := cell (Value_Int32Value 7) in
  let s := standing_on (Some (Optional (primitive Type_INT32))) c false in
  on_optional_cell s (Some (primitive Type_INT32)) c /\
  exists s',
    scanOptional (d_ptr t_int32 (Some 0%nat)) {| sc := s; mem := [v_int32 9] |}
      = Ret tt {| sc := s'; mem := [v_int32 9] |} /\
    err s' <> None.
Proof.
  intros c s. split; [split; reflexivity|].
  apply (scanOptional_single_pointer s [v_int32 9] t_int32 (Some 0%nat)
           (Some (primitive Type_INT32)) c);
    [reflexivity|reflexivity|reflexivity|split; reflexivity|discriminate].
Defined.

Lemma scanOptional_double_pointer_null_witness :
  let c := cell Value_NullFlagValue in
  let s := standing_on (Some (Optional (primitive Type_INT32))) c false in
  on_optional_cell s (Some (primitive Type_INT32)) c /\
  scanOptional (d_ptr (t_ptr t_int32) (Some 0%nat))
      {| sc := s; mem := [v_ptr (Some 1%nat); v_int32 5] |}
    = Ret tt {| sc := s; mem := [v_ptr None; v_int32 5] |}.
Proof.
  intros c s. split; [split; reflexivity|].
  apply (scanOptional_double_pointer_null s [v_ptr (Some 1%nat); v_int32 5] t_int32 0%nat
           (Some (primitive Type_INT32)) c);
    [reflexivity|reflexivity|split; reflexivity|reflexivity|closed].
Defined.

Lemma scanOptional_other_double_pointer_null_witness :
  let c := cell Value_NullFlagValue in
  let inner := Some (primitive Type_STRING) in
  let s := standing_on (Some (Optional (primitive Type_STRING))) c false in
  on_optional_cell s inner c /\
  scanOptional (d_ptr (t_ptr (t_array 4 t_uint8)) (Some 0%nat))
      {| sc := s; mem := [v_ptr (Some 1%nat); bytes_val [1; 2; 3; 4]] |}
    = Ret tt {| sc := set_scanItem_t inner s;
                mem := [v_ptr None; bytes_val [1; 2; 3; 4]] |}.
Proof.
  intros c inner s. split; [split; reflexivity|].
  apply (scanOptional_other_double_pointer_null s
           [v_ptr (Some 1%nat); bytes_val [1; 2; 3; 4]] (t_array 4 t_uint8) 0%nat inner c);
    [reflexivity|reflexivity|reflexivity|reflexivity|split; reflexivity|reflexivity
    |closed].
Defined.

End more_examples.
